(** * Block: the component base class of the messenger front end

    A shallow embedding of [src/utils/Block.ts] (the abstract class [Block])
    and of [src/components/button/button.ts] (the class [Button]), together
    with the properties of the lifecycle, of the reactive property store and
    of the composition of children into the rendered markup. *)

From Stdlib Require Import ZArith String Ascii List Bool Lia.
From stdpp Require Import base option list gmap strings pretty.

Set Warnings "-register-all".

Local Open Scope string_scope.
Local Open Scope list_scope.

(** ** The document object model, as far as [Block] uses it *)

(** A function is known by its source text; [f.bind(target)] is a bound
    function, known by the function it wraps. *)
Inductive func : Type :=
| Fn (src : string)
| BoundFn (src : string).

(** A DOM node is kept as a value: the subtree as it is when it is read.
    An element carries what the class touches: its attributes
    ([data-id] among them), its class list, the [display] property of its
    inline style and its registered listeners. *)
Inductive node : Type :=
| Element (tagName : string) (attributes : list (string * string))
          (classList : list string) (display : option string)
          (listeners : list (string * func)) (childNodes : list node)
| TextNode (data : string).

(** [DocumentFragment]: an ordered list of top-level nodes. *)
Definition DocumentFragment : Type := list node.

(** A node stands below an element: among its child nodes, or below one
    of them. *)
Inductive below : node -> node -> Prop :=
| below_child tag attrs cls disp ls kids n :
    In n kids -> below n (Element tag attrs cls disp ls kids)
| below_deep tag attrs cls disp ls kids n k :
    In k kids -> below n k ->
    below n (Element tag attrs cls disp ls kids).

(** ** JavaScript values *)

(** A component seen from outside: the public field [_id] and what
    [getContent()] returns. It is what a parent reads of a child. A
    node is kept as a value, without identity: a component stands for one
    object, and its node for one tree, which is no part of the node of
    another component. *)
Record BlockRef : Type := mkBlockRef {
  ref_id : string;
  ref_content : option node
}.

(** The values a property bag can hold. The numbers are the integers a
    double holds exactly; an array is dense. *)
Inductive value : Type :=
| VUndefined
| VNull
| VBool (b : bool)
| VNum (n : Z)
| VStr (s : string)
| VFun (f : func)
| VObj (fields : list (string * value))
| VArr (items : list value)
| VBlock (b : BlockRef).

(** [value instanceof Block] *)
Definition instanceof_Block (v : value) : bool :=
  match v with VBlock _ => true | _ => false end.

(** JavaScript truthiness: [!v] is [negb (truthy v)]. *)
Definition truthy (v : value) : bool :=
  match v with
  | VUndefined | VNull => false
  | VBool b => b
  | VNum n => negb (n =? 0)%Z
  | VStr s => negb (String.eqb s "")
  | _ => true
  end.

(** [Array.prototype.join]: [null] and [undefined] print as nothing. *)
Definition join_with (sep : string) (parts : list string) : string :=
  match parts with
  | [] => ""
  | p :: ps => fold_left (fun acc q => acc +:+ sep +:+ q) ps p
  end.

(** The integer [c] rounds to the double [n], [n] being at least [2^53]:
    [n] is [m * 2^q] with [m] of 53 bits, its neighbours lie [2^q] above
    and [2^q] below ([2^(q-1)] below a power of two), and a tie goes to
    the even [m]. The comparison is made on the doubles of the numbers. *)
Definition rounds_to (n c : Z) : bool :=
  let q := (Z.log2 n - 52)%Z in
  let m := (n / 2 ^ q)%Z in
  let below := (if (m =? 2 ^ 52)%Z then 2 ^ (q - 1) else 2 ^ q)%Z in
  let lo2 := (2 * n - below)%Z in
  let hi2 := (2 * n + 2 ^ q)%Z in
  if Z.even m then ((lo2 <=? 2 * c) && (2 * c <=? hi2))%Z
  else ((lo2 <? 2 * c) && (2 * c <? hi2))%Z.

(** The number with the fewest significant digits that rounds to [n], the
    nearest to [n] when there are two, found by dropping as many decimal
    digits as possible, [drop] at most. *)
Fixpoint shortest (n : Z) (drop : nat) : Z :=
  match drop with
  | 0 => n
  | S d =>
      let p := (10 ^ Z.of_nat drop)%Z in
      let lo := (n / p * p)%Z in
      let hi := (lo + p)%Z in
      match rounds_to n lo, rounds_to n hi with
      | true, true =>
          if (n - lo <? hi - n)%Z then lo
          else if (hi - n <? n - lo)%Z then hi
          else if Z.even (lo / p) then lo else hi
      | true, false => lo
      | false, true => hi
      | false, false => shortest n d
      end
  end.

(** A string of digits without the zeros at its end. *)
Fixpoint strip_zeros (s : string) : string :=
  match s with
  | EmptyString => EmptyString
  | String c s' =>
      let t := strip_zeros s' in
      if (Ascii.eqb c "0"%char && String.eqb t "")%bool then EmptyString
      else String c t
  end.

(** [Number::toString] on a positive integer: the digits as they are
    below [2^53]; from there on the fewest digits that give the number
    back, filled up with zeros when there are 21 digits at most, and in
    exponent form beyond. *)
Definition digits_of_positive (n : Z) : string :=
  if (n <? 2 ^ 53)%Z then pretty n
  else
    let digits := pretty (shortest n (String.length (pretty n) - 1)) in
    let e := String.length digits in
    if Nat.leb e 21 then digits
    else
      match strip_zeros digits with
      | EmptyString => digits
      | String d EmptyString =>
          String d ("e+" +:+ pretty (Z.of_nat (e - 1)))
      | String d rest =>
          String d ("." +:+ rest +:+ "e+" +:+ pretty (Z.of_nat (e - 1)))
      end.

Definition Number_toString (n : Z) : string :=
  if (n <? 0)%Z then "-" +:+ digits_of_positive (- n)
  else digits_of_positive n.

(** [`${v}`]: the string a template literal makes of a value. *)
Fixpoint ToString (v : value) : string :=
  match v with
  | VUndefined => "undefined"
  | VNull => "null"
  | VBool true => "true"
  | VBool false => "false"
  | VNum n => Number_toString n
  | VStr s => s
  | VFun (Fn src) => src
  | VFun (BoundFn _) => "function () { [native code] }"
  | VObj _ => "[object Object]"
  | VBlock _ => "[object Object]"
  | VArr items =>
      join_with ","
        (map (fun x => match x with
                       | VUndefined | VNull => ""
                       | _ => ToString x
                       end) items)
  end.

(** What a plain object inherits: the properties of [Object.prototype].
    A method is known by the text the engine prints for it, and
    [__proto__] reads as the prototype itself, an object without own
    keys. *)
Definition Object_prototype_methods : list string :=
  ["__defineGetter__"; "__defineSetter__"; "hasOwnProperty";
   "__lookupGetter__"; "__lookupSetter__"; "isPrototypeOf";
   "propertyIsEnumerable"; "toString"; "valueOf"; "toLocaleString"].

Definition Object_prototype (name : string) : value :=
  if String.eqb name "__proto__" then VObj []
  else if String.eqb name "constructor"
  then VFun (Fn "function Object() { [native code] }")
  else if existsb (String.eqb name) Object_prototype_methods
  then VFun (Fn ("function " +:+ name +:+ "() { [native code] }"))
  else VUndefined.

(** A plain object whose keys are enumerated in insertion order:
    the entries as [Object.entries] lists them. *)
Definition entries : Type := list (string * value).

(** [o[key]] *)
Fixpoint obj_get (key : string) (o : entries) : option value :=
  match o with
  | [] => None
  | (k, v) :: o' => if String.eqb k key then Some v else obj_get key o'
  end.

(** [o[key] = v]: an existing key keeps its place, a new one goes last. *)
Fixpoint obj_set (key : string) (v : value) (o : entries) : entries :=
  match o with
  | [] => [(key, v)]
  | (k, w) :: o' =>
      if String.eqb k key then (k, v) :: o' else (k, w) :: obj_set key v o'
  end.

(** A value whose string is the one [ToString] gives: an object with a
    [toString] or a [valueOf] of its own is printed by that method, which
    is code of the caller. *)
Fixpoint prints_plainly (v : value) : bool :=
  match v with
  | VObj fs =>
      match obj_get "toString" fs, obj_get "valueOf" fs with
      | None, None => true
      | _, _ => false
      end
  | VArr items => forallb prints_plainly items
  | _ => true
  end.

(** ** Partition of the constructor's bag *)

(** The callback of [Object.entries(childrenAndProps).forEach]. An array
    is stored under [children] once for each of its elements that is a
    [Block]; a [Block] is stored under [children]; anything else under
    [props]. The two objects are kept as maps: an assignment under the
    key [__proto__], which goes to the setter of the prototype and
    stores no property, is kept as the store of a key like any other,
    and that key is the one place where the maps are not the objects. *)
Definition route (acc : gmap string value * entries) (entry : string * value)
  : gmap string value * entries :=
  let '(props, children) := acc in
  let '(key, value) := entry in
  match value with
  | VArr items =>
      (props,
       fold_left
         (fun children val =>
            if instanceof_Block val then obj_set key value children
            else children)
         items children)
  | VBlock _ => (props, obj_set key value children)
  | _ => (<[key := value]> props, children)
  end.

(** [_getChildrenAndProps] *)
Definition _getChildrenAndProps (childrenAndProps : entries)
  : gmap string value * entries :=
  fold_left route childrenAndProps (∅, []).

(** ** Outcomes of a call *)

(** What a call can throw. [Error] is [new Error(message)]; [TypeError] is
    the engine's, for a property read of [null] or [undefined], for a call
    of what is no function, or for an argument of the wrong type;
    [DOMException] carries its name; [UnknownEvent] is the failure of the
    event bus. *)
Inductive exn : Type :=
| Error (message : string)
| TypeError
| DOMException (name : string)
| UnknownEvent (event : string).

(** The outcome of an expression that reads but does not write: a value, an
    exception, or [NoModel] where the expression leaves what is modelled
    here (it calls a function value, or reflects on a component). *)
Inductive result (A : Type) : Type :=
| Value (a : A)
| Raise (e : exn)
| NoModel.
Arguments Value {A} a.
Arguments Raise {A} e.
Arguments NoModel {A}.

Definition result_bind {A B} (r : result A) (k : A -> result B) : result B :=
  match r with
  | Value a => k a
  | Raise e => Raise e
  | NoModel => NoModel
  end.

#[export] Instance result_ret : MRet result := fun _ a => Value a.
#[export] Instance result_mbind : MBind result :=
  fun _ _ k r => result_bind r k.

(** [forEach] whose callback may throw: the first exception ends it. *)
Fixpoint forEach_r {A S} (f : S -> A -> result S) (l : list A) (s : S)
  : result S :=
  match l with
  | [] => Value s
  | x :: l' => result_bind (f s x) (forEach_r f l')
  end.

(** The outcome of a method on a state [S]: it returns normally with the
    state it leaves, or throws, also with the state it leaves (nothing is
    rolled back), or the nesting of event emissions exceeds the fuel, or
    the call leaves what is modelled. *)
Inductive outcome (S A : Type) : Type :=
| Normal (a : A) (s : S)
| Throw (e : exn) (s : S)
| OutOfFuel
| Unmodelled.
Arguments Normal {S A} a s.
Arguments Throw {S A} e s.
Arguments OutOfFuel {S A}.
Arguments Unmodelled {S A}.

(** The state an outcome leaves behind, when it has one. *)
Definition final_state {S A} (o : outcome S A) : option S :=
  match o with
  | Normal _ s | Throw _ s => Some s
  | OutOfFuel | Unmodelled => None
  end.

Definition returns {S A} (o : outcome S A) : bool :=
  match o with Normal _ _ => true | _ => false end.

Definition method (S A : Type) : Type := S -> outcome S A.

Definition ret {S A} (a : A) : method S A := fun s => Normal a s.

Definition bind {S A B} (m : method S A) (k : A -> method S B) : method S B :=
  fun s =>
    match m s with
    | Normal a s' => k a s'
    | Throw e s' => Throw e s'
    | OutOfFuel => OutOfFuel
    | Unmodelled => Unmodelled
    end.

Definition throw {S A} (e : exn) : method S A := fun s => Throw e s.

Definition modify {S} (f : S -> S) : method S unit := fun s => Normal tt (f s).

(** Run an expression that only reads. *)
Definition lift {S A} (r : result A) : method S A :=
  fun s =>
    match r with
    | Value a => Normal a s
    | Raise e => Throw e s
    | NoModel => Unmodelled
    end.

Declare Scope method_scope.
Delimit Scope method_scope with method.
Notation "x <- m ;; k" := (bind m (fun x => k))
  (at level 100, m at next level, right associativity) : method_scope.
Notation "m ;;; k" := (bind m (fun _ => k))
  (at level 100, right associativity) : method_scope.

(** [forEach] over a list, as a method. *)
Fixpoint forEach {S A} (f : A -> method S unit) (l : list A) : method S unit :=
  match l with
  | [] => ret tt
  | x :: l' => bind (f x) (fun _ => forEach f l')
  end.

(** ** DOM operations *)

Definition isElement (n : node) : bool :=
  match n with Element _ _ _ _ _ _ => true | TextNode _ => false end.

(** [fragment.firstElementChild]: the first child that is an element,
    [null] when there is none. *)
Fixpoint firstElementChild (fragment : DocumentFragment) : option node :=
  match fragment with
  | [] => None
  | n :: rest => if isElement n then Some n else firstElementChild rest
  end.

(** The number of top-level elements of a fragment. *)
Definition childElementCount (fragment : DocumentFragment) : nat :=
  length (filter (fun n => isElement n = true) fragment).

(** [el.getAttribute(name)] *)
Fixpoint getAttribute (name : string) (attrs : list (string * string))
  : option string :=
  match attrs with
  | [] => None
  | (k, v) :: attrs' =>
      if String.eqb k name then Some v else getAttribute name attrs'
  end.

(** An element matches the selector [[data-id='id']] when its [data-id]
    attribute is [id]. *)
Definition matches_data_id (id : string) (n : node) : bool :=
  match n with
  | Element _ attrs _ _ _ _ =>
      match getAttribute "data-id" attrs with
      | Some v => String.eqb v id
      | None => false
      end
  | TextNode _ => false
  end.

(** A node inside a fragment: the child indices from the top. *)
Definition path : Type := list nat.

(** The first of [nodes], counted from [i], in which [f] finds something. *)
Fixpoint find_first (f : node -> option path) (i : nat) (nodes : list node)
  : option path :=
  match nodes with
  | [] => None
  | n :: rest =>
      match f n with
      | Some p => Some (i :: p)
      | None => find_first f (S i) rest
      end
  end.

(** The first element of the subtree [n], in document order, that matches:
    [n] itself before its descendants. *)
Fixpoint find_node (id : string) (n : node) : option path :=
  match n with
  | TextNode _ => None
  | Element _ _ _ _ _ kids =>
      if matches_data_id id n then Some []
      else find_first (find_node id) 0 kids
  end.

(** [fragment.querySelector(`[data-id='${id}']`)]: the first descendant
    element of the fragment, in document order, with that [data-id]. *)
Definition querySelector (id : string) (fragment : DocumentFragment)
  : option path :=
  find_first (find_node id) 0 fragment.

Definition with_childNodes (kids : list node) (n : node) : node :=
  match n with
  | Element tag attrs cls disp ls _ => Element tag attrs cls disp ls kids
  | TextNode d => TextNode d
  end.

Definition childNodes_of (n : node) : list node :=
  match n with
  | Element _ _ _ _ _ kids => kids
  | TextNode _ => []
  end.

(** [stub.replaceWith(new)], [stub] being the node at path [p] of the
    forest: the node takes the stub's place among its siblings. The node
    comes from outside the forest: the DOM moves a node, so that one that
    already stands in the forest would leave its former place, which a
    value put in the stub's place does not show. The properties of the
    composition are stated of children among which no component occurs
    twice. *)
Fixpoint replaceWith (p : path) (new : node) (nodes : list node)
  : list node :=
  match p with
  | [] => nodes
  | i :: q =>
      match q with
      | [] => <[i := new]> nodes
      | _ :: _ =>
          match nodes !! i with
          | Some n =>
              <[i := with_childNodes (replaceWith q new (childNodes_of n)) n]>
                nodes
          | None => nodes
          end
      end
  end.

(** [replaceWith(null)] inserts the text [null]: the argument is a node or
    a string, and [null] converts to the string. *)
Definition node_or_text (content : option node) : node :=
  match content with
  | Some n => n
  | None => TextNode "null"
  end.

(** The elements of a forest, at any depth, with the given [data-id]. *)
Fixpoint count_data_id (id : string) (n : node) : nat :=
  match n with
  | TextNode _ => 0
  | Element _ _ _ _ _ kids =>
      (if matches_data_id id n then 1 else 0)
      + list_sum (map (count_data_id id) kids)
  end.

Definition count_stubs (id : string) (nodes : list node) : nat :=
  list_sum (map (count_data_id id) nodes).

(** ASCII whitespace, which a class token must not contain. *)
Definition is_ascii_whitespace (c : ascii) : bool :=
  let n := nat_of_ascii c in
  (Nat.eqb n 9 || Nat.eqb n 10 || Nat.eqb n 12 || Nat.eqb n 13
   || Nat.eqb n 32)%bool.

Fixpoint has_whitespace (s : string) : bool :=
  match s with
  | EmptyString => false
  | String c s' => is_ascii_whitespace c || has_whitespace s'
  end.

Definition string_in (s : string) (l : list string) : bool :=
  existsb (String.eqb s) l.

(** [el.classList.add(token)]: an empty token is a [SyntaxError], one with
    whitespace an [InvalidCharacterError]; a token already there is not
    added again. *)
Definition classList_add (token : string) (n : node) : result node :=
  if String.eqb token "" then Raise (DOMException "SyntaxError")
  else if has_whitespace token then Raise (DOMException "InvalidCharacterError")
  else
    match n with
    | Element tag attrs cls disp ls kids =>
        Value (Element tag attrs
                 (if string_in token cls then cls else cls ++ [token])
                 disp ls kids)
    | TextNode d => Value (TextNode d)
    end.

Definition func_eqb (f g : func) : bool :=
  match f, g with
  | Fn a, Fn b => String.eqb a b
  | BoundFn a, BoundFn b => String.eqb a b
  | _, _ => false
  end.

Definition listener_eqb (a b : string * func) : bool :=
  String.eqb (fst a) (fst b) && func_eqb (snd a) (snd b).

(** The second argument of [addEventListener] and [removeEventListener]:
    a function, or nothing for [null] and [undefined]; a primitive is a
    [TypeError], and a listener object is not modelled. *)
Definition as_listener (v : value) : result (option func) :=
  match v with
  | VFun f => Value (Some f)
  | VUndefined | VNull => Value None
  | VBool _ | VNum _ | VStr _ => Raise TypeError
  | VObj _ | VArr _ | VBlock _ => NoModel
  end.

(** [el.addEventListener(type, callback)]: the same listener is not
    registered twice. *)
Definition addEventListener (type : string) (callback : value) (n : node)
  : result node :=
  match as_listener callback with
  | Value (Some f) =>
      match n with
      | Element tag attrs cls disp ls kids =>
          Value (Element tag attrs cls disp
                   (if existsb (listener_eqb (type, f)) ls then ls
                    else ls ++ [(type, f)])
                   kids)
      | TextNode d => Value (TextNode d)
      end
  | Value None => Value n
  | Raise e => Raise e
  | NoModel => NoModel
  end.

(** [el.removeEventListener(type, callback)] *)
Definition removeEventListener (type : string) (callback : value) (n : node)
  : result node :=
  match as_listener callback with
  | Value (Some f) =>
      match n with
      | Element tag attrs cls disp ls kids =>
          Value (Element tag attrs cls disp
                   (filter (fun l => listener_eqb (type, f) l = false) ls)
                   kids)
      | TextNode d => Value (TextNode d)
      end
  | Value None => Value n
  | Raise e => Raise e
  | NoModel => NoModel
  end.

(** [el.style.display = d] *)
Definition set_display (d : string) (n : node) : node :=
  match n with
  | Element tag attrs cls _ ls kids => Element tag attrs cls (Some d) ls kids
  | TextNode s => TextNode s
  end.

(** [s.split(' ')] *)
Fixpoint split_space_aux (cur : string) (s : string) : list string :=
  match s with
  | EmptyString => [cur]
  | String c s' =>
      if Ascii.eqb c " "%char then cur :: split_space_aux "" s'
      else split_space_aux (cur +:+ String c "") s'
  end.

Definition split_space (s : string) : list string := split_space_aux "" s.

(** The own enumerable properties of a value, as [Object.keys] and
    [Object.assign] enumerate them, each with its value; those of a
    component are not modelled. *)
Definition own_entries (v : value) : result entries :=
  match v with
  | VUndefined | VNull => Raise TypeError
  | VObj fields => Value fields
  | VArr items => Value (imap (fun i x => (pretty i, x)) items)
  | VStr s =>
      Value (imap (fun i c => (pretty i, VStr (String c "")))
               (list_ascii_of_string s))
  | VBool _ | VNum _ | VFun _ => Value []
  | VBlock _ => NoModel
  end.

(** ** The event bus *)

(** The four handlers a component registers: its own bound methods
    [this._init.bind(this)], [this._componentDidMount.bind(this)],
    [this._componentDidUpdate.bind(this)] and [this._render.bind(this)]. *)
Inductive listener : Type :=
| L_init
| L_componentDidMount
| L_componentDidUpdate
| L_render.

Definition listener_eq (a b : listener) : bool :=
  match a, b with
  | L_init, L_init | L_componentDidMount, L_componentDidMount
  | L_componentDidUpdate, L_componentDidUpdate | L_render, L_render => true
  | _, _ => false
  end.

(** Modelled from the spec: the class [EventBus] ([src/utils/EventBus.ts]
    is imported by [Block.ts] and is not among the sources). It maps an
    event name to the ordered list of its handlers. *)
Abbreviation EventBus := (gmap string (list listener)).

(** Modelled from the spec: [on(eventName, handler)] of the missing
    [EventBus] registers the handler at the end of the list for that name,
    without de-duplication. *)
Definition EventBus_on (event : string) (l : listener) (bus : EventBus)
  : EventBus :=
  <[event := default [] (bus !! event) ++ [l]]> bus.

Fixpoint remove_first (l : listener) (ls : list listener) : list listener :=
  match ls with
  | [] => []
  | x :: ls' => if listener_eq x l then ls' else x :: remove_first l ls'
  end.

(** Modelled from the spec: [off(eventName, handler)] of the missing
    [EventBus] removes the first equal handler registered under that name,
    and does nothing if there is none. *)
Definition EventBus_off (event : string) (l : listener) (bus : EventBus)
  : EventBus :=
  match bus !! event with
  | Some ls => <[event := remove_first l ls]> bus
  | None => bus
  end.

(** ** The component *)

(** An object with an identity: [a !== b] compares the addresses. *)
Record jsobj : Type := mkObj {
  addr : nat;
  fields : gmap string value
}.

(** What [_render] does around the component: a call of
    [old.replaceWith(new)] on the root the instance holds. The root is
    recorded as the instance rendered it; when the render hook has moved
    the nodes of children from below it into the new fragment, they are
    no longer below it when the call is made. *)
Inductive dom_op : Type :=
| ReplaceWith (old : node) (new : node).

(** An instance of [Block]. [props] is the target object behind the proxy
    ([_meta.props] is the same object); [next_addr] is the next free object
    address. Two fields are history, written and never read by the methods:
    [emitted] lists the calls of [emit] that reached handlers, oldest
    first, and [document_ops] the replacements [_render] has made. *)
Record Block : Type := mkBlock {
  _id : string;
  props : jsobj;
  children : entries;
  _element : option node;
  eventBus : EventBus;
  next_addr : nat;
  emitted : list (string * list jsobj);
  document_ops : list dom_op
}.

Definition EVENTS_INIT : string := "init".
Definition EVENTS_FLOW_CDM : string := "flow:component-did-mount".
Definition EVENTS_FLOW_CDU : string := "flow:component-did-update".
Definition EVENTS_FLOW_RENDER : string := "flow:render".

Definition set_props (o : jsobj) (b : Block) : Block :=
  mkBlock (_id b) o (children b) (_element b) (eventBus b) (next_addr b)
    (emitted b) (document_ops b).

Definition set_element (e : option node) (b : Block) : Block :=
  mkBlock (_id b) (props b) (children b) e (eventBus b) (next_addr b)
    (emitted b) (document_ops b).

Definition set_next_addr (n : nat) (b : Block) : Block :=
  mkBlock (_id b) (props b) (children b) (_element b) (eventBus b) n
    (emitted b) (document_ops b).

Definition record_emit (event : string) (args : list jsobj) (b : Block)
  : Block :=
  mkBlock (_id b) (props b) (children b) (_element b) (eventBus b)
    (next_addr b) (emitted b ++ [(event, args)]) (document_ops b).

Definition record_dom (op : dom_op) (b : Block) : Block :=
  mkBlock (_id b) (props b) (children b) (_element b) (eventBus b)
    (next_addr b) (emitted b) (document_ops b ++ [op]).

(** The methods a subclass overrides. [init] and [componentDidMount] may
    change the instance and may throw; [componentDidUpdate(oldProps?,
    newProps?)] compares the two objects it is given, either of which may
    be missing; [render] reads the instance and returns a fragment. *)
Class BlockClass : Type := {
  init : method Block unit;
  componentDidMount : method Block unit;
  componentDidUpdate : option jsobj -> option jsobj -> bool;
  render : Block -> result DocumentFragment
}.

(** [a === b] on two arguments that are objects or [undefined]. *)
Definition strict_equal (a b : option jsobj) : bool :=
  match a, b with
  | Some x, Some y => Nat.eqb (addr x) (addr y)
  | None, None => true
  | _, _ => false
  end.

(** The methods as [Block] itself defines them: [init() {}],
    [componentDidMount() {}], [return oldProps !== newProps] and
    [return new DocumentFragment()]. *)
Definition Block_base : BlockClass := {|
  init := ret tt;
  componentDidMount := ret tt;
  componentDidUpdate := fun oldProps newProps =>
    negb (strict_equal oldProps newProps);
  render := fun _ => Value []
|}.

(** [get element()] and [getContent()] *)
Definition element (b : Block) : option node := _element b.
Definition getContent (b : Block) : option node := element b.

(** The [get] trap of the proxy: [target[prop]], a function bound to the
    target. *)
Definition bind_if_function (v : value) : value :=
  match v with
  | VFun (Fn src) | VFun (BoundFn src) => VFun (BoundFn src)
  | _ => v
  end.

Definition proxy_get (prop : string) (b : Block) : value :=
  match fields (props b) !! prop with
  | Some v => bind_if_function v
  | None => VUndefined
  end.

(** [{ ...this.props }]: every own key read through the [get] trap. *)
Definition spread_props (b : Block) : gmap string value :=
  bind_if_function <$> fields (props b).

(** [const { events = {} } = this.props] *)
Definition props_events (b : Block) : value :=
  match proxy_get "events" b with
  | VUndefined => VObj []
  | v => v
  end.

(** [const { classes = '' } = this.props] *)
Definition props_classes (b : Block) : value :=
  match proxy_get "classes" b with
  | VUndefined => VStr ""
  | v => v
  end.

(** [_addEvents]: [this._element?.addEventListener(eventName,
    events[eventName])] for each key of [events]. *)
Definition _addEvents : method Block unit :=
  fun b =>
    match own_entries (props_events b) with
    | Value evs =>
        forEach
          (fun '(eventName, callback) b' =>
             match _element b' with
             | None => Normal tt b'
             | Some el =>
                 match addEventListener eventName callback el with
                 | Value el' => Normal tt (set_element (Some el') b')
                 | Raise e => Throw e b'
                 | NoModel => Unmodelled
                 end
             end)
          evs b
    | Raise e => Throw e b
    | NoModel => Unmodelled
    end.

(** [_removeEvents]: [this._element!.removeEventListener(eventName,
    events[eventName])] for each key of [events]. *)
Definition _removeEvents : method Block unit :=
  fun b =>
    match own_entries (props_events b) with
    | Value evs =>
        forEach
          (fun '(eventName, callback) b' =>
             match _element b' with
             | None => Throw TypeError b'
             | Some el =>
                 match removeEventListener eventName callback el with
                 | Value el' => Normal tt (set_element (Some el') b')
                 | Raise e => Throw e b'
                 | NoModel => Unmodelled
                 end
             end)
          evs b
    | Raise e => Throw e b
    | NoModel => Unmodelled
    end.

(** [classes.split(' ')]: only a string has [split]; on another truthy
    value the call is a [TypeError], unless the value is an object with a
    [split] of its own, which is not modelled. *)
Definition classes_split (classes : value) : result (list string) :=
  match classes with
  | VStr s => Value (split_space s)
  | VObj fs =>
      match obj_get "split" fs with
      | Some (VFun _) => NoModel
      | _ => Raise TypeError
      end
  | _ => Raise TypeError
  end.

(** [_addClass] *)
Definition _addClass : method Block unit :=
  fun b =>
    let classes := props_classes b in
    if negb (truthy classes) then Normal tt b
    else
      match classes_split classes with
      | Value arr =>
          forEach
            (fun className b' =>
               match _element b' with
               | None => Throw TypeError b'
               | Some el =>
                   match classList_add className el with
                   | Value el' => Normal tt (set_element (Some el') b')
                   | Raise e => Throw e b'
                   | NoModel => Unmodelled
                   end
               end)
            arr b
      | Raise e => Throw e b
      | NoModel => Unmodelled
      end.

(** [show] and [hide]: [this.getContent()!.style.display = ...]; the [!]
    is erased by the compiler, so a missing node is dereferenced. *)
Definition show : method Block unit :=
  fun b =>
    match getContent b with
    | Some el => Normal tt (set_element (Some (set_display "block" el)) b)
    | None => Throw TypeError b
    end.

Definition hide : method Block unit :=
  fun b =>
    match getContent b with
    | Some el => Normal tt (set_element (Some (set_display "none" el)) b)
    | None => Throw TypeError b
    end.

(** ** The lifecycle *)

Section Lifecycle.
Context {cls : BlockClass}.

(** The type of [this.eventBus().emit], as the handlers call it. *)
Abbreviation emitter := (string -> list jsobj -> method Block unit).

(** [_createResources() {}] *)
Definition _createResources : method Block unit := ret tt.

(** [_init] *)
Definition _init (emit : emitter) : method Block unit :=
  (_createResources ;;;
   init ;;;
   emit EVENTS_FLOW_RENDER [])%method.

(** [_componentDidMount] *)
Definition _componentDidMount (emit : emitter) : method Block unit :=
  (componentDidMount ;;;
   emit EVENTS_FLOW_RENDER [])%method.

(** [_componentDidUpdate(oldProps, newProps)] *)
Definition _componentDidUpdate (emit : emitter)
    (oldProps newProps : option jsobj) : method Block unit :=
  let response := componentDidUpdate oldProps newProps in
  if response then emit EVENTS_FLOW_RENDER [] else ret tt.

(** [_render] *)
Definition _render : method Block unit :=
  fun b =>
    match render b with
    | Value fragment =>
        let newElement := firstElementChild fragment in
        ((match _element b with
          | Some _ =>
              _removeEvents ;;;
              (fun b' =>
                 match _element b' with
                 | Some old =>
                     Normal tt
                       (record_dom
                          (ReplaceWith old (node_or_text newElement)) b')
                 | None => Throw TypeError b'
                 end)
          | None => ret tt
          end) ;;;
         modify (set_element newElement) ;;;
         _addEvents ;;;
         _addClass)%method b
    | Raise e => Throw e b
    | NoModel => Unmodelled
    end.

(** The call of one registered handler with the arguments of [emit]. *)
Definition call_listener (emit : emitter) (l : listener)
    (args : list jsobj) : method Block unit :=
  match l with
  | L_init => _init emit
  | L_componentDidMount => _componentDidMount emit
  | L_componentDidUpdate =>
      _componentDidUpdate emit (args !! 0) (args !! 1)
  | L_render => _render
  end.

(** Modelled from the spec: [emit(eventName, ...args)] of the missing
    [EventBus] invokes every handler registered for that name,
    synchronously and in registration order, passing the arguments; with
    no handler registered it fails with [UnknownEvent]. A handler may
    emit in turn: [fuel] bounds that nesting. *)
Fixpoint emit (fuel : nat) (event : string) (args : list jsobj)
  : method Block unit :=
  fun b =>
    match fuel with
    | 0 => OutOfFuel
    | S fuel' =>
        match eventBus b !! event with
        | None | Some [] => Throw (UnknownEvent event) b
        | Some ls =>
            forEach (fun l => call_listener (emit fuel') l args) ls
              (record_emit event args b)
        end
    end.

(** [_registerEvents] *)
Definition _registerEvents (eventBus : EventBus) : EventBus :=
  EventBus_on EVENTS_FLOW_RENDER L_render
    (EventBus_on EVENTS_FLOW_CDU L_componentDidUpdate
       (EventBus_on EVENTS_FLOW_CDM L_componentDidMount
          (EventBus_on EVENTS_INIT L_init eventBus))).

(** The [set] trap of [_makePropsProxy]: [oldTarget = { ...target }],
    [target[prop] = value], then the update event with both. *)
Definition proxy_set (fuel : nat) (prop : string) (v : value)
  : method Block unit :=
  fun b =>
    let target := props b in
    let oldTarget := mkObj (next_addr b) (fields target) in
    let target' := mkObj (addr target) (<[prop := v]> (fields target)) in
    emit fuel EVENTS_FLOW_CDU [oldTarget; target']
      (set_props target' (set_next_addr (S (next_addr b)) b)).

(** The [deleteProperty] trap of [_makePropsProxy]. *)
Definition proxy_deleteProperty (prop : string) : method Block unit :=
  throw (Error "?????? ??????????????").

(** [setProps]: [Object.assign(this.props, nextProps)] writes each own
    enumerable key of [nextProps] through the proxy, in order. *)
Definition setProps (fuel : nat) (nextProps : value) : method Block unit :=
  if negb (truthy nextProps) then ret tt
  else
    (es <- lift (own_entries nextProps) ;;
     forEach (fun '(key, v) => proxy_set fuel key v) es ;;;
     emit fuel EVENTS_FLOW_RENDER [])%method.

(** [dispatchComponentDidMount] *)
Definition dispatchComponentDidMount (fuel : nat) : method Block unit :=
  emit fuel EVENTS_FLOW_CDM [].

(** The constructor. [id] is the token [nanoid(6)] returns; the object
    of the props is the first one allocated. *)
Definition new_Block (fuel : nat) (id : string) (propsWithChildren : entries)
  : outcome Block unit :=
  let eventBus : EventBus := ∅ in
  let '(props, children) := _getChildrenAndProps propsWithChildren in
  emit fuel EVENTS_INIT []
    {| _id := id;
       props := mkObj 0 props;
       children := children;
       _element := None;
       eventBus := _registerEvents eventBus;
       next_addr := 1;
       emitted := [];
       document_ops := [] |}.
End Lifecycle.

(** ** Composition of the children into the markup *)

(** [val._id] *)
Definition get_id (val : value) : result value :=
  match val with
  | VBlock r => Value (VStr (ref_id r))
  | VUndefined | VNull => Raise TypeError
  | VObj fs => Value (default VUndefined (obj_get "_id" fs))
  | _ => Value VUndefined
  end.

(** [val.getContent()] *)
Definition call_getContent (val : value) : result (option node) :=
  match val with
  | VBlock r => Value (ref_content r)
  | VObj fs =>
      match obj_get "getContent" fs with
      | Some (VFun _) => NoModel
      | _ => Raise TypeError
      end
  | _ => Raise TypeError
  end.

(** [`<div data-id='${id}'></div>`] *)
Definition stub_markup (id : value) : string :=
  "<div data-id='" +:+ ToString id +:+ "'></div>".

(** [contextAndStubs[name]]: the own property, or what the object
    inherits. *)
Definition ctx_get (name : string) (ctx : gmap string value) : value :=
  match ctx !! name with
  | Some v => v
  | None => Object_prototype name
  end.

(** [contextAndStubs[name] = s], [s] being a string: under the name
    [__proto__], unless it is an own key, the assignment goes to the
    setter of the prototype, which ignores a string. *)
Definition ctx_store (name : string) (s : string) (ctx : gmap string value)
  : gmap string value :=
  match ctx !! name with
  | None => if String.eqb name "__proto__" then ctx
            else <[name := VStr s]> ctx
  | Some _ => <[name := VStr s]> ctx
  end.

(** The callback of the inner [component.forEach] of the first loop: the
    first stub is stored when the key holds nothing truthy, later ones are
    appended to what the key holds. *)
Definition add_stub (name : string) (ctx : gmap string value) (val : value)
  : result (gmap string value) :=
  id ← get_id val;
  mret (if negb (truthy (ctx_get name ctx))
        then ctx_store name (stub_markup id) ctx
        else ctx_store name (ToString (ctx_get name ctx) +:+ stub_markup id)
               ctx).

(** The callback of the first [Object.entries(this.children).forEach]. *)
Definition add_stubs_for (ctx : gmap string value) (entry : string * value)
  : result (gmap string value) :=
  let '(name, component) := entry in
  match component with
  | VArr items => forEach_r (add_stub name) items ctx
  | _ =>
      id ← get_id component;
      mret (ctx_store name (stub_markup id) ctx)
  end.

(** A string that stands for itself between the quotes of the selector
    [[data-id='...']]: it has no quote, no backslash, no line break and
    no null character, which would end the string or start an escape. *)
Definition selector_safe (s : string) : bool :=
  forallb
    (fun c =>
       let n := nat_of_ascii c in
       negb (Nat.eqb n 39 || Nat.eqb n 92 || Nat.eqb n 10 || Nat.eqb n 12
             || Nat.eqb n 13 || Nat.eqb n 0))
    (list_ascii_of_string s).

(** The stub of one component is looked up and, when found, replaced by
    what the component's [getContent()] returns. The selector of an
    identifier that does not stand for itself in it is not modelled. *)
Definition replace_stub (content : DocumentFragment) (val : value)
  : result DocumentFragment :=
  id ← get_id val;
  if negb (selector_safe (ToString id)) then NoModel
  else
    match querySelector (ToString id) content with
    | None => mret content
    | Some stub =>
        node ← call_getContent val;
        mret (replaceWith stub (node_or_text node) content)
    end.

(** The callback of the second [Object.entries(this.children).forEach]. *)
Definition replace_stubs_for (content : DocumentFragment)
    (entry : string * value) : result DocumentFragment :=
  let '(_, component) := entry in
  match component with
  | VArr items => forEach_r replace_stub items content
  | _ => replace_stub content component
  end.

(** The identifiers of the components among the children, in the order
    of the loops. *)
Definition child_ids (children : entries) : list string :=
  flat_map
    (fun entry =>
       match snd entry with
       | VBlock r => [ref_id r]
       | VArr items =>
           omap (fun val => match val with
                            | VBlock r => Some (ref_id r)
                            | _ => None
                            end) items
       | _ => []
       end) children.

Fixpoint repeats (ids : list string) : bool :=
  match ids with
  | [] => false
  | id :: ids' => string_in id ids' || repeats ids'
  end.

(** What the first loop reads under the key of a non-empty sequence, and
    appends the stubs to, prints as [ToString] has it. *)
Definition plain_slots (children : entries) (context : gmap string value)
  : bool :=
  forallb
    (fun entry =>
       match snd entry with
       | VArr (_ :: _) => prints_plainly (ctx_get (fst entry) context)
       | _ => true
       end) children.

Section Compile.
(** The browser's parser: [temp.innerHTML = html; temp.content]. *)
Context (parseHTML : string -> DocumentFragment).

(** [compile(template, context)]. Two cases are left out of what is
    modelled. The first loop appends the stubs of a sequence to the
    string of what it reads under the key: where that is an object
    printed by a method of its own, the string is not known. The second
    loop moves the node of each component into the fragment: where one
    component occurs twice among the children its node leaves the place
    the first move gave it, which a node kept as a value does not show.
    For the same reason the fragment is the one of the code when the
    nodes of the components are apart, none standing below another. *)
Definition compile (template : gmap string value -> string)
    (context : gmap string value) (b : Block) : result DocumentFragment :=
  let contextAndStubs := context in
  contextAndStubs ← forEach_r add_stubs_for (children b) contextAndStubs;
  if negb (plain_slots (children b) context) then NoModel
  else
    let html := template contextAndStubs in
    let content := parseHTML html in
    if repeats (child_ids (children b)) then NoModel
    else forEach_r replace_stubs_for (children b) content.

(** The class [Button]: [render() { return this.compile(template,
    { ...this.props }); }], [template] being the compiled [button.pug]. *)
Definition Button (template : gmap string value -> string) : BlockClass := {|
  init := ret tt;
  componentDidMount := ret tt;
  componentDidUpdate := fun oldProps newProps =>
    negb (strict_equal oldProps newProps);
  render := fun b => compile template (spread_props b) b
|}.
End Compile.

(** ** Vocabulary of the properties *)

(** The bus of the instance is the one the constructor wires. *)
Definition wired (b : Block) : Prop :=
  eventBus b = _registerEvents ∅.

(** The target of the props was allocated before the next free address. *)
Definition allocated (b : Block) : Prop :=
  addr (props b) < next_addr b.

(** The emissions of one event in a history. *)
Definition emissions (event : string) (log : list (string * list jsobj))
  : list (list jsobj) :=
  map snd (filter (fun e => fst e = event) log).

(** What one call leaves untouched when it only works on the rendered
    node and on the document. *)
Definition same_store (b b' : Block) : Prop :=
  _id b' = _id b /\ props b' = props b /\ children b' = children b /\
  eventBus b' = eventBus b /\ next_addr b' = next_addr b /\
  emitted b' = emitted b.

(** An element without what [_render] adds to it: its class list and its
    listeners. *)
Definition undecorated (n : node) : node :=
  match n with
  | Element tag attrs _ disp _ kids => Element tag attrs [] disp [] kids
  | TextNode d => TextNode d
  end.

(** The node at a path of a forest. *)
Fixpoint node_at (p : path) (nodes : list node) : option node :=
  match p with
  | [] => None
  | i :: q =>
      match nodes !! i with
      | Some n =>
          match q with
          | [] => Some n
          | _ :: _ => node_at q (childNodes_of n)
          end
      | None => None
      end
  end.

(** The update events [Object.assign] causes, one for each entry: the
    snapshot taken before the write, at a fresh address, and the target
    after it. *)
Fixpoint updates_of (next : nat) (target : jsobj) (es : entries)
  : list (list jsobj) :=
  match es with
  | [] => []
  | (key, v) :: es' =>
      let target' := mkObj (addr target) (<[key := v]> (fields target)) in
      [mkObj next (fields target); target'] :: updates_of (S next) target' es'
  end.

(** The props after [Object.assign]. *)
Definition assign (es : entries) (target : gmap string value)
  : gmap string value :=
  fold_left (fun t kv => <[fst kv := snd kv]> t) es target.

(** The hook's answer to one update event. *)
Definition asks_render {cls : BlockClass} (args : list jsobj) : bool :=
  componentDidUpdate (args !! 0) (args !! 1).

(** A method keeps a relation between the state it starts from and the
    state it leaves, however it ends. *)
Definition keeps (R : Block -> Block -> Prop) (m : method Block unit) : Prop :=
  forall b b', final_state (m b) = Some b' -> R b b'.

(** The rendered node is the same but for its class list and listeners. *)
Definition same_node (b b' : Block) : Prop :=
  undecorated <$> _element b' = undecorated <$> _element b.

(** What [_addEvents], [_removeEvents] and [_addClass] do to an instance:
    nothing but to the class list and the listeners of its node. *)
Definition decorated (b b' : Block) : Prop :=
  same_store b b' /\ same_node b b'.

(** The render hook returns a fragment on every instance that has the
    children of [b]. *)
Definition renders_for {cls : BlockClass} (b : Block) : Prop :=
  forall s, children s = children b ->
            exists fragment, render s = Value fragment.

(** The props hold neither listeners nor classes. *)
Definition plain_props (fs : gmap string value) : Prop :=
  fs !! "events" = None /\ fs !! "classes" = None.

(** Where the partition of the bag puts a value: under the props
    ([Some true]), under the children ([Some false]), or nowhere. *)
Definition routed_as (value : value) : option bool :=
  match value with
  | VBlock _ => Some false
  | VArr items => if existsb instanceof_Block items then Some false else None
  | _ => Some true
  end.

(** A child entry as [children] declares it: one component, or a sequence
    of components. *)
Inductive child : Type :=
| Single (r : BlockRef)
| Sequence (rs : list BlockRef).

Definition child_value (c : child) : value :=
  match c with
  | Single r => VBlock r
  | Sequence rs => VArr (VBlock <$> rs)
  end.

Definition child_entries (cs : list (string * child)) : entries :=
  (fun kc => (fst kc, child_value (snd kc))) <$> cs.

Definition components_of (c : child) : list BlockRef :=
  match c with
  | Single r => [r]
  | Sequence rs => rs
  end.

(** The components of all the entries, in the order of the loops. *)
Definition components (cs : list (string * child)) : list BlockRef :=
  concat ((fun kc => components_of (snd kc)) <$> cs).

(** The placeholders of a sequence of components, one after the other. *)
Fixpoint stubs_of (refs : list BlockRef) : string :=
  match refs with
  | [] => ""
  | r :: refs' => stub_markup (VStr (ref_id r)) +:+ stubs_of refs'
  end.

(** What the first stub of a sequence is appended to: the string of the
    value read under the key, own or inherited, when that value is
    truthy. *)
Definition kept_prefix (name : string) (ctx : gmap string value) : string :=
  if truthy (ctx_get name ctx) then ToString (ctx_get name ctx) else "".

(** The context after the stubs of one entry are added. *)
Definition with_stubs (ctx : gmap string value) (entry : string * child)
  : gmap string value :=
  match snd entry with
  | Single r => ctx_store (fst entry) (stub_markup (VStr (ref_id r))) ctx
  | Sequence [] => ctx
  | Sequence (r :: rs) =>
      ctx_store (fst entry)
        (kept_prefix (fst entry) ctx +:+ stubs_of (r :: rs)) ctx
  end.

(** The fragment after the stub of one component is looked up and, when
    found, replaced. *)
Definition substituted (content : DocumentFragment) (r : BlockRef)
  : DocumentFragment :=
  match querySelector (ref_id r) content with
  | Some stub => replaceWith stub (node_or_text (ref_content r)) content
  | None => content
  end.

(** The entries of a bag that the partition puts under the children, and
    those it puts under the props. *)
Definition goes_to_children (entry : string * value) : bool :=
  match routed_as (snd entry) with Some false => true | _ => false end.

Definition goes_to_props (entry : string * value) : bool :=
  match routed_as (snd entry) with Some true => true | _ => false end.

(** The replacements made in the document are the same. *)
Definition same_document (b b' : Block) : Prop :=
  document_ops b' = document_ops b.

(** The class list after [classList.add] of each token in turn. *)
Definition add_tokens (tokens cls : list string) : list string :=
  fold_left (fun cls t => if string_in t cls then cls else cls ++ [t])
    tokens cls.

(** A token [classList.add] accepts. *)
Definition valid_token (t : string) : Prop :=
  t <> "" /\ has_whitespace t = false.

(** The listeners of a node. *)
Definition listeners_of (n : node) : list (string * func) :=
  match n with
  | Element _ _ _ _ ls _ => ls
  | TextNode _ => []
  end.

(** The listeners an [events] object describes: its keys that hold a
    function. *)
Definition handlers_of (evs : entries) : list (string * func) :=
  omap (fun e => match snd e with
                 | VFun f => Some (fst e, f)
                 | _ => None
                 end) evs.

(** Every value of an [events] object is a function, [null] or
    [undefined]. *)
Definition listens (evs : entries) : Prop :=
  Forall (fun e => exists o, as_listener (snd e) = Value o) evs.

Definition add_listeners (hs ls : list (string * func))
  : list (string * func) :=
  fold_left
    (fun ls h => if existsb (listener_eqb h) ls then ls else ls ++ [h]) hs ls.

Definition remove_listeners (hs ls : list (string * func))
  : list (string * func) :=
  fold_left (fun ls h => filter (fun l => listener_eqb h l = false) ls) hs ls.


(** The events the writes of [Object.assign] record, in order: for each
    entry the update event, with the snapshot taken before the write and
    the target after it, and then the render event when the hook asks for
    it. *)
Fixpoint trace_of {cls : BlockClass} (next : nat) (target : jsobj)
    (es : entries) : list (string * list jsobj) :=
  match es with
  | [] => []
  | (key, v) :: es' =>
      let target' := mkObj (addr target) (<[key := v]> (fields target)) in
      let args := [mkObj next (fields target); target'] in
      (EVENTS_FLOW_CDU, args)
      :: (if asks_render args then [(EVENTS_FLOW_RENDER, [])] else [])
      ++ trace_of (S next) target' es'
  end.

(** The listeners the props ask for: the keys of [events] that hold a
    function. *)
Definition listeners_of_props (b : Block) : list (string * func) :=
  match own_entries (props_events b) with
  | Value evs => handlers_of evs
  | _ => []
  end.

(** The class tokens the props ask for. *)
Definition tokens_of_props (b : Block) : list string :=
  if truthy (props_classes b) then
    match classes_split (props_classes b) with
    | Value arr => arr
    | _ => []
    end
  else [].

Definition put_listeners (hs : list (string * func)) (n : node) : node :=
  match n with
  | Element tag attrs cls disp ls kids =>
      Element tag attrs cls disp (add_listeners hs ls) kids
  | TextNode d => TextNode d
  end.

Definition put_classes (tokens : list string) (n : node) : node :=
  match n with
  | Element tag attrs cls disp ls kids =>
      Element tag attrs (add_tokens tokens cls) disp ls kids
  | TextNode d => TextNode d
  end.

(** A node with the listeners and the classes of the props put on it:
    each listener registered unless it is already, each token added to
    the class list unless it is in it. *)
Definition dressed (b : Block) (n : node) : node :=
  put_classes (tokens_of_props b) (put_listeners (listeners_of_props b) n).

(** An element without its listeners and without the nodes below it. *)
Definition shell (n : node) : node :=
  match n with
  | Element tag attrs cls disp _ _ => Element tag attrs cls disp [] []
  | TextNode d => TextNode d
  end.

(** The nodes of the components are apart: none stands below another, so
    that the move of one into the fragment takes nothing out of
    another. *)
Definition apart (rs : list BlockRef) : Prop :=
  forall r r' n n',
    r ∈ rs -> r' ∈ rs ->
    ref_content r = Some n -> ref_content r' = Some n' -> ~ below n n'.

(** A method that needs no fuel: it never ends for want of it. *)
Definition bounded (m : method Block unit) : Prop :=
  forall s, m s <> OutOfFuel.

(** The root is the same but for its listeners and the nodes below. *)
Definition same_shell (b b' : Block) : Prop :=
  shell <$> _element b' = shell <$> _element b.

(** ** Fixtures of the examples *)

(** A parser that knows the markup of the examples and returns an empty
    fragment for any other. *)
Definition table_parser (table : list (string * DocumentFragment))
    (html : string) : DocumentFragment :=
  default []
    (snd <$> List.find (fun entry => String.eqb (fst entry) html) table).

(** [<button>label</button>] *)
Definition button_node (label : string) : node :=
  Element "button" [] [] None [] [TextNode label].

(** The template of the button of the examples:
    [<button>{label}</button>]. *)
Definition button_template (ctx : gmap string value) : string :=
  "<button>" +:+ ToString (ctx_get "label" ctx) +:+ "</button>".

Definition button_parser : string -> DocumentFragment :=
  table_parser
    [("<button>Save</button>", [button_node "Save"]);
     ("<button>Saved</button>", [button_node "Saved"])].

(** [Button] with that template. *)
Definition SaveButton : BlockClass := Button button_parser button_template.

(** The label an argument of the comparison hook holds. *)
Definition label_of (o : option jsobj) : string :=
  match o with
  | Some o => ToString (ctx_get "label" (fields o))
  | None => "undefined"
  end.

(** A button whose comparison hook judges the props different when the
    label changed: [return oldProps.label !== newProps.label]. *)
Definition LabelButton : BlockClass := {|
  init := ret tt;
  componentDidMount := ret tt;
  componentDidUpdate := fun oldProps newProps =>
    negb (String.eqb (label_of oldProps) (label_of newProps));
  render := fun b => compile button_parser button_template (spread_props b) b
|}.

(** A component whose render hook returns two root elements. *)
Definition TwoRoots : BlockClass := {|
  init := ret tt;
  componentDidMount := ret tt;
  componentDidUpdate := fun oldProps newProps =>
    negb (strict_equal oldProps newProps);
  render := fun _ => Value [button_node "Save"; button_node "Saved"]
|}.

(** An instance as the constructor leaves it when nothing was rendered. *)
Definition blank (id : string) (fs : gmap string value) (cs : entries)
  : Block :=
  {| _id := id;
     props := mkObj 0 fs;
     children := cs;
     _element := None;
     eventBus := _registerEvents ∅;
     next_addr := 1;
     emitted := [];
     document_ops := [] |}.

(** The state a call leaves, or the state it started from when it leaves
    none. *)
Definition state_after (o : outcome Block unit) (b : Block) : Block :=
  default b (final_state o).

(** A rendered leaf component, seen from its parent. *)
Definition leaf (id text : string) : BlockRef :=
  mkBlockRef id (Some (Element "li" [] [] None [] [TextNode text])).

(** The parsed stub of a component. *)
Definition stub_node (id : string) : node :=
  Element "div" [("data-id", id)] [] None [] [].

(** A template that prints the slot [item] twice. *)
Definition twice_item (ctx : gmap string value) : string :=
  ToString (ctx_get "item" ctx) +:+ ToString (ctx_get "item" ctx).

(** A template that prints the slot [item] inside a list. *)
Definition list_of_items (ctx : gmap string value) : string :=
  "<ul>" +:+ ToString (ctx_get "item" ctx) +:+ "</ul>".

(** The parser of the two templates above, for the components [a1], [a2]
    and [a3]. *)
Definition items_parser : string -> DocumentFragment :=
  table_parser
    [("x<div data-id='a1'></div>x<div data-id='a1'></div>",
      [TextNode "x"; stub_node "a1"; TextNode "x"; stub_node "a1"]);
     ("<ul><div data-id='a1'></div><div data-id='a2'></div>"
      +:+ "<div data-id='a3'></div></ul>",
      [Element "ul" [] [] None []
         [stub_node "a1"; stub_node "a2"; stub_node "a3"]])].

(** The instance a constructor call leaves. *)
Definition constructed {cls : BlockClass} (id : string) (bag : entries)
  : Block :=
  state_after (new_Block 2 id bag) (blank id ∅ []).

(** A save button after its construction. *)
Definition save_button : Block :=
  constructed (cls := LabelButton) "btn001" [("label", VStr "Save")].

(** The save button after [setProps] with the label it has. *)
Definition same_label : value := VObj [("label", VStr "Save")].

Definition resaved_button : Block :=
  state_after (setProps (cls := LabelButton) 2 same_label save_button)
    save_button.

(** A partial of two keys, and the save button after [setProps] with it. *)
Definition label_and_url : value :=
  VObj [("label", VStr "Saved"); ("url", VStr "#")].

Definition relabelled_button : Block :=
  state_after (setProps (cls := LabelButton) 2 label_and_url save_button)
    save_button.


(** The save button after [setProps] with another label. *)
Definition new_label : value := VObj [("label", VStr "Saved")].

Definition saved_button : Block :=
  state_after (setProps (cls := LabelButton) 2 new_label save_button)
    save_button.

(** A [Button] built from a label and a url, and the same after
    [setProps] with another label. *)
Definition plain_button : Block :=
  constructed (cls := SaveButton) "btn002"
    [("label", VStr "Save"); ("url", VStr "#")].

Definition plain_button_saved : Block :=
  state_after (setProps (cls := SaveButton) 2 new_label plain_button)
    plain_button.

(** The save button after the mounted signal. *)
Definition mounted_button : Block :=
  state_after (dispatchComponentDidMount (cls := LabelButton) 2 save_button)
    save_button.

(** An instance of [Block] with the methods [Block] defines, after its
    construction and after one more render event. *)
Definition base_block : Block := constructed (cls := Block_base) "blk001" [].

Definition base_block_rendered : Block :=
  state_after (emit (cls := Block_base) 1 EVENTS_FLOW_RENDER [] base_block)
    base_block.

(** The same for the component of two roots. *)
Definition two_roots : Block := constructed (cls := TwoRoots) "two001" [].

Definition two_roots_rendered : Block :=
  state_after (emit (cls := TwoRoots) 1 EVENTS_FLOW_RENDER [] two_roots)
    two_roots.

(** A parent of one sequence of one leaf, whose props hold a string under
    the key of the sequence; the context and the fragment [compile] makes
    of it with the template that prints the slot twice. *)
Definition crowded_parent : Block :=
  blank "par001" {["item" := VStr "x"]}
    [("item", VArr [VBlock (leaf "a1" "one")])].

Definition crowded_context : gmap string value :=
  {["item" := VStr "x<div data-id='a1'></div>"]}.

Definition crowded_content : DocumentFragment :=
  [TextNode "x"; Element "li" [] [] None [] [TextNode "one"];
   TextNode "x"; stub_node "a1"].

(** The three leaves of a list, their parent, and the fragment [compile]
    makes of them with the template of the list. *)
Definition three_leaves : list (string * child) :=
  [("item", Sequence [leaf "a1" "one"; leaf "a2" "two"; leaf "a3" "three"])].

Definition list_parent : Block :=
  blank "par002" ∅ (child_entries three_leaves).

Definition composed_list : DocumentFragment :=
  [Element "ul" [] [] None []
     [Element "li" [] [] None [] [TextNode "one"];
      Element "li" [] [] None [] [TextNode "two"];
      Element "li" [] [] None [] [TextNode "three"]]].

(** A bag of a label, a component, an array without component and a
    sequence of two components; the children it declares and the instance
    the constructor starts from. *)
Definition mixed_bag : entries :=
  [("label", VStr "Save");
   ("icon", VBlock (leaf "a1" "one"));
   ("tags", VArr [VStr "x"]);
   ("items", VArr [VBlock (leaf "a2" "two"); VBlock (leaf "a3" "three")])].

Definition mixed_children : list (string * child) :=
  [("icon", Single (leaf "a1" "one"));
   ("items", Sequence [leaf "a2" "two"; leaf "a3" "three"])].

Definition mixed_parent : Block :=
  blank "par003" (fst (_getChildrenAndProps mixed_bag))
    (snd (_getChildrenAndProps mixed_bag)).

(** A bag of two strings and an array of strings. *)
Definition optioned_bag : entries :=
  [("label", VStr "Save"); ("options", VArr [VStr "a"; VStr "b"]);
   ("url", VStr "#")].


(** The save button after one more render event. *)
Definition save_button_rendered : Block :=
  state_after (emit (cls := LabelButton) 1 EVENTS_FLOW_RENDER [] save_button)
    save_button.

(** A partial whose second key holds a class string that starts with a
    space; the plain button after the write of the first key and after the
    write of the second. *)
Definition bad_classes : value :=
  VObj [("label", VStr "Saved"); ("classes", VStr " x"); ("url", VStr "/")].

Definition plain_button_written : Block :=
  state_after
    (proxy_set (cls := SaveButton) 2 "label" (VStr "Saved") plain_button)
    plain_button.

Definition plain_button_broken : Block :=
  state_after
    (proxy_set (cls := SaveButton) 2 "classes" (VStr " x")
       plain_button_written)
    plain_button_written.

(** The plain button in the middle of the write of a label the parser does
    not know: the props are written and the update event is recorded, the
    render event is still to come. *)
Definition unknown_label_written : Block :=
  let target' :=
    mkObj (addr (props plain_button))
      (<["label" := VStr "Other"]> (fields (props plain_button))) in
  record_emit EVENTS_FLOW_CDU
    [mkObj (next_addr plain_button) (fields (props plain_button)); target']
    (set_props target' (set_next_addr (S (next_addr plain_button))
                          plain_button)).

(** A button whose props hold [events: null], before its first render. *)
Definition null_events_blank : Block :=
  blank "btn003" {["label" := VStr "Save"; "events" := VNull]} [].

(** A button with a click handler, and one with classes, each with its new
    node stored and nothing put on it yet. *)
Definition click_events : entries :=
  [("click", VFun (Fn "onClick")); ("blur", VNull)].

Definition clickable_button : Block :=
  set_element (Some (button_node "Save"))
    (blank "btn004" {["label" := VStr "Save"; "events" := VObj click_events]}
       []).

Definition classy_button : Block :=
  set_element
    (Some (Element "button" [] ["btn"] None [] [TextNode "Save"]))
    (blank "btn005"
       {["label" := VStr "Save"; "classes" := VStr "primary btn large"]} []).

Definition spaced_button : Block :=
  set_element (Some (button_node "Save"))
    (blank "btn006" {["label" := VStr "Save"; "classes" := VStr "a  b"]} []).

(** An instance of [Block] itself with classes, before its first render. *)
Definition classy_base : Block :=
  blank "blk002" {["classes" := VStr "primary"]} [].

(** A button whose props hold a click handler and a class, before its
    first render and after it. *)
Definition dressed_blank : Block :=
  blank "btn007"
    {["label" := VStr "Save"; "events" := VObj click_events;
      "classes" := VStr "primary"]} [].

Definition dressed_button : Block :=
  state_after (emit (cls := SaveButton) 1 EVENTS_FLOW_RENDER [] dressed_blank)
    dressed_blank.

(** * Properties *)

(** ** The method monad and the wiring of the bus *)

Lemma bind_ret_tt {S} (m : method S unit) (s : S) :
  bind m (fun _ => ret tt) s = m s.
Proof. unfold bind, ret. destruct (m s) as [[] s'|e s'| |]; reflexivity. Qed.

Lemma bind_Normal {A B} (m : method Block A) (k : A -> method Block B) b r b' :
  bind m k b = Normal r b' ->
  exists a b1, m b = Normal a b1 /\ k a b1 = Normal r b'.
Proof.
  unfold bind. destruct (m b) as [a b1|e b1| |]; try discriminate.
  intros H. exists a, b1. split; [reflexivity|exact H].
Qed.

Lemma wired_render b :
  wired b -> eventBus b !! EVENTS_FLOW_RENDER = Some [L_render].
Proof. intros ->. reflexivity. Qed.

Lemma wired_cdu b :
  wired b -> eventBus b !! EVENTS_FLOW_CDU = Some [L_componentDidUpdate].
Proof. intros ->. reflexivity. Qed.

Lemma wired_cdm b :
  wired b -> eventBus b !! EVENTS_FLOW_CDM = Some [L_componentDidMount].
Proof. intros ->. reflexivity. Qed.

Lemma wired_init b : wired b -> eventBus b !! EVENTS_INIT = Some [L_init].
Proof. intros ->. reflexivity. Qed.

Lemma emissions_app ev l1 l2 :
  emissions ev (l1 ++ l2) = emissions ev l1 ++ emissions ev l2.
Proof. unfold emissions. rewrite filter_app, map_app. reflexivity. Qed.

Lemma emissions_one_eq ev args : emissions ev [(ev, args)] = [args].
Proof.
  unfold emissions. rewrite filter_cons_True by reflexivity. reflexivity.
Qed.

Lemma emissions_one_ne ev ev' args :
  ev' <> ev -> emissions ev [(ev', args)] = [].
Proof.
  intros H. unfold emissions.
  rewrite filter_cons_False by (simpl; congruence). reflexivity.
Qed.

Lemma emissions_update_step a (h : bool) :
  emissions EVENTS_FLOW_CDU
    ((EVENTS_FLOW_CDU, a) :: (if h then [(EVENTS_FLOW_RENDER, [])] else []))
  = [a].
Proof. destruct h; reflexivity. Qed.

Lemma emissions_render_step a (h : bool) :
  emissions EVENTS_FLOW_RENDER
    ((EVENTS_FLOW_CDU, a) :: (if h then [(EVENTS_FLOW_RENDER, [])] else []))
  = if h then [[]] else [].
Proof. destruct h; reflexivity. Qed.

Lemma set_element_same e b : _element b = e -> set_element e b = b.
Proof. intros <-. destruct b. reflexivity. Qed.

(** ** What the work on the rendered node leaves alone *)

Lemma same_store_refl b : same_store b b.
Proof. repeat split. Qed.

Lemma same_store_trans b1 b2 b3 :
  same_store b1 b2 -> same_store b2 b3 -> same_store b1 b3.
Proof.
  unfold same_store. intros (?&?&?&?&?&?) (?&?&?&?&?&?).
  repeat split; congruence.
Qed.

Lemma same_store_set_element e b : same_store b (set_element e b).
Proof. repeat split. Qed.

Lemma same_store_record_dom op b : same_store b (record_dom op b).
Proof. repeat split. Qed.

Lemma same_node_refl b : same_node b b.
Proof. reflexivity. Qed.

Lemma same_node_trans a b c : same_node a b -> same_node b c -> same_node a c.
Proof. unfold same_node. congruence. Qed.

Section Keeps.
Variable R : Block -> Block -> Prop.
Hypothesis R_refl : forall b, R b b.
Hypothesis R_trans : forall a b c, R a b -> R b c -> R a c.

Lemma keeps_ret : keeps R (ret tt).
Proof. intros b b' [= <-]. apply R_refl. Qed.

Lemma keeps_bind (m : method Block unit) (k : unit -> method Block unit) :
  keeps R m -> (forall u, keeps R (k u)) -> keeps R (bind m k).
Proof.
  intros Hm Hk b b'. unfold bind.
  destruct (m b) as [u s|e s| |] eqn:E; simpl; try discriminate.
  - intros H. eapply R_trans; [apply Hm; rewrite E; reflexivity|].
    eapply (Hk u), H.
  - intros [= <-]. apply Hm. rewrite E. reflexivity.
Qed.

Lemma keeps_forEach {A} (f : A -> method Block unit) (l : list A) :
  (forall x, keeps R (f x)) -> keeps R (forEach f l).
Proof.
  intros Hf. induction l as [|x l IH]; cbn [forEach].
  - apply keeps_ret.
  - apply keeps_bind; [apply Hf|intros _; exact IH].
Qed.
End Keeps.

Lemma decorated_refl b : decorated b b.
Proof. split; [apply same_store_refl|apply same_node_refl]. Qed.

Lemma decorated_trans a b c : decorated a b -> decorated b c -> decorated a c.
Proof.
  intros [S1 N1] [S2 N2].
  split; [eapply same_store_trans|eapply same_node_trans]; eassumption.
Qed.

Lemma decorated_set_element el el' b :
  _element b = Some el -> undecorated el' = undecorated el ->
  decorated b (set_element (Some el') b).
Proof.
  intros E U. split; [apply same_store_set_element|].
  unfold same_node. cbn [set_element _element]. rewrite E. cbn. f_equal.
  exact U.
Qed.

Lemma undecorated_addEventListener type cb el el' :
  addEventListener type cb el = Value el' -> undecorated el' = undecorated el.
Proof.
  unfold addEventListener.
  destruct (as_listener cb) as [[f|]| |]; try discriminate.
  - destruct el; intros [= <-]; reflexivity.
  - intros [= <-]. reflexivity.
Qed.

Lemma undecorated_removeEventListener type cb el el' :
  removeEventListener type cb el = Value el' ->
  undecorated el' = undecorated el.
Proof.
  unfold removeEventListener.
  destruct (as_listener cb) as [[f|]| |]; try discriminate.
  - destruct el; intros [= <-]; reflexivity.
  - intros [= <-]. reflexivity.
Qed.

Lemma undecorated_classList_add token el el' :
  classList_add token el = Value el' -> undecorated el' = undecorated el.
Proof.
  unfold classList_add.
  destruct (String.eqb token ""); [discriminate|].
  destruct (has_whitespace token); [discriminate|].
  destruct el; intros [= <-]; reflexivity.
Qed.

(** One step of a loop over listeners or classes: on a rendered node the
    DOM call either fails or returns the node with the same tag,
    attributes and children. *)
Ltac decorates_step lem :=
  let s := fresh "s" in
  let s' := fresh "s'" in
  let el := fresh "el" in
  let Es := fresh "Es" in
  let Ea := fresh "Ea" in
  intros s s';
  destruct (_element s) as [el|] eqn:Es; simpl;
  [ match goal with
    | |- context [match ?call with _ => _ end] =>
        destruct call eqn:Ea; simpl; try discriminate;
        intros [= <-];
        [ apply (decorated_set_element el); [exact Es|];
          eapply lem, Ea
        | apply decorated_refl ]
    end
  | intros [= <-]; apply decorated_refl ].

Lemma addEvents_decorates : keeps decorated _addEvents.
Proof.
  intros b b'. unfold _addEvents.
  destruct (own_entries (props_events b)) as [evs|e|]; simpl;
    try discriminate.
  - apply keeps_forEach; [apply decorated_refl|apply decorated_trans|].
    intros [name cb]. decorates_step undecorated_addEventListener.
  - intros [= <-]. apply decorated_refl.
Qed.

Lemma removeEvents_decorates : keeps decorated _removeEvents.
Proof.
  intros b b'. unfold _removeEvents.
  destruct (own_entries (props_events b)) as [evs|e|]; simpl;
    try discriminate.
  - apply keeps_forEach; [apply decorated_refl|apply decorated_trans|].
    intros [name cb]. decorates_step undecorated_removeEventListener.
  - intros [= <-]. apply decorated_refl.
Qed.

Lemma addClass_decorates : keeps decorated _addClass.
Proof.
  intros b b'. unfold _addClass.
  destruct (negb (truthy (props_classes b))); simpl.
  { intros [= <-]. apply decorated_refl. }
  destruct (classes_split (props_classes b)) as [arr|e|]; simpl;
    try discriminate.
  - apply keeps_forEach; [apply decorated_refl|apply decorated_trans|].
    intros name. decorates_step undecorated_classList_add.
  - intros [= <-]. apply decorated_refl.
Qed.

Lemma keeps_weaken (R R' : Block -> Block -> Prop) m :
  (forall b b', R b b' -> R' b b') -> keeps R m -> keeps R' m.
Proof. intros H K b b' F. apply H, K, F. Qed.

Lemma addEvents_without_events b :
  fields (props b) !! "events" = None -> _addEvents b = Normal tt b.
Proof.
  intros H. unfold _addEvents, props_events, proxy_get. rewrite H.
  reflexivity.
Qed.

Lemma removeEvents_without_events b :
  fields (props b) !! "events" = None -> _removeEvents b = Normal tt b.
Proof.
  intros H. unfold _removeEvents, props_events, proxy_get. rewrite H.
  reflexivity.
Qed.

Lemma addClass_without_classes b :
  fields (props b) !! "classes" = None -> _addClass b = Normal tt b.
Proof.
  intros H. unfold _addClass, props_classes, proxy_get. rewrite H.
  reflexivity.
Qed.

(** ** What the work on the rendered node puts on it *)

Lemma put_listeners_nil n : put_listeners [] n = n.
Proof. destruct n; reflexivity. Qed.

Lemma put_classes_nil n : put_classes [] n = n.
Proof. destruct n; reflexivity. Qed.

Lemma option_fmap_same {A} (f : A -> A) (o : option A) :
  (forall a, f a = a) -> f <$> o = o.
Proof. intros H. destruct o as [a|]; [cbn; rewrite H|]; reflexivity. Qed.

(** The loop of [_addEvents], when it returns. *)
Lemma addEvents_steps evs : forall s s',
  forEach
    (fun '(eventName, callback) b' =>
       match _element b' with
       | None => Normal tt b'
       | Some el =>
           match addEventListener eventName callback el with
           | Value el' => Normal tt (set_element (Some el') b')
           | Raise e => Throw e b'
           | NoModel => Unmodelled
           end
       end) evs s = Normal tt s' ->
  s' = set_element (put_listeners (handlers_of evs) <$> _element s) s.
Proof.
  induction evs as [|[name cb] evs IH]; intros s s' H.
  - injection H as <-. symmetry. apply set_element_same.
    symmetry. apply option_fmap_same, put_listeners_nil.
  - cbn [forEach] in H. apply bind_Normal in H.
    destruct H as ([] & s1 & H1 & H2). apply IH in H2. subst s'.
    destruct (_element s) as [el|] eqn:E.
    + unfold addEventListener in H1.
      destruct cb; cbn [as_listener] in H1; try discriminate;
        cbn [handlers_of omap list_omap snd fst];
        try (injection H1 as <-; reflexivity).
      destruct el; injection H1 as <-; reflexivity.
    + injection H1 as <-. rewrite E. reflexivity.
Qed.

Lemma addEvents_result s s' :
  _addEvents s = Normal tt s' ->
  s' = set_element (put_listeners (listeners_of_props s) <$> _element s) s.
Proof.
  unfold _addEvents, listeners_of_props.
  destruct (own_entries (props_events s)) as [evs|e|]; try discriminate.
  apply addEvents_steps.
Qed.

(** The loop of [_addClass], when it returns. *)
Lemma addClass_steps tokens : forall s s',
  forEach
    (fun className b' =>
       match _element b' with
       | None => Throw TypeError b'
       | Some el =>
           match classList_add className el with
           | Value el' => Normal tt (set_element (Some el') b')
           | Raise e => Throw e b'
           | NoModel => Unmodelled
           end
       end) tokens s = Normal tt s' ->
  s' = set_element (put_classes tokens <$> _element s) s.
Proof.
  induction tokens as [|t tokens IH]; intros s s' H.
  - injection H as <-. symmetry. apply set_element_same.
    symmetry. apply option_fmap_same, put_classes_nil.
  - cbn [forEach] in H. apply bind_Normal in H.
    destruct H as ([] & s1 & H1 & H2). apply IH in H2. subst s'.
    destruct (_element s) as [el|] eqn:E; [|discriminate].
    unfold classList_add in H1.
    destruct (String.eqb t ""); [discriminate|].
    destruct (has_whitespace t); [discriminate|].
    destruct el; injection H1 as <-; reflexivity.
Qed.

Lemma addClass_result s s' :
  _addClass s = Normal tt s' ->
  s' = set_element (put_classes (tokens_of_props s) <$> _element s) s.
Proof.
  unfold _addClass, tokens_of_props.
  destruct (truthy (props_classes s)); cbn [negb].
  - destruct (classes_split (props_classes s)) as [arr|e|]; try discriminate.
    apply addClass_steps.
  - intros [= <-]. symmetry. apply set_element_same.
    symmetry. apply option_fmap_same, put_classes_nil.
Qed.

Lemma listeners_of_props_same s s' :
  props s' = props s -> listeners_of_props s' = listeners_of_props s.
Proof.
  intros H. unfold listeners_of_props, props_events, proxy_get.
  rewrite H. reflexivity.
Qed.

Lemma tokens_of_props_same s s' :
  props s' = props s -> tokens_of_props s' = tokens_of_props s.
Proof.
  intros H. unfold tokens_of_props, props_classes, proxy_get.
  rewrite H. reflexivity.
Qed.

(** When the loops return. *)
Lemma addEvents_listens evs : forall s,
  listens evs ->
  exists s',
    forEach
      (fun '(eventName, callback) b' =>
         match _element b' with
         | None => Normal tt b'
         | Some el =>
             match addEventListener eventName callback el with
             | Value el' => Normal tt (set_element (Some el') b')
             | Raise e => Throw e b'
             | NoModel => Unmodelled
             end
         end) evs s = Normal tt s'.
Proof.
  induction evs as [|[name cb] evs IH]; intros s F; [eexists; reflexivity|].
  apply Forall_cons in F. destruct F as [[o Ho] F]. cbn [snd] in Ho.
  cbn [forEach]. unfold bind.
  destruct (_element s) as [el|]; [|apply IH, F].
  unfold addEventListener. rewrite Ho.
  destruct o as [f|]; [destruct el|]; apply IH, F.
Qed.

Lemma removeEvents_listens evs : forall s el,
  _element s = Some el ->
  listens evs ->
  exists el',
    forEach
      (fun '(eventName, callback) b' =>
         match _element b' with
         | None => Throw TypeError b'
         | Some el =>
             match removeEventListener eventName callback el with
             | Value el' => Normal tt (set_element (Some el') b')
             | Raise e => Throw e b'
             | NoModel => Unmodelled
             end
         end) evs s = Normal tt (set_element (Some el') s).
Proof.
  induction evs as [|[name cb] evs IH]; intros s el E F.
  - exists el. cbn. rewrite set_element_same by exact E. reflexivity.
  - apply Forall_cons in F. destruct F as [[o Ho] F]. cbn [snd] in Ho.
    cbn [forEach]. unfold bind. rewrite E.
    unfold removeEventListener. rewrite Ho.
    destruct o as [f|]; [destruct el|]; cbv beta iota;
      match goal with
      | |- context [forEach _ evs (set_element (Some ?x) s)] =>
          destruct (IH (set_element (Some x) s) x eq_refl F) as [el' H];
          exists el'; exact H
      end.
Qed.

Lemma addClass_valid_tokens tokens : forall s el,
  _element s = Some el ->
  Forall valid_token tokens ->
  exists s',
    forEach
      (fun className b' =>
         match _element b' with
         | None => Throw TypeError b'
         | Some el =>
             match classList_add className el with
             | Value el' => Normal tt (set_element (Some el') b')
             | Raise e => Throw e b'
             | NoModel => Unmodelled
             end
         end) tokens s = Normal tt s'.
Proof.
  induction tokens as [|t tokens IH]; intros s el E F; [eexists; reflexivity|].
  apply Forall_cons in F. destruct F as [[N W] F].
  cbn [forEach]. unfold bind. rewrite E. unfold classList_add.
  destruct (String.eqb_spec t ""); [congruence|]. rewrite W.
  destruct el; eapply IH; try exact F; reflexivity.
Qed.

(** ** The work on the rendered node needs no fuel *)

Lemma bounded_bind (m : method Block unit) (k : unit -> method Block unit) :
  bounded m -> (forall u, bounded (k u)) -> bounded (bind m k).
Proof.
  intros Hm Hk s. unfold bind.
  destruct (m s) as [u s1|e s1| |] eqn:E; try discriminate.
  - apply Hk.
  - exfalso. exact (Hm s E).
Qed.

Lemma bounded_forEach {A} (f : A -> method Block unit) (l : list A) :
  (forall x, bounded (f x)) -> bounded (forEach f l).
Proof.
  intros Hf. induction l as [|x l IH]; cbn [forEach].
  - intros s. discriminate.
  - apply bounded_bind; [apply Hf|intros _; exact IH].
Qed.

Lemma addEvents_bounded : bounded _addEvents.
Proof.
  intros s. unfold _addEvents.
  destruct (own_entries (props_events s)) as [evs|e|]; try discriminate.
  apply bounded_forEach. intros [name cb] s1.
  destruct (_element s1) as [el|]; [|discriminate].
  destruct (addEventListener name cb el); discriminate.
Qed.

Lemma removeEvents_bounded : bounded _removeEvents.
Proof.
  intros s. unfold _removeEvents.
  destruct (own_entries (props_events s)) as [evs|e|]; try discriminate.
  apply bounded_forEach. intros [name cb] s1.
  destruct (_element s1) as [el|]; [|discriminate].
  destruct (removeEventListener name cb el); discriminate.
Qed.

Lemma addClass_bounded : bounded _addClass.
Proof.
  intros s. unfold _addClass.
  destruct (negb (truthy (props_classes s))); [discriminate|].
  destruct (classes_split (props_classes s)) as [arr|e|]; try discriminate.
  apply bounded_forEach. intros name s1.
  destruct (_element s1) as [el|]; [|discriminate].
  destruct (classList_add name el); discriminate.
Qed.

(** ** The lifecycle *)

Section LifecycleProperties.
Context {cls : BlockClass}.

Lemma render_bounded : bounded _render.
Proof.
  intros s. unfold _render.
  destruct (render s) as [fragment|e|]; try discriminate.
  apply bounded_bind.
  - destruct (_element s).
    + apply bounded_bind; [apply removeEvents_bounded|].
      intros _ s1. destruct (_element s1); discriminate.
    + intros s1. discriminate.
  - intros _. apply bounded_bind; [intros s1; discriminate|].
    intros _. apply bounded_bind; [apply addEvents_bounded|].
    intros _. apply addClass_bounded.
Qed.

(** [_render] works on the rendered node and on the document only. *)
Lemma render_keeps_store : keeps same_store _render.
Proof.
  intros b b'. unfold _render.
  destruct (render b) as [fragment|e|]; simpl; try discriminate.
  2:{ intros [= <-]. apply same_store_refl. }
  apply keeps_bind; [apply same_store_trans| |].
  - destruct (_element b).
    + apply keeps_bind; [apply same_store_trans| |].
      * eapply keeps_weaken; [|apply removeEvents_decorates].
        intros ? ? [H _]. exact H.
      * intros _ s s'. destruct (_element s); simpl; intros [= <-].
        -- apply same_store_record_dom.
        -- apply same_store_refl.
    + apply keeps_ret, same_store_refl.
  - intros _.
    apply keeps_bind; [apply same_store_trans| |].
    + intros s s' [= <-]. apply same_store_set_element.
    + intros _.
      apply keeps_bind; [apply same_store_trans| |].
      * eapply keeps_weaken; [|apply addEvents_decorates].
        intros ? ? [H _]. exact H.
      * intros _. eapply keeps_weaken; [|apply addClass_decorates].
        intros ? ? [H _]. exact H.
Qed.

(** On the bus the constructor wires, each event has one handler. *)
Lemma emit_render fuel args b :
  wired b ->
  emit (S fuel) EVENTS_FLOW_RENDER args b
  = _render (record_emit EVENTS_FLOW_RENDER args b).
Proof.
  intros W. simpl. rewrite (wired_render b W). simpl. apply bind_ret_tt.
Qed.

Lemma emit_cdu fuel args b :
  wired b ->
  emit (S fuel) EVENTS_FLOW_CDU args b
  = _componentDidUpdate (emit fuel) (args !! 0) (args !! 1)
      (record_emit EVENTS_FLOW_CDU args b).
Proof.
  intros W. simpl. rewrite (wired_cdu b W). simpl. apply bind_ret_tt.
Qed.

Lemma emit_cdm fuel args b :
  wired b ->
  emit (S fuel) EVENTS_FLOW_CDM args b
  = _componentDidMount (emit fuel) (record_emit EVENTS_FLOW_CDM args b).
Proof.
  intros W. simpl. rewrite (wired_cdm b W). simpl. apply bind_ret_tt.
Qed.

Lemma emit_init fuel args b :
  wired b ->
  emit (S fuel) EVENTS_INIT args b
  = _init (emit fuel) (record_emit EVENTS_INIT args b).
Proof.
  intros W. simpl. rewrite (wired_init b W). simpl. apply bind_ret_tt.
Qed.

(** An event no handler is registered for cannot be emitted. *)
Lemma emit_unknown fuel event args b :
  eventBus b !! event = None ->
  emit (S fuel) event args b = Throw (UnknownEvent event) b.
Proof. intros H. simpl. rewrite H. reflexivity. Qed.

(** The constructor of a class whose [init] is the inherited one returns
    an instance with the bus wired, the props and children of the
    partition, and one rendering behind it. *)
Lemma new_Block_constructs fuel id bag b :
  (forall s, init s = Normal tt s) ->
  final_state (new_Block (S (S fuel)) id bag) = Some b ->
  wired b /\ allocated b /\ _id b = id
  /\ fields (props b) = fst (_getChildrenAndProps bag)
  /\ children b = snd (_getChildrenAndProps bag)
  /\ emitted b = [(EVENTS_INIT, []); (EVENTS_FLOW_RENDER, [])].
Proof.
  intros Hinit. unfold new_Block.
  destruct (_getChildrenAndProps bag) as [ps cs].
  rewrite emit_init by reflexivity.
  unfold _init, _createResources, bind at 1, ret.
  unfold bind. rewrite Hinit. rewrite emit_render by reflexivity.
  intros H. apply render_keeps_store in H.
  destruct H as (Hi & Hp & Hc & Hb & Hn & He). cbn in *.
  unfold wired, allocated. rewrite Hb, Hp, Hn, Hi, Hc, He. cbn.
  repeat split. lia.
Qed.

(** What the write of one key leaves: the target with the key written,
    one more address used, and the history grown by the update event
    and, if the hook asked for it, by the render event. *)
Lemma proxy_set_final fuel prop v b b' :
  wired b ->
  final_state (proxy_set (S (S fuel)) prop v b) = Some b' ->
  let oldProps := mkObj (next_addr b) (fields (props b)) in
  let newProps :=
    mkObj (addr (props b)) (<[prop := v]> (fields (props b))) in
  props b' = newProps /\ next_addr b' = S (next_addr b) /\ wired b' /\
  emitted b' = emitted b ++ (EVENTS_FLOW_CDU, [oldProps; newProps])
               :: (if componentDidUpdate (Some oldProps) (Some newProps)
                   then [(EVENTS_FLOW_RENDER, [])] else []).
Proof.
  intros W. unfold proxy_set. rewrite emit_cdu by exact W.
  unfold _componentDidUpdate.
  cbn [lookup list_lookup set_props set_next_addr props addr fields
         next_addr].
  destruct (componentDidUpdate _ _).
  - rewrite emit_render by exact W. intros H.
    apply render_keeps_store in H. destruct H as (_&Hp&_&Hb&Hn&He).
    simpl in *. repeat split; try assumption.
    + unfold wired. rewrite Hb. exact W.
    + rewrite He. rewrite <- app_assoc. reflexivity.
  - simpl. intros [= <-]. simpl. repeat split. exact W.
Qed.

(** With neither listeners nor classes among the props, [_render] returns
    and the rendered node is the first element child of the fragment. *)
Lemma render_returns b fragment :
  render b = Value fragment ->
  plain_props (fields (props b)) ->
  exists b', _render b = Normal tt b' /\ same_store b b'
             /\ _element b' = firstElementChild fragment.
Proof.
  intros R [He Hc]. unfold _render. rewrite R.
  destruct (_element b) as [old|] eqn:Eo.
  - exists (set_element (firstElementChild fragment)
              (record_dom
                 (ReplaceWith old (node_or_text (firstElementChild fragment)))
                 b)).
    split; [|split; [repeat split|reflexivity]].
    unfold bind at 1. unfold bind at 1.
    rewrite removeEvents_without_events by exact He. rewrite Eo.
    unfold bind, modify.
    rewrite addEvents_without_events by exact He.
    rewrite addClass_without_classes by exact Hc. reflexivity.
  - exists (set_element (firstElementChild fragment) b).
    split; [|split; [repeat split|reflexivity]].
    unfold bind, ret, modify.
    rewrite addEvents_without_events by exact He.
    rewrite addClass_without_classes by exact Hc. reflexivity.
Qed.

Lemma plain_props_insert key v fs :
  key <> "events" -> key <> "classes" ->
  plain_props fs -> plain_props (<[key := v]> fs).
Proof.
  intros N1 N2 [He Hc]. split; rewrite lookup_insert_ne; assumption.
Qed.

Lemma proxy_set_returns fuel prop v b :
  wired b ->
  renders_for b ->
  prop <> "events" -> prop <> "classes" ->
  plain_props (fields (props b)) ->
  exists b', proxy_set (S (S fuel)) prop v b = Normal tt b'
             /\ wired b' /\ children b' = children b
             /\ plain_props (fields (props b')).
Proof.
  intros W R N1 N2 P. unfold proxy_set. rewrite emit_cdu by exact W.
  unfold _componentDidUpdate. cbn [lookup list_lookup].
  set (b1 := record_emit _ _ _).
  assert (P1 : plain_props (fields (props b1)))
    by (apply plain_props_insert; assumption).
  destruct (componentDidUpdate _ _).
  - rewrite emit_render by exact W.
    destruct (R (record_emit EVENTS_FLOW_RENDER [] b1) eq_refl)
      as [fragment Hf].
    destruct (render_returns _ fragment Hf P1) as (b' & Hb' & Hs & _).
    exists b'. split; [exact Hb'|]. destruct Hs as (_ & Hp & Hc & Hb & _).
    split; [unfold wired; rewrite Hb; exact W|].
    split; [rewrite Hc; reflexivity|]. rewrite Hp. exact P1.
  - exists b1. split; [reflexivity|]. split; [exact W|].
    split; [reflexivity|exact P1].
Qed.

Lemma assign_returns fuel es : forall b,
  wired b ->
  renders_for b ->
  "events" ∉ (fst <$> es) -> "classes" ∉ (fst <$> es) ->
  plain_props (fields (props b)) ->
  exists b',
    forEach (fun '(key, v) => proxy_set (S (S fuel)) key v) es b
    = Normal tt b'
    /\ wired b' /\ children b' = children b
    /\ plain_props (fields (props b')).
Proof.
  induction es as [|[key v] es IH]; intros b W R N1 N2 P.
  - exists b. split; [reflexivity|]. repeat split; try assumption; apply P.
  - rewrite fmap_cons, not_elem_of_cons in N1, N2. cbn [fst] in N1, N2.
    destruct N1 as [N1 N1'], N2 as [N2 N2'].
    assert (K1 : key <> "events") by congruence.
    assert (K2 : key <> "classes") by congruence.
    destruct (proxy_set_returns fuel key v b W R K1 K2 P)
      as (b1 & H1 & W1 & C1 & P1).
    assert (R1 : renders_for b1)
      by (intros s Hs; apply R; congruence).
    destruct (IH b1 W1 R1 N1' N2' P1) as (b' & H' & W' & C' & P').
    exists b'. split; [|split; [exact W'|split; [congruence|exact P']]].
    cbn [forEach]. unfold bind. rewrite H1. exact H'.
Qed.


(** C8. A call of [dispatchComponentDidMount] emits the mounted event,
    whose handler runs the on-mounted hook and then emits the render
    event whatever the hook did; when the hook returns, the call is one
    render pass on the state the hook left, and the history grows by one
    render event. *)
Theorem mount_renders_once fuel b :
  wired b ->
  dispatchComponentDidMount (S (S fuel)) b
  = bind componentDidMount (fun _ => emit (S fuel) EVENTS_FLOW_RENDER [])
      (record_emit EVENTS_FLOW_CDM [] b)
  /\ forall b1,
      componentDidMount (record_emit EVENTS_FLOW_CDM [] b) = Normal tt b1 ->
      wired b1 ->
      dispatchComponentDidMount (S (S fuel)) b
      = _render (record_emit EVENTS_FLOW_RENDER [] b1)
      /\ forall b',
          final_state (dispatchComponentDidMount (S (S fuel)) b) = Some b' ->
          emitted b' = emitted b1 ++ [(EVENTS_FLOW_RENDER, [])].
Proof.
  intros W. unfold dispatchComponentDidMount.
  rewrite emit_cdm by exact W. unfold _componentDidMount.
  split; [reflexivity|].
  intros b1 H1 W1.
  assert (E : bind componentDidMount
                (fun _ => emit (S fuel) EVENTS_FLOW_RENDER [])
                (record_emit EVENTS_FLOW_CDM [] b)
              = _render (record_emit EVENTS_FLOW_RENDER [] b1)).
  { unfold bind. rewrite H1. apply emit_render, W1. }
  rewrite E. split; [reflexivity|].
  intros b' H. apply render_keeps_store in H.
  destruct H as (_&_&_&_&_&He). exact He.
Qed.

(** What [Object.assign] leaves when every write returns. *)
Lemma assign_final fuel es : forall b b',
  wired b ->
  forEach (fun '(key, v) => proxy_set (S (S fuel)) key v) es b
  = Normal tt b' ->
  wired b' /\
  props b' = mkObj (addr (props b)) (assign es (fields (props b))) /\
  emissions EVENTS_FLOW_CDU (emitted b')
  = emissions EVENTS_FLOW_CDU (emitted b)
    ++ updates_of (next_addr b) (props b) es /\
  emissions EVENTS_FLOW_RENDER (emitted b')
  = emissions EVENTS_FLOW_RENDER (emitted b)
    ++ map (fun _ => [])
         (filter (fun a => asks_render a = true)
            (updates_of (next_addr b) (props b) es)).
Proof.
  induction es as [|[key v] es IH]; intros b b' W H.
  - simpl in H. injection H as <-. simpl. rewrite !app_nil_r.
    destruct (props b). repeat split. exact W.
  - simpl in H. apply bind_Normal in H. destruct H as ([] & b1 & H1 & H2).
    assert (F : final_state (proxy_set (S (S fuel)) key v b) = Some b1)
      by (rewrite H1; reflexivity).
    destruct (proxy_set_final fuel key v b b1 W F) as (Hp & Hn & W1 & He).
    destruct (IH b1 b' W1 H2) as (W' & Hp' & Hu & Hr).
    split; [exact W'|]. split; [|split].
    + rewrite Hp', Hp. reflexivity.
    + rewrite Hu, He, Hn, Hp, emissions_app, emissions_update_step.
      simpl. rewrite <- app_assoc. reflexivity.
    + rewrite Hr, He, Hn, Hp, emissions_app, emissions_render_step.
      cbn [updates_of]. rewrite filter_cons, <- app_assoc. f_equal.
      case_decide as D; unfold asks_render in D;
        cbn [lookup list_lookup] in D.
      * rewrite D. reflexivity.
      * destruct (componentDidUpdate _ _); [congruence|reflexivity].
Qed.

Lemma length_updates_of es : forall next target,
  length (updates_of next target es) = length es.
Proof.
  induction es as [|[k v] es IH]; intros; simpl; [reflexivity|].
  rewrite IH. reflexivity.
Qed.

Lemma assign_cons key v es (m : gmap string value) :
  assign ((key, v) :: es) m = assign es (<[key := v]> m).
Proof. reflexivity. Qed.

Lemma emissions_cons_ne ev ev' args log :
  ev' <> ev -> emissions ev ((ev', args) :: log) = emissions ev log.
Proof.
  intros H. unfold emissions. rewrite filter_cons, decide_False by exact H.
  reflexivity.
Qed.

Lemma emissions_cons_eq ev args log :
  emissions ev ((ev, args) :: log) = args :: emissions ev log.
Proof.
  unfold emissions. rewrite filter_cons, decide_True by reflexivity.
  reflexivity.
Qed.

(** The update events of a trace are the updates, one for each entry. *)
Lemma emissions_trace es : forall next target,
  emissions EVENTS_FLOW_CDU (trace_of next target es)
  = updates_of next target es.
Proof.
  induction es as [|[key v] es IH]; intros next target; [reflexivity|].
  cbn [trace_of updates_of]. rewrite emissions_cons_eq. f_equal.
  destruct (asks_render _); cbn [app].
  - rewrite emissions_cons_ne by discriminate. apply IH.
  - apply IH.
Qed.

Lemma last_app_cons {A} (l l' : list A) x :
  last (l ++ x :: l') = last (x :: l').
Proof.
  induction l as [|y l IH]; [reflexivity|].
  cbn [app]. rewrite <- IH. destruct (l ++ x :: l') eqn:E; [|reflexivity].
  destruct l; discriminate.
Qed.

(** What [Object.assign] leaves, however it ends: the history grows by the
    trace of the entries whose write was made, and an exception comes out
    of the render that the last of them asked for. *)
Lemma assign_trace fuel es : forall b,
  wired b ->
  match forEach (fun '(key, v) => proxy_set (S (S fuel)) key v) es b with
  | Normal _ b' =>
      emitted b' = emitted b ++ trace_of (next_addr b) (props b) es
  | Throw _ b' =>
      exists k,
        0 < k <= length es
        /\ props b'
           = mkObj (addr (props b)) (assign (take k es) (fields (props b)))
        /\ emitted b'
           = emitted b ++ trace_of (next_addr b) (props b) (take k es)
        /\ last (emitted b') = Some (EVENTS_FLOW_RENDER, [])
  | _ => True
  end.
Proof.
  induction es as [|[key v] es IH]; intros b W.
  - cbn. rewrite app_nil_r. reflexivity.
  - cbn [forEach]. unfold bind.
    destruct (proxy_set (S (S fuel)) key v b) as [[] b1|e b1| |] eqn:H1;
      [| |exact I|exact I].
    + assert (F : final_state (proxy_set (S (S fuel)) key v b) = Some b1)
        by (rewrite H1; reflexivity).
      destruct (proxy_set_final fuel key v b b1 W F) as (Hp & Hn & W1 & He).
      specialize (IH b1 W1). rewrite Hp, Hn, He in IH. cbn [addr fields] in IH.
      destruct (forEach _ es b1) as [[] b'|e b'| |]; [| |exact I|exact I].
      * rewrite IH. cbn [trace_of]. unfold asks_render.
        cbn [lookup list_lookup]. rewrite <- !app_assoc. reflexivity.
      * destruct IH as (k & Hk & Hp' & He' & Hl).
        exists (S k). cbn [length take]. split; [lia|].
        split; [rewrite Hp', assign_cons; reflexivity|].
        split; [|exact Hl].
        rewrite He'. cbn [trace_of]. unfold asks_render.
        cbn [lookup list_lookup]. rewrite <- !app_assoc. reflexivity.
    + assert (F : final_state (proxy_set (S (S fuel)) key v b) = Some b1)
        by (rewrite H1; reflexivity).
      destruct (proxy_set_final fuel key v b b1 W F) as (Hp & Hn & W1 & He).
      assert (A : componentDidUpdate
                    (Some (mkObj (next_addr b) (fields (props b))))
                    (Some (mkObj (addr (props b))
                             (<[key := v]> (fields (props b))))) = true).
      { revert H1. unfold proxy_set. rewrite emit_cdu by exact W.
        unfold _componentDidUpdate. cbn [lookup list_lookup].
        destruct (componentDidUpdate _ _); [reflexivity|discriminate]. }
      rewrite A in He.
      exists 1. cbn [length take]. split; [lia|].
      split; [rewrite Hp; reflexivity|].
      split.
      * rewrite He. cbn [trace_of take]. unfold asks_render.
        cbn [lookup list_lookup]. rewrite A, app_nil_r. reflexivity.
      * rewrite He. rewrite last_app_cons. reflexivity.
Qed.

Lemma proxy_set_bounded fuel prop v b :
  wired b -> proxy_set (S (S fuel)) prop v b <> OutOfFuel.
Proof.
  intros W. unfold proxy_set. rewrite emit_cdu by exact W.
  unfold _componentDidUpdate. destruct (componentDidUpdate _ _).
  - rewrite emit_render by exact W. apply render_bounded.
  - discriminate.
Qed.

Lemma assign_bounded fuel es : forall b,
  wired b ->
  forEach (fun '(key, v) => proxy_set (S (S fuel)) key v) es b <> OutOfFuel.
Proof.
  induction es as [|[key v] es IH]; intros b W; [discriminate|].
  cbn [forEach]. unfold bind.
  destruct (proxy_set (S (S fuel)) key v b) as [[] b1|e b1| |] eqn:H1;
    try discriminate.
  - apply IH.
    assert (F : final_state (proxy_set (S (S fuel)) key v b) = Some b1)
      by (rewrite H1; reflexivity).
    destruct (proxy_set_final fuel key v b b1 W F) as (_ & _ & W1 & _).
    exact W1.
  - exfalso. exact (proxy_set_bounded fuel key v b W H1).
Qed.

(** C2, as the code has it. A call [setProps(partial)] runs the update
    path once for each key of the partial, in the order of the keys: each
    time a snapshot, the write, the update event and the comparison hook,
    with a render event at once whenever the hook asks for it. A call
    that returns has done so for every key and has ended with one more
    render event, and its history is those events in that order; a call
    that throws has done so for the first keys of the partial, the
    exception coming out of a render, that of the last key written or
    the one that ends the call. The nesting of the events is two deep at
    most. The call returns when the render hook returns a fragment and
    neither listeners nor classes are among the props or the keys. The
    key [__proto__], whose write stores no property, is left out. *)
Theorem setProps_updates_each_key fuel nextProps es b :
  wired b ->
  truthy nextProps = true ->
  own_entries nextProps = Value es ->
  "__proto__" ∉ (fst <$> es) ->
  let updates := updates_of (next_addr b) (props b) es in
  length updates = length es
  /\ (forall b',
        setProps (S (S fuel)) nextProps b = Normal tt b' ->
        emissions EVENTS_FLOW_CDU (emitted b')
        = emissions EVENTS_FLOW_CDU (emitted b) ++ updates
        /\ fields (props b') = assign es (fields (props b))
        /\ emissions EVENTS_FLOW_RENDER (emitted b')
           = emissions EVENTS_FLOW_RENDER (emitted b)
             ++ map (fun _ => [])
                  (filter (fun a => asks_render a = true) updates)
             ++ [[]])
  /\ (renders_for b ->
      "events" ∉ (fst <$> es) -> "classes" ∉ (fst <$> es) ->
      plain_props (fields (props b)) ->
      exists b', setProps (S (S fuel)) nextProps b = Normal tt b')
  /\ (forall b',
        setProps (S (S fuel)) nextProps b = Normal tt b' ->
        emitted b'
        = emitted b ++ trace_of (next_addr b) (props b) es
          ++ [(EVENTS_FLOW_RENDER, [])])
  /\ (forall e b',
        setProps (S (S fuel)) nextProps b = Throw e b' ->
        exists k,
          k <= length es
          /\ fields (props b') = assign (take k es) (fields (props b))
          /\ emissions EVENTS_FLOW_CDU (emitted b')
             = emissions EVENTS_FLOW_CDU (emitted b)
               ++ updates_of (next_addr b) (props b) (take k es)
          /\ ((0 < k
               /\ emitted b'
                  = emitted b
                    ++ trace_of (next_addr b) (props b) (take k es))
              \/ (k = length es
                  /\ emitted b'
                     = emitted b ++ trace_of (next_addr b) (props b) es
                       ++ [(EVENTS_FLOW_RENDER, [])]))
          /\ last (emitted b') = Some (EVENTS_FLOW_RENDER, []))
  /\ setProps (S (S fuel)) nextProps b <> OutOfFuel.
Proof.
  intros W T E _ updates. split; [apply length_updates_of|].
  assert (S0 : setProps (S (S fuel)) nextProps b
               = bind (forEach (fun '(key, v) => proxy_set (S (S fuel)) key v)
                         es)
                   (fun _ => emit (S (S fuel)) EVENTS_FLOW_RENDER []) b).
  { unfold setProps. rewrite T, E. reflexivity. }
  pose proof (assign_trace fuel es b W) as Tr.
  split; [|split; [|split; [|split]]].
  - intros b' H. unfold setProps in H. rewrite T, E in H.
    simpl negb in H. cbv iota in H.
    apply bind_Normal in H. destruct H as (es' & b0 & H0 & H).
    simpl in H0. injection H0 as <- <-.
    apply bind_Normal in H. destruct H as ([] & b1 & H1 & H2).
    destruct (assign_final fuel es b b1 W H1) as (W1 & Hp & Hu & Hr).
    rewrite emit_render in H2 by exact W1.
    assert (F : final_state (_render (record_emit EVENTS_FLOW_RENDER [] b1))
                = Some b') by (rewrite H2; reflexivity).
    apply render_keeps_store in F.
    destruct F as (_ & Hp' & _ & _ & _ & He).
    simpl in Hp', He. split; [|split].
    + rewrite He, emissions_app, Hu.
      rewrite emissions_one_ne by discriminate. rewrite app_nil_r.
      reflexivity.
    + rewrite Hp', Hp. reflexivity.
    + rewrite He, emissions_app, Hr, emissions_one_eq, <- app_assoc.
      reflexivity.
  - intros R N1 N2 P. unfold setProps. rewrite T, E.
    cbn [negb]. unfold bind at 1, lift. unfold bind at 1.
    destruct (assign_returns fuel es b W R N1 N2 P)
      as (b1 & H1 & W1 & C1 & P1).
    rewrite H1. rewrite emit_render by exact W1.
    destruct (R (record_emit EVENTS_FLOW_RENDER [] b1) C1) as [fragment Hf].
    destruct (render_returns _ fragment Hf P1) as (b' & Hb' & _).
    exists b'. exact Hb'.
  - intros b' H. rewrite S0 in H. apply bind_Normal in H.
    destruct H as ([] & b1 & H1 & H2). rewrite H1 in Tr.
    destruct (assign_final fuel es b b1 W H1) as (W1 & _).
    rewrite emit_render in H2 by exact W1.
    assert (F : final_state (_render (record_emit EVENTS_FLOW_RENDER [] b1))
                = Some b') by (rewrite H2; reflexivity).
    apply render_keeps_store in F.
    destruct F as (_ & _ & _ & _ & _ & He). cbn in He.
    rewrite He, Tr, <- app_assoc. reflexivity.
  - intros e b' H. rewrite S0 in H. unfold bind in H.
    destruct (forEach _ es b) as [[] b1|e1 b1| |] eqn:H1; try discriminate.
    + destruct (assign_final fuel es b b1 W H1) as (W1 & Hp & Hu & _).
      rewrite emit_render in H by exact W1.
      assert (F : final_state
                    (_render (record_emit EVENTS_FLOW_RENDER [] b1))
                  = Some b') by (rewrite H; reflexivity).
      apply render_keeps_store in F.
      destruct F as (_ & Hp' & _ & _ & _ & He). cbn in Hp', He.
      exists (length es). rewrite firstn_all.
      split; [lia|]. split; [rewrite Hp', Hp; reflexivity|].
      split; [|split].
      * rewrite He, emissions_app, Hu.
        rewrite emissions_one_ne by discriminate. apply app_nil_r.
      * right. split; [reflexivity|].
        rewrite He, Tr, <- app_assoc. reflexivity.
      * rewrite He, last_app_cons. reflexivity.
    + injection H as <- <-.
      destruct Tr as (k & Hk & Hp & He & Hl).
      exists k. split; [lia|]. split; [rewrite Hp; reflexivity|].
      split; [|split; [left; split; [lia|exact He]|exact Hl]].
      rewrite He, emissions_app, emissions_trace. reflexivity.
  - rewrite S0. unfold bind.
    destruct (forEach _ es b) as [[] b1|e1 b1| |] eqn:H1; try discriminate.
    + destruct (assign_final fuel es b b1 W H1) as (W1 & _).
      rewrite emit_render by exact W1. apply render_bounded.
    + exfalso. exact (assign_bounded fuel es b W H1).
Qed.

(** C4, as the code has it. When the render hook returns a fragment and
    the render event returns, [getContent()] is the first element child
    of that fragment with the listeners and the classes of the props put
    on it, each function under [events] registered and each token of
    [classes] added to its class list: it is [null] when the fragment has
    no element, and the first one when the fragment has several, the
    others being dropped; no error is raised for either. The render event
    does return when the values under [events] are functions, [null] or
    [undefined] and [classes] is falsy, or is a string of tokens that are
    not empty and have no whitespace while the fragment has an element;
    with neither [events] nor [classes] among the props [getContent()] is
    that first element child as it is. The render event emits no other
    event. *)
Theorem render_keeps_first_element fuel fragment b :
  wired b ->
  render (record_emit EVENTS_FLOW_RENDER [] b) = Value fragment ->
  (forall b',
      emit (S fuel) EVENTS_FLOW_RENDER [] b = Normal tt b' ->
      getContent b' = dressed b <$> firstElementChild fragment)
  /\ (forall evs,
        own_entries (props_events b) = Value evs ->
        listens evs ->
        (truthy (props_classes b) = false
         \/ exists s,
             props_classes b = VStr s
             /\ Forall valid_token (split_space s)
             /\ firstElementChild fragment <> None) ->
        exists b', emit (S fuel) EVENTS_FLOW_RENDER [] b = Normal tt b')
  /\ (fields (props b) !! "events" = None ->
      fields (props b) !! "classes" = None ->
      exists b',
        emit (S fuel) EVENTS_FLOW_RENDER [] b = Normal tt b'
        /\ getContent b' = firstElementChild fragment)
  /\ emit (S fuel) EVENTS_FLOW_RENDER [] b <> OutOfFuel.
Proof.
  intros W R. rewrite emit_render by exact W.
  split; [|split; [|split]]; [| | |apply render_bounded].
  all: unfold _render; rewrite R;
    set (b0 := record_emit EVENTS_FLOW_RENDER [] b).
  - intros b' H.
    apply bind_Normal in H. destruct H as ([] & b1 & H1 & H).
    apply bind_Normal in H. destruct H as ([] & b2 & H2 & H).
    apply bind_Normal in H. destruct H as ([] & b3 & H3 & H4).
    injection H2 as <-.
    assert (P1 : props b1 = props b).
    { assert (K : same_store b0 b1).
      { destruct (_element b0).
        - apply bind_Normal in H1. destruct H1 as ([] & s1 & Hr & H1).
          assert (K1 : decorated b0 s1)
            by (apply removeEvents_decorates; rewrite Hr; reflexivity).
          destruct (_element s1); [|discriminate]. injection H1 as <-.
          eapply same_store_trans; [apply K1|apply same_store_record_dom].
        - injection H1 as <-. apply same_store_refl. }
      destruct K as (_ & K & _). exact K. }
    apply addEvents_result in H3. apply addClass_result in H4.
    subst b' b3. unfold getContent, element, dressed.
    cbn [_element set_element].
    rewrite (tokens_of_props_same b _) by exact P1.
    rewrite (listeners_of_props_same b _) by exact P1.
    destruct (firstElementChild fragment); reflexivity.
  - intros evs Hev L Hc.
    assert (Ev : forall s, props s = props b ->
                           own_entries (props_events s) = Value evs).
    { intros s Hs. unfold props_events, proxy_get. rewrite Hs. exact Hev. }
    assert (Cl : forall s, props s = props b ->
                           props_classes s = props_classes b).
    { intros s Hs. unfold props_classes, proxy_get. rewrite Hs.
      reflexivity. }
    assert (Rest : forall s,
               props s = props b ->
               exists b',
                 (modify (set_element (firstElementChild fragment)) ;;;
                  _addEvents ;;; _addClass)%method s = Normal tt b').
    { intros s Hs. unfold bind, modify, _addEvents.
      rewrite (Ev (set_element (firstElementChild fragment) s) Hs).
      destruct (addEvents_listens evs
                  (set_element (firstElementChild fragment) s) L)
        as [s3 H3].
      rewrite H3.
      assert (P3 : props s3 = props b).
      { apply addEvents_steps in H3. subst s3. exact Hs. }
      assert (E3 : _element s3
                   = put_listeners (handlers_of evs)
                       <$> firstElementChild fragment).
      { apply addEvents_steps in H3. subst s3. reflexivity. }
      unfold _addClass. rewrite (Cl _ P3).
      destruct Hc as [Hf|(str & Hs' & Hv & Hne)].
      - rewrite Hf. eexists. reflexivity.
      - rewrite Hs'. destruct (truthy (VStr str)); [|eexists; reflexivity].
        cbn [negb classes_split].
        destruct (firstElementChild fragment) as [el|]; [|congruence].
        eapply addClass_valid_tokens; [exact E3|exact Hv]. }
    destruct (_element b0) as [old|] eqn:Eo.
    + unfold bind at 1. unfold bind at 1. unfold _removeEvents.
      rewrite (Ev b0 eq_refl).
      destruct (removeEvents_listens evs b0 old Eo L) as [old' Hr].
      rewrite Hr. cbn [_element set_element]. apply Rest. reflexivity.
    + unfold bind at 1. unfold ret at 1. apply Rest. reflexivity.
  - intros He Hc.
    destruct (render_returns b0 fragment R (conj He Hc))
      as (b' & Hb' & _ & Hel).
    exists b'. unfold _render in Hb'. subst b0. rewrite R in Hb'.
    split; [exact Hb'|exact Hel].
Qed.

(** C7. Deleting a key of the reactive property store always fails, with
    the error the spec calls [InvalidOperation], and leaves the instance,
    and so the store, as it was. *)
Theorem deleteProperty_fails prop b :
  proxy_deleteProperty prop b = Throw (Error "?????? ??????????????") b
  /\ final_state (proxy_deleteProperty prop b) = Some b.
Proof. split; reflexivity. Qed.

(** C10. [setProps] with [null] or with [undefined] returns at once: the
    instance is unchanged, so the store is and no event is emitted. *)
Theorem setProps_nullish_is_noop fuel b :
  setProps fuel VNull b = Normal tt b
  /\ setProps fuel VUndefined b = Normal tt b.
Proof. split; reflexivity. Qed.
End LifecycleProperties.

(** C9. On a component whose rendered node is [null], [show()] and
    [hide()] throw on the missing node and change nothing. *)
Theorem show_hide_without_node b :
  getContent b = None ->
  show b = Throw TypeError b
  /\ hide b = Throw TypeError b.
Proof. intros H. unfold show, hide. rewrite H. split; reflexivity. Qed.

(** ** The partition of the bag *)

Lemma obj_get_set_eq key v o : obj_get key (obj_set key v o) = Some v.
Proof.
  induction o as [|[k w] o IH]; cbn [obj_set obj_get].
  - rewrite String.eqb_refl. reflexivity.
  - destruct (String.eqb k key) eqn:E; cbn [obj_get]; rewrite E;
      [reflexivity|exact IH].
Qed.

Lemma obj_get_set_ne key key' v o :
  key' <> key -> obj_get key (obj_set key' v o) = obj_get key o.
Proof.
  intros H. induction o as [|[k w] o IH]; cbn [obj_set obj_get].
  - destruct (String.eqb_spec key' key); [congruence|reflexivity].
  - destruct (String.eqb_spec k key') as [->|N]; cbn [obj_get].
    + destruct (String.eqb_spec key' key); [congruence|reflexivity].
    + destruct (String.eqb k key); [reflexivity|exact IH].
Qed.

(** The inner loop over an array stores it when one element is a
    component. *)
Lemma store_if_block_get key key' value items : forall ch,
  obj_get key
    (fold_left
       (fun ch val =>
          if instanceof_Block val then obj_set key' value ch else ch)
       items ch)
  = if String.eqb key' key && existsb instanceof_Block items
    then Some value else obj_get key ch.
Proof.
  induction items as [|val items IH]; intros ch; cbn [fold_left existsb].
  - rewrite andb_false_r. reflexivity.
  - rewrite IH. destruct (String.eqb_spec key' key) as [->|N]; cbn [andb].
    + destruct (instanceof_Block val); cbn [orb].
      * rewrite obj_get_set_eq. destruct (existsb _ items); reflexivity.
      * reflexivity.
    + destruct (instanceof_Block val); [|reflexivity].
      apply obj_get_set_ne, N.
Qed.

Lemma route_other acc kv key :
  fst kv <> key ->
  fst (route acc kv) !! key = fst acc !! key
  /\ obj_get key (snd (route acc kv)) = obj_get key (snd acc).
Proof.
  destruct acc as [props children], kv as [k value]. cbn [fst]. intros H.
  destruct value; cbn [route fst snd];
    try (split; [apply lookup_insert_ne, H|reflexivity]).
  - split; [reflexivity|]. rewrite store_if_block_get.
    destruct (String.eqb_spec k key); [congruence|reflexivity].
  - split; [reflexivity|]. apply obj_get_set_ne, H.
Qed.

Lemma fold_route_other bag : forall acc key,
  key ∉ (fst <$> bag) ->
  fst (fold_left route bag acc) !! key = fst acc !! key
  /\ obj_get key (snd (fold_left route bag acc)) = obj_get key (snd acc).
Proof.
  induction bag as [|kv bag IH]; intros acc key H; [split; reflexivity|].
  rewrite fmap_cons, not_elem_of_cons in H. destruct H as [H1 H2].
  cbn [fold_left]. destruct (IH (route acc kv) key H2) as [-> ->].
  apply route_other. congruence.
Qed.

Lemma route_own acc key value :
  fst acc !! key = None -> obj_get key (snd acc) = None ->
  match routed_as value with
  | Some true =>
      fst (route acc (key, value)) !! key = Some value
      /\ obj_get key (snd (route acc (key, value))) = None
  | Some false =>
      fst (route acc (key, value)) !! key = None
      /\ obj_get key (snd (route acc (key, value))) = Some value
  | None =>
      fst (route acc (key, value)) !! key = None
      /\ obj_get key (snd (route acc (key, value))) = None
  end.
Proof.
  destruct acc as [props children]. cbn [fst snd]. intros Hp Hc.
  destruct value; cbn [routed_as route fst snd];
    try (split; [apply lookup_insert_eq|exact Hc]).
  - pose proof (store_if_block_get key key (VArr items) items children) as E.
    rewrite String.eqb_refl in E. cbn [andb] in E.
    destruct (existsb instanceof_Block items); rewrite E; split; auto.
  - split; [exact Hp|apply obj_get_set_eq].
Qed.

(** Where each key of a bag goes: a component, or an array with a
    component among its elements, under the children only; an array with
    no component nowhere; any other value under the props only. No key is
    in both. *)
Lemma getChildrenAndProps_routes bag key value :
  NoDup (fst <$> bag) -> (key, value) ∈ bag ->
  let props := fst (_getChildrenAndProps bag) in
  let children := snd (_getChildrenAndProps bag) in
  match routed_as value with
  | Some true => props !! key = Some value /\ obj_get key children = None
  | Some false => props !! key = None /\ obj_get key children = Some value
  | None => props !! key = None /\ obj_get key children = None
  end.
Proof.
  unfold _getChildrenAndProps.
  assert (G : forall acc,
             NoDup (fst <$> bag) -> (key, value) ∈ bag ->
             fst acc !! key = None -> obj_get key (snd acc) = None ->
             match routed_as value with
             | Some true =>
                 fst (fold_left route bag acc) !! key = Some value
                 /\ obj_get key (snd (fold_left route bag acc)) = None
             | Some false =>
                 fst (fold_left route bag acc) !! key = None
                 /\ obj_get key (snd (fold_left route bag acc)) = Some value
             | None =>
                 fst (fold_left route bag acc) !! key = None
                 /\ obj_get key (snd (fold_left route bag acc)) = None
             end).
  { induction bag as [|kv bag IH]; intros acc ND H Hp Hc.
    - inversion H.
    - rewrite fmap_cons in ND. apply NoDup_cons in ND. destruct ND as [N1 N2].
      cbn [fold_left]. apply elem_of_cons in H. destruct H as [<-|H].
      + destruct (fold_route_other bag (route acc (key, value)) key N1)
          as [-> ->].
        apply route_own; assumption.
      + assert (Hne : fst kv <> key).
        { intros <-. apply N1. apply (list_elem_of_fmap_2 fst) in H.
          exact H. }
        destruct (route_other acc kv key Hne) as [E1 E2].
        apply IH; [exact N2|exact H| |]; congruence. }
  intros ND H. apply G; [exact ND|exact H|apply lookup_empty|reflexivity].
Qed.

(** C3, where the code departs from it. An array that holds no component
    is stored neither under the props nor under the children: the key is
    dropped. *)
Theorem plain_array_is_dropped :
  _getChildrenAndProps [("options", VArr [VStr "a"; VStr "b"])] = (∅, [])
  /\ routed_as (VArr [VStr "a"; VStr "b"]) = None.
Proof. split; reflexivity. Qed.

(** ** Composition of the children into the markup *)

(** *** The first loop: the stubs are added to the context *)

Lemma append_assoc (a b c : string) : (a +:+ b) +:+ c = a +:+ (b +:+ c).
Proof.
  induction a as [|x a IH]; [reflexivity|].
  change (String x ((a +:+ b) +:+ c) = String x (a +:+ (b +:+ c))).
  f_equal. exact IH.
Qed.

Lemma append_empty_r (a : string) : a +:+ "" = a.
Proof.
  induction a as [|x a IH]; [reflexivity|].
  change (String x (a +:+ "") = String x a). f_equal. exact IH.
Qed.

Lemma append_stub_nonempty (a : string) (id : value) :
  String.eqb (a +:+ stub_markup id) "" = false.
Proof. destruct a; reflexivity. Qed.

Lemma ctx_store_other name name' s ctx :
  name <> name' -> ctx_store name s ctx !! name' = ctx !! name'.
Proof.
  intros H. unfold ctx_store.
  destruct (ctx !! name); [apply lookup_insert_ne, H|].
  destruct (String.eqb name "__proto__"); [reflexivity|].
  apply lookup_insert_ne, H.
Qed.

(** The store under a name either writes the key, whatever the string, or
    leaves the context as it is, whatever the string. *)
Lemma ctx_store_cases name ctx :
  (forall s, ctx_store name s ctx = <[name := VStr s]> ctx)
  \/ (forall s, ctx_store name s ctx = ctx).
Proof.
  unfold ctx_store. destruct (ctx !! name); [left; reflexivity|].
  destruct (String.eqb name "__proto__"); [right|left]; reflexivity.
Qed.

Lemma ctx_store_written name s ctx :
  name <> "__proto__" -> ctx_store name s ctx = <[name := VStr s]> ctx.
Proof.
  intros H. unfold ctx_store. destruct (ctx !! name); [reflexivity|].
  destruct (String.eqb_spec name "__proto__"); [congruence|reflexivity].
Qed.

Lemma ctx_store_insert name s s' ctx :
  ctx_store name s' (<[name := VStr s]> ctx) = <[name := VStr s']> ctx.
Proof.
  unfold ctx_store. rewrite lookup_insert_eq. apply insert_insert_eq.
Qed.

Lemma add_stub_block name ctx r :
  add_stub name ctx (VBlock r)
  = Value (ctx_store name
             (kept_prefix name ctx +:+ stub_markup (VStr (ref_id r))) ctx).
Proof.
  unfold add_stub, kept_prefix. simpl.
  destruct (truthy (ctx_get name ctx)); reflexivity.
Qed.

Lemma kept_prefix_insert name s ctx :
  String.eqb s "" = false ->
  kept_prefix name (<[name := VStr s]> ctx) = s.
Proof.
  intros H. unfold kept_prefix, ctx_get. rewrite lookup_insert_eq. simpl.
  rewrite H. reflexivity.
Qed.

Lemma add_stubs_sequence name rs : forall r ctx,
  forEach_r (add_stub name) (VBlock <$> (r :: rs)) ctx
  = Value (ctx_store name (kept_prefix name ctx +:+ stubs_of (r :: rs)) ctx).
Proof.
  induction rs as [|r' rs IH]; intros r ctx.
  - change (VBlock <$> [r]) with [VBlock r].
    cbn [forEach_r]. rewrite add_stub_block.
    cbn [result_bind forEach_r stubs_of].
    rewrite append_empty_r. reflexivity.
  - change (VBlock <$> r :: r' :: rs) with (VBlock r :: (VBlock <$> r' :: rs)).
    cbn [forEach_r]. rewrite add_stub_block. cbn [result_bind].
    rewrite IH. destruct (ctx_store_cases name ctx) as [Hw|Hk].
    + rewrite !Hw, ctx_store_insert.
      rewrite kept_prefix_insert by apply append_stub_nonempty.
      rewrite append_assoc. reflexivity.
    + rewrite !Hk. reflexivity.
Qed.

Lemma add_stubs_for_child ctx name c :
  add_stubs_for ctx (name, child_value c) = Value (with_stubs ctx (name, c)).
Proof.
  destruct c as [r|[|r rs]].
  - reflexivity.
  - reflexivity.
  - unfold add_stubs_for, child_value, with_stubs. cbn [fst snd].
    apply add_stubs_sequence.
Qed.

Lemma add_stubs_children cs : forall ctx,
  forEach_r add_stubs_for (child_entries cs) ctx
  = Value (fold_left with_stubs cs ctx).
Proof.
  induction cs as [|[name c] cs IH]; intros ctx; [reflexivity|].
  unfold child_entries. rewrite fmap_cons. cbn [forEach_r fst snd fold_left].
  rewrite add_stubs_for_child. cbn [result_bind]. apply IH.
Qed.

Lemma with_stubs_other ctx name entry :
  fst entry <> name -> with_stubs ctx entry !! name = ctx !! name.
Proof.
  intros H. unfold with_stubs. destruct (snd entry) as [r|[|r rs]];
    try reflexivity; apply ctx_store_other, H.
Qed.

Lemma fold_with_stubs_other cs : forall ctx name,
  name ∉ (fst <$> cs) ->
  fold_left with_stubs cs ctx !! name = ctx !! name.
Proof.
  induction cs as [|e cs IH]; intros ctx name H; [reflexivity|].
  rewrite fmap_cons, not_elem_of_cons in H. destruct H as [H1 H2].
  cbn [fold_left]. rewrite IH by exact H2. apply with_stubs_other. congruence.
Qed.

(** What an entry leaves under its own key depends on what the context
    held under that key only. *)
Lemma with_stubs_own ctx ctx' name c :
  ctx' !! name = ctx !! name ->
  with_stubs ctx' (name, c) !! name = with_stubs ctx (name, c) !! name.
Proof.
  intros H. unfold with_stubs, kept_prefix, ctx_get, ctx_store.
  cbn [fst snd]. rewrite H.
  destruct c as [r|[|r rs]]; [|exact H|];
    destruct (ctx !! name) eqn:E;
    rewrite ?lookup_insert_eq; try reflexivity;
    destruct (String.eqb name "__proto__");
    rewrite ?lookup_insert_eq; try reflexivity; congruence.
Qed.

Lemma fold_with_stubs_lookup cs : forall ctx name c,
  NoDup (fst <$> cs) -> (name, c) ∈ cs ->
  fold_left with_stubs cs ctx !! name = with_stubs ctx (name, c) !! name.
Proof.
  induction cs as [|e cs IH]; intros ctx name c ND H.
  - inversion H.
  - rewrite fmap_cons in ND. apply NoDup_cons in ND. destruct ND as [N1 N2].
    cbn [fold_left]. apply elem_of_cons in H. destruct H as [<-|H].
    + apply fold_with_stubs_other. exact N1.
    + rewrite (IH _ name c N2 H).
      assert (Hne : fst e <> name).
      { intros <-. apply N1. apply (list_elem_of_fmap_2 fst) in H. exact H. }
      apply with_stubs_own, with_stubs_other, Hne.
Qed.

(** *** The fragment as a forest *)

Lemma node_forest_ind (P : node -> Prop) :
  (forall d, P (TextNode d)) ->
  (forall tag attrs cls disp ls kids,
      Forall P kids -> P (Element tag attrs cls disp ls kids)) ->
  forall n, P n.
Proof.
  intros Ht He. fix IH 1. intros [tag attrs cls disp ls kids|d].
  - apply He. induction kids as [|k kids IHk]; constructor.
    + apply IH.
    + exact IHk.
  - apply Ht.
Qed.

Lemma find_first_Some f nodes : forall i p,
  find_first f i nodes = Some p ->
  exists j n q, p = (i + j) :: q /\ nodes !! j = Some n /\ f n = Some q.
Proof.
  induction nodes as [|n nodes IH]; intros i p H; [discriminate|].
  cbn [find_first] in H. destruct (f n) as [q|] eqn:E.
  - injection H as <-. exists 0, n, q. rewrite Nat.add_0_r. auto.
  - destruct (IH _ _ H) as (j & n' & q & -> & Hn & Hq).
    exists (S j), n', q. split; [f_equal; lia|]. auto.
Qed.

Lemma find_first_None f nodes : forall i,
  find_first f i nodes = None -> Forall (fun n => f n = None) nodes.
Proof.
  induction nodes as [|n nodes IH]; intros i H; [constructor|].
  cbn [find_first] in H. destruct (f n) as [q|] eqn:E; [discriminate|].
  constructor; [exact E|]. eapply IH, H.
Qed.

Lemma find_node_found id : forall n q,
  find_node id n = Some q ->
  match q with
  | [] => matches_data_id id n = true
  | _ :: _ =>
      exists s, node_at q (childNodes_of n) = Some s
                /\ matches_data_id id s = true
  end.
Proof.
  induction n as [d|tag attrs cls disp ls kids IH] using node_forest_ind;
    intros q H; [discriminate|].
  cbn [find_node] in H.
  destruct (matches_data_id id (Element tag attrs cls disp ls kids)) eqn:M.
  - injection H as <-. reflexivity.
  - apply find_first_Some in H. destruct H as (j & k & q' & -> & Hk & Hq).
    cbn [Nat.add childNodes_of node_at]. rewrite Hk.
    rewrite Forall_lookup in IH. specialize (IH j k Hk q' Hq).
    destruct q' as [|i q'].
    + exists k. auto.
    + exact IH.
Qed.

Lemma querySelector_found id content p :
  querySelector id content = Some p ->
  exists stub, node_at p content = Some stub
               /\ matches_data_id id stub = true.
Proof.
  unfold querySelector. intros H. apply find_first_Some in H.
  destruct H as (j & n & q & -> & Hn & Hq).
  apply find_node_found in Hq. cbn [Nat.add node_at]. rewrite Hn.
  destruct q as [|i q]; [exists n; auto|exact Hq].
Qed.

Lemma list_sum_cons (x : nat) (l : list nat) :
  list_sum (x :: l) = x + list_sum l.
Proof. reflexivity. Qed.

Lemma list_sum_zero {A} (g : A -> nat) (l : list A) :
  Forall (fun x => g x = 0) l -> list_sum (map g l) = 0.
Proof.
  induction 1 as [|x l Hx _ IH]; [reflexivity|].
  cbn [map]. rewrite list_sum_cons, Hx, IH. reflexivity.
Qed.

Lemma find_node_none id : forall n,
  find_node id n = None -> count_data_id id n = 0.
Proof.
  induction n as [d|tag attrs cls disp ls kids IH] using node_forest_ind;
    intros H; [reflexivity|].
  cbn [find_node count_data_id] in *.
  destruct (matches_data_id id (Element tag attrs cls disp ls kids));
    [discriminate|].
  apply find_first_None in H. cbn [Nat.add].
  apply list_sum_zero. rewrite Forall_forall in *.
  intros k Hk. apply IH; [exact Hk|]. apply H, Hk.
Qed.

Lemma querySelector_none id content :
  querySelector id content = None -> count_stubs id content = 0.
Proof.
  unfold querySelector, count_stubs. intros H. apply find_first_None in H.
  apply list_sum_zero. rewrite Forall_forall in *.
  intros n Hn. apply find_node_none, H, Hn.
Qed.

Lemma childNodes_with_childNodes kids n :
  isElement n = true -> childNodes_of (with_childNodes kids n) = kids.
Proof. destruct n; [reflexivity|discriminate]. Qed.

Lemma node_at_isElement q n s :
  q <> [] -> node_at q (childNodes_of n) = Some s -> isElement n = true.
Proof.
  destruct n; [reflexivity|]. destruct q as [|i q]; [congruence|].
  intros _. cbn [childNodes_of node_at]. rewrite lookup_nil. discriminate.
Qed.

Lemma replaceWith_inside i j q new nodes n :
  nodes !! i = Some n ->
  replaceWith (i :: j :: q) new nodes
  = <[i := with_childNodes (replaceWith (j :: q) new (childNodes_of n)) n]>
      nodes.
Proof. intros H. cbn [replaceWith]. rewrite H. reflexivity. Qed.

Lemma replaceWith_places new : forall p nodes stub,
  node_at p nodes = Some stub ->
  node_at p (replaceWith p new nodes) = Some new.
Proof.
  induction p as [|i q IH]; intros nodes stub H; [discriminate|].
  cbn [node_at] in H. destruct (nodes !! i) as [n|] eqn:En; [|discriminate].
  assert (Hi : i < length nodes) by (eapply lookup_lt_Some, En).
  destruct q as [|j q].
  - cbn [replaceWith node_at]. rewrite list_lookup_insert_eq by exact Hi.
    reflexivity.
  - rewrite (replaceWith_inside i j q new nodes n En). cbn [node_at].
    rewrite list_lookup_insert_eq by exact Hi.
    rewrite childNodes_with_childNodes
      by (eapply (node_at_isElement (j :: q)); [discriminate|exact H]).
    eapply IH, H.
Qed.

Lemma list_sum_insert (g : node -> nat) nodes i old new :
  nodes !! i = Some old ->
  list_sum (map g (<[i := new]> nodes)) + g old
  = list_sum (map g nodes) + g new.
Proof.
  revert i. induction nodes as [|n nodes IH]; intros i H; [discriminate|].
  destruct i as [|i].
  - injection H as ->.
    change (<[0 := new]> (old :: nodes)) with (new :: nodes).
    cbn [map]. rewrite !list_sum_cons. lia.
  - change (<[S i := new]> (n :: nodes)) with (n :: <[i := new]> nodes).
    cbn [map]. rewrite !list_sum_cons.
    change ((n :: nodes) !! S i) with (nodes !! i) in H.
    specialize (IH i H). lia.
Qed.

Lemma count_with_childNodes id kids n :
  count_data_id id (with_childNodes kids n) + count_stubs id (childNodes_of n)
  = count_data_id id n + (if isElement n then count_stubs id kids else 0).
Proof.
  destruct n as [tag attrs cls disp ls ks|d]; [|reflexivity].
  cbn [with_childNodes count_data_id childNodes_of isElement].
  unfold count_stubs, matches_data_id. lia.
Qed.

Lemma replaceWith_count id new : forall p nodes stub,
  node_at p nodes = Some stub ->
  count_stubs id (replaceWith p new nodes) + count_data_id id stub
  = count_stubs id nodes + count_data_id id new.
Proof.
  induction p as [|i q IH]; intros nodes stub H; [discriminate|].
  cbn [node_at] in H. destruct (nodes !! i) as [n|] eqn:En; [|discriminate].
  destruct q as [|j q].
  - injection H as ->. cbn [replaceWith]. unfold count_stubs.
    apply list_sum_insert, En.
  - rewrite (replaceWith_inside i j q new nodes n En).
    assert (Hel : isElement n = true)
      by (eapply (node_at_isElement (j :: q)); [discriminate|exact H]).
    specialize (IH _ _ H).
    pose proof (count_with_childNodes id
                  (replaceWith (j :: q) new (childNodes_of n)) n) as Hc.
    rewrite Hel in Hc.
    pose proof (list_sum_insert (count_data_id id) nodes i n
                  (with_childNodes
                     (replaceWith (j :: q) new (childNodes_of n)) n)
                  En) as Hs.
    unfold count_stubs in *. lia.
Qed.

Lemma matches_count id n :
  matches_data_id id n = true -> 1 <= count_data_id id n.
Proof.
  destruct n as [tag attrs cls disp ls ks|d]; [|discriminate].
  intros H. cbn [count_data_id]. rewrite H. lia.
Qed.

(** *** The second loop: the stubs are replaced *)

Lemma replace_stub_block content r :
  selector_safe (ref_id r) = true ->
  replace_stub content (VBlock r)
  = Value (substituted content r).
Proof.
  intros Hs. unfold replace_stub, substituted.
  cbn [get_id mbind result_mbind result_bind ToString]. rewrite Hs.
  cbn [negb].
  destruct (querySelector (ref_id r) content); reflexivity.
Qed.

Lemma forEach_r_app {A S} (f : S -> A -> result S) l1 l2 : forall s,
  forEach_r f (l1 ++ l2) s = result_bind (forEach_r f l1 s) (forEach_r f l2).
Proof.
  induction l1 as [|x l1 IH]; intros s; [reflexivity|].
  cbn [app forEach_r]. destruct (f s x); cbn [result_bind]; [apply IH| |];
    reflexivity.
Qed.

Lemma replace_stubs_for_child content name c :
  replace_stubs_for content (name, child_value c)
  = forEach_r replace_stub (VBlock <$> components_of c) content.
Proof.
  destruct c as [r|rs]; [|reflexivity].
  cbn [replace_stubs_for child_value components_of fmap list_fmap forEach_r].
  destruct (replace_stub content (VBlock r)); reflexivity.
Qed.

Lemma replace_stubs_children cs : forall content,
  forEach_r replace_stubs_for (child_entries cs) content
  = forEach_r replace_stub (VBlock <$> components cs) content.
Proof.
  induction cs as [|[name c] cs IH]; intros content; [reflexivity|].
  unfold child_entries, components. rewrite !fmap_cons. cbn [concat fst snd].
  rewrite fmap_app, forEach_r_app. cbn [forEach_r].
  rewrite replace_stubs_for_child.
  destruct (forEach_r replace_stub _ content); cbn [result_bind];
    [apply IH| |]; reflexivity.
Qed.

Lemma replace_step_le id content r :
  count_data_id id (node_or_text (ref_content r)) = 0 ->
  count_stubs id
    (substituted content r)
  <= count_stubs id content.
Proof.
  intros H. unfold substituted.
  destruct (querySelector (ref_id r) content) as [p|] eqn:Q; [|lia].
  apply querySelector_found in Q. destruct Q as (stub & Hs & _).
  pose proof (replaceWith_count id (node_or_text (ref_content r)) p content
                stub Hs). lia.
Qed.

Lemma replace_step_zero content r :
  count_data_id (ref_id r) (node_or_text (ref_content r)) = 0 ->
  count_stubs (ref_id r) content <= 1 ->
  count_stubs (ref_id r)
    (substituted content r)
  = 0.
Proof.
  intros H L. unfold substituted.
  destruct (querySelector (ref_id r) content) as [p|] eqn:Q.
  - apply querySelector_found in Q. destruct Q as (stub & Hs & Hm).
    apply matches_count in Hm.
    pose proof (replaceWith_count (ref_id r) (node_or_text (ref_content r))
                  p content stub Hs). lia.
  - apply querySelector_none, Q.
Qed.

Lemma replace_all rs : forall content,
  Forall (fun r => selector_safe (ref_id r) = true) rs ->
  exists content',
    forEach_r replace_stub (VBlock <$> rs) content = Value content'
    /\ (forall id,
           (forall r, r ∈ rs ->
                 count_data_id id (node_or_text (ref_content r)) = 0) ->
           count_stubs id content' <= count_stubs id content)
    /\ (forall r, r ∈ rs ->
           (forall r', r' ∈ rs ->
                 count_data_id (ref_id r) (node_or_text (ref_content r'))
                 = 0) ->
           count_stubs (ref_id r) content <= 1 ->
           count_stubs (ref_id r) content' = 0).
Proof.
  induction rs as [|r rs IH]; intros content Hsafe.
  - exists content. split; [reflexivity|]. split; [intros; lia|].
    intros r Hr. inversion Hr.
  - apply Forall_cons in Hsafe. destruct Hsafe as [Hs Hsafe].
    rewrite fmap_cons. cbn [forEach_r]. rewrite replace_stub_block by exact Hs.
    cbn [result_bind].
    set (content1 := substituted content r).
    destruct (IH content1 Hsafe) as (content' & E & Hle & Hzero).
    exists content'. split; [exact E|]. split.
    + intros id H.
      transitivity (count_stubs id content1).
      * apply Hle. intros r' Hr'. apply H. right. exact Hr'.
      * apply replace_step_le. apply H. left.
    + intros r0 Hr0 Hclean Hone. apply elem_of_cons in Hr0.
      destruct Hr0 as [->|Hr0].
      * assert (Z : count_stubs (ref_id r) content1 = 0).
        { apply replace_step_zero; [apply Hclean; left|exact Hone]. }
        assert (L : count_stubs (ref_id r) content'
                    <= count_stubs (ref_id r) content1).
        { apply Hle. intros r' Hr'. apply Hclean. right. exact Hr'. }
        lia.
      * apply Hzero; [exact Hr0| |].
        -- intros r' Hr'. apply Hclean. right. exact Hr'.
        -- transitivity (count_stubs (ref_id r0) content); [|exact Hone].
           apply replace_step_le. apply Hclean. left.
Qed.

Lemma repeats_NoDup (ids : list string) :
  NoDup ids -> repeats ids = false.
Proof.
  induction 1 as [|id ids Hid _ IH]; [reflexivity|].
  cbn [repeats]. rewrite IH, orb_false_r.
  destruct (string_in id ids) eqn:E; [|reflexivity].
  exfalso. apply Hid. unfold string_in in E. apply existsb_exists in E.
  destruct E as (x & Hx & E). apply String.eqb_eq in E. subst x.
  apply list_elem_of_In, Hx.
Qed.

Lemma child_ids_children cs :
  child_ids (child_entries cs) = ref_id <$> components cs.
Proof.
  induction cs as [|[name c] cs IH]; [reflexivity|].
  unfold child_entries, components, child_ids.
  rewrite !fmap_cons. cbn [flat_map concat fst snd]. rewrite fmap_app.
  f_equal; [|exact IH].
  destruct c as [r|rs]; [reflexivity|]. cbn [child_value components_of].
  induction rs as [|r rs IHr]; [reflexivity|].
  rewrite !fmap_cons. cbn [omap list_omap]. f_equal. exact IHr.
Qed.

Lemma plain_slots_children cs context :
  (forall name r rs,
      (name, Sequence (r :: rs)) ∈ cs ->
      prints_plainly (ctx_get name context) = true) ->
  plain_slots (child_entries cs) context = true.
Proof.
  intros H. induction cs as [|[name c] cs IH]; [reflexivity|].
  unfold plain_slots, child_entries. rewrite fmap_cons.
  cbn [forallb fst snd]. apply andb_true_intro. split.
  - destruct c as [r|[|r rs]]; try reflexivity.
    change (child_value (Sequence (r :: rs)))
      with (VArr (VBlock r :: (VBlock <$> rs))). cbv iota.
    apply (H name r rs). left.
  - apply IH. intros name' r rs Hin. apply (H name' r rs). right. exact Hin.
Qed.

(** C6, as the code has it. For children that are components or sequences
    of components, under distinct keys, with distinct identifiers that
    stand for themselves in a selector and with nodes none of which
    stands below another, where what the context holds or inherits under
    the key of a sequence is no object that a method of its own prints:
    the first loop gives the context, under the key of a
    sequence, one placeholder for each element, in order, appended to the
    string of the value read under that key, own or inherited from
    [Object.prototype], when that value is truthy, and under the key of a
    single child its placeholder, the key [__proto__] apart, and leaves
    every other key as it is; in the second loop the first element of
    the markup that carries the identifier of a child is replaced, where
    it stands, by the node of the child's [getContent()], the text [null]
    standing for a missing node, and a child whose placeholder is absent
    is passed over; when no child's node carries the identifier of a
    child, a child whose placeholder occurs at most once in the markup
    has none left in the result. *)
Theorem compile_composes_children (parseHTML : string -> DocumentFragment)
    (template : gmap string value -> string) (context : gmap string value)
    (b : Block) (cs : list (string * child)) :
  children b = child_entries cs ->
  NoDup (fst <$> cs) ->
  NoDup (ref_id <$> components cs) ->
  apart (components cs) ->
  Forall (fun r => selector_safe (ref_id r) = true) (components cs) ->
  (forall name r rs,
      (name, Sequence (r :: rs)) ∈ cs ->
      prints_plainly (ctx_get name context) = true) ->
  let ctx := fold_left with_stubs cs context in
  let markup := parseHTML (template ctx) in
  forEach_r add_stubs_for (children b) context = Value ctx
  /\ (forall name r rs,
        (name, Sequence (r :: rs)) ∈ cs ->
        name <> "__proto__" ->
        ctx !! name
        = Some (VStr (kept_prefix name context +:+ stubs_of (r :: rs)))
        /\ (context !! name = None ->
            Object_prototype name = VUndefined ->
            kept_prefix name context = ""))
  /\ (forall name r,
        (name, Single r) ∈ cs ->
        name <> "__proto__" ->
        ctx !! name = Some (VStr (stub_markup (VStr (ref_id r)))))
  /\ (forall name, name ∉ (fst <$> cs) -> ctx !! name = context !! name)
  /\ (forall content r,
        selector_safe (ref_id r) = true ->
        replace_stub content (VBlock r) = Value (substituted content r)
        /\ (querySelector (ref_id r) content = None ->
            substituted content r = content)
        /\ (forall stub,
              querySelector (ref_id r) content = Some stub ->
              (exists n, node_at stub content = Some n
                         /\ matches_data_id (ref_id r) n = true)
              /\ node_at stub (substituted content r)
                 = Some (node_or_text (ref_content r))))
  /\ exists content',
      compile parseHTML template context b = Value content'
      /\ forEach_r replace_stub (VBlock <$> components cs) markup
         = Value content'
      /\ ((forall r r',
              r ∈ components cs -> r' ∈ components cs ->
              count_data_id (ref_id r) (node_or_text (ref_content r')) = 0) ->
          forall r,
            r ∈ components cs ->
            count_stubs (ref_id r) markup <= 1 ->
            count_stubs (ref_id r) content' = 0).
Proof.
  intros Hc ND NDi _ Hsafe Hplain ctx markup.
  assert (E1 : forEach_r add_stubs_for (children b) context = Value ctx)
    by (rewrite Hc; apply add_stubs_children).
  split; [exact E1|]. split; [|split; [|split; [|split]]].
  - intros name r rs H Hn. split.
    + unfold ctx.
      rewrite (fold_with_stubs_lookup cs context name _ ND H).
      unfold with_stubs. cbn [fst snd].
      rewrite ctx_store_written by exact Hn. apply lookup_insert_eq.
    + intros Hown Hp. unfold kept_prefix, ctx_get. rewrite Hown, Hp.
      reflexivity.
  - intros name r H Hn. unfold ctx.
    rewrite (fold_with_stubs_lookup cs context name _ ND H).
    unfold with_stubs. cbn [fst snd].
    rewrite ctx_store_written by exact Hn. apply lookup_insert_eq.
  - intros name H. apply fold_with_stubs_other, H.
  - intros content r Hs. split; [apply replace_stub_block, Hs|]. split.
    + intros Q. unfold substituted. rewrite Q. reflexivity.
    + intros stub Q. destruct (querySelector_found _ _ _ Q) as (n & Hn & Hm).
      split; [exists n; auto|].
      unfold substituted. rewrite Q. eapply replaceWith_places, Hn.
  - destruct (replace_all (components cs) markup Hsafe)
      as (content' & E & _ & Hzero).
    exists content'. split; [|split; [exact E|]].
    + unfold compile. rewrite E1. cbn [mbind result_mbind result_bind].
      rewrite Hc, plain_slots_children by exact Hplain. cbn [negb].
      rewrite child_ids_children, repeats_NoDup by exact NDi.
      rewrite replace_stubs_children. exact E.
    + intros Hclean r Hr Hone. apply Hzero; [exact Hr| |exact Hone].
      intros r' Hr'. apply Hclean; assumption.
Qed.

(** ** The examples *)

(** The save button is built and rendered once. *)
Example save_button_constructed :
  new_Block (cls := LabelButton) 2 "btn001" [("label", VStr "Save")]
  = Normal tt save_button
  /\ getContent save_button = Some (button_node "Save")
  /\ emitted save_button = [(EVENTS_INIT, []); (EVENTS_FLOW_RENDER, [])]
  /\ document_ops save_button = [].
Proof. vm_compute. repeat split. Qed.

(** C1, where the code departs from it. The label of the save button is
    written again with the value it has: the comparison hook judges the
    props equal, and [setProps] still emits the render event and replaces
    the rendered node. *)
Theorem setProps_renders_when_judged_equal :
  setProps (cls := LabelButton) 2 same_label save_button
  = Normal tt resaved_button
  /\ map (asks_render (cls := LabelButton))
       (emissions EVENTS_FLOW_CDU (emitted resaved_button)) = [false]
  /\ emissions EVENTS_FLOW_RENDER (emitted resaved_button)
     = emissions EVENTS_FLOW_RENDER (emitted save_button) ++ [[]]
  /\ document_ops resaved_button
     = document_ops save_button
       ++ [ReplaceWith (button_node "Save") (button_node "Save")].
Proof. vm_compute. repeat split. Qed.

(** A label that differs is rendered twice: once for the hook, once at the
    end of [setProps]. *)
Example setProps_renders_a_new_label :
  setProps (cls := LabelButton) 2 new_label save_button
  = Normal tt saved_button
  /\ getContent saved_button = Some (button_node "Saved")
  /\ document_ops saved_button
     = [ReplaceWith (button_node "Save") (button_node "Saved");
        ReplaceWith (button_node "Saved") (button_node "Saved")].
Proof. vm_compute. repeat split. Qed.

(** A [Button] with the comparison hook [Block] defines: the write of one
    key renders once for the hook, which always asks for it, and once at
    the end of [setProps]. *)
Example button_is_rendered_and_relabelled :
  new_Block (cls := SaveButton) 2 "btn002"
    [("label", VStr "Save"); ("url", VStr "#")]
  = Normal tt plain_button
  /\ getContent plain_button = Some (button_node "Save")
  /\ setProps (cls := SaveButton) 2 new_label plain_button
     = Normal tt plain_button_saved
  /\ getContent plain_button_saved = Some (button_node "Saved")
  /\ fields (props plain_button_saved)
     = {["label" := VStr "Saved"; "url" := VStr "#"]}
  /\ map fst (emitted plain_button_saved)
     = [EVENTS_INIT; EVENTS_FLOW_RENDER; EVENTS_FLOW_CDU; EVENTS_FLOW_RENDER;
        EVENTS_FLOW_RENDER].
Proof. vm_compute. repeat split. Qed.

(** C2 fails as stated: a partial of two keys runs the update path twice,
    not once. *)
Lemma setProps_two_keys_two_updates :
  setProps (cls := LabelButton) 2 label_and_url save_button
  = Normal tt relabelled_button
  /\ length (emissions EVENTS_FLOW_CDU (emitted save_button)) = 0
  /\ length (emissions EVENTS_FLOW_CDU (emitted relabelled_button)) = 2
  /\ length (emissions EVENTS_FLOW_CDU (emitted relabelled_button)) <> 1.
Proof. vm_compute. repeat split. discriminate. Qed.

Lemma setProps_updates_each_key_witness :
  wired save_button
  /\ truthy label_and_url = true
  /\ own_entries label_and_url
     = Value [("label", VStr "Saved"); ("url", VStr "#")]
  /\ ("__proto__" ∉ (fst <$> [("label", VStr "Saved"); ("url", VStr "#")]))
  /\ setProps (cls := LabelButton) 2 label_and_url save_button
     = Normal tt relabelled_button
  /\ emissions EVENTS_FLOW_CDU (emitted relabelled_button)
     = emissions EVENTS_FLOW_CDU (emitted save_button)
       ++ updates_of (next_addr save_button) (props save_button)
            [("label", VStr "Saved"); ("url", VStr "#")]
  /\ emitted relabelled_button
     = emitted save_button
       ++ trace_of (cls := LabelButton) (next_addr save_button)
            (props save_button)
            [("label", VStr "Saved"); ("url", VStr "#")]
       ++ [(EVENTS_FLOW_RENDER, [])]
  /\ returns (setProps (cls := LabelButton) 2 label_and_url save_button)
     = true.
Proof.
  assert (W : wired save_button) by reflexivity.
  assert (T : truthy label_and_url = true) by reflexivity.
  assert (H : setProps (cls := LabelButton) 2 label_and_url save_button
              = Normal tt relabelled_button) by (vm_compute; reflexivity).
  assert (Np : "__proto__"
               ∉ (fst <$> [("label", VStr "Saved"); ("url", VStr "#")])).
  { vm_compute. intros Hin.
    repeat (apply elem_of_cons in Hin as [Hin|Hin]; [discriminate|]).
    inversion Hin. }
  destruct (setProps_updates_each_key (cls := LabelButton) 0 label_and_url
              [("label", VStr "Saved"); ("url", VStr "#")] save_button
              W T eq_refl Np) as (_ & Hcount & Hreturns & Htrace & _).
  split; [exact W|]. split; [exact T|]. split; [reflexivity|].
  split; [exact Np|]. split; [exact H|]. split; [exact (proj1 (Hcount relabelled_button H))|].
  split; [exact (Htrace relabelled_button H)|].
  destruct Hreturns as [b' Hb'].
  - intros s Hs.
    change (children save_button) with (@nil (string * value)) in Hs.
    unfold render, LabelButton, compile. rewrite Hs. eexists. reflexivity.
  - vm_compute. intros Hin.
    repeat (apply elem_of_cons in Hin as [Hin|Hin]; [discriminate|]).
    inversion Hin.
  - vm_compute. intros Hin.
    repeat (apply elem_of_cons in Hin as [Hin|Hin]; [discriminate|]).
    inversion Hin.
  - split; reflexivity.
  - rewrite Hb'. reflexivity.
Defined.

(** A call that throws: the class string of the second key starts with a
    space, the render its write asks for throws, and the third key is
    not written. *)
Example setProps_stops_in_the_middle :
  setProps (cls := SaveButton) 2 bad_classes plain_button
  = Throw (DOMException "SyntaxError") plain_button_broken
  /\ emitted plain_button_broken
     = emitted plain_button
       ++ trace_of (cls := SaveButton) (next_addr plain_button)
            (props plain_button)
            [("label", VStr "Saved"); ("classes", VStr " x")]
  /\ fields (props plain_button_broken) !! "url" = Some (VStr "#").
Proof. vm_compute. repeat split. Qed.

(** C4 fails as stated: after the construction of a [Block] with the
    render hook [Block] defines, which returns a fragment without element,
    the render event returns and [getContent()] is [null]; and a render
    hook that returns two root elements is not refused: the first is
    kept. *)
Lemma base_render_leaves_no_node :
  (new_Block (cls := Block_base) 2 "blk001" [] = Normal tt base_block
   /\ render (BlockClass := Block_base) base_block = Value []
   /\ emit (cls := Block_base) 1 EVENTS_FLOW_RENDER [] base_block
      = Normal tt base_block_rendered
   /\ getContent base_block_rendered = None)
  /\ (new_Block (cls := TwoRoots) 2 "two001" [] = Normal tt two_roots
      /\ render (BlockClass := TwoRoots) two_roots
         = Value [button_node "Save"; button_node "Saved"]
      /\ childElementCount [button_node "Save"; button_node "Saved"] = 2
      /\ emit (cls := TwoRoots) 1 EVENTS_FLOW_RENDER [] two_roots
         = Normal tt two_roots_rendered
      /\ getContent two_roots_rendered = Some (button_node "Save")).
Proof. vm_compute. repeat split. Qed.

Lemma render_keeps_first_element_witness :
  wired dressed_blank
  /\ render (BlockClass := SaveButton)
       (record_emit EVENTS_FLOW_RENDER [] dressed_blank)
     = Value [button_node "Save"]
  /\ emit (cls := SaveButton) 1 EVENTS_FLOW_RENDER [] dressed_blank
     = Normal tt dressed_button
  /\ getContent dressed_button
     = dressed dressed_blank <$> firstElementChild [button_node "Save"]
  /\ getContent dressed_button
     = Some (Element "button" [] ["primary"] None [("click", Fn "onClick")]
               [TextNode "Save"]).
Proof.
  assert (W : wired dressed_blank) by reflexivity.
  assert (R : render (BlockClass := SaveButton)
                (record_emit EVENTS_FLOW_RENDER [] dressed_blank)
              = Value [button_node "Save"]) by (vm_compute; reflexivity).
  assert (H : emit (cls := SaveButton) 1 EVENTS_FLOW_RENDER [] dressed_blank
              = Normal tt dressed_button) by (vm_compute; reflexivity).
  split; [exact W|]. split; [exact R|]. split; [exact H|].
  split; [|vm_compute; reflexivity].
  exact (proj1 (render_keeps_first_element (cls := SaveButton) 0
                  [button_node "Save"] dressed_blank W R)
           dressed_button H).
Defined.

(** A render hook that returns two root elements: the first is kept as
    it is, the props holding neither listeners nor classes. *)
Example two_roots_keep_the_first :
  emit (cls := TwoRoots) 1 EVENTS_FLOW_RENDER [] two_roots
  = Normal tt two_roots_rendered
  /\ getContent two_roots_rendered = Some (button_node "Save").
Proof. vm_compute. repeat split. Qed.


Lemma mount_renders_once_witness :
  wired save_button
  /\ componentDidMount (BlockClass := LabelButton)
       (record_emit EVENTS_FLOW_CDM [] save_button)
     = Normal tt (record_emit EVENTS_FLOW_CDM [] save_button)
  /\ final_state (dispatchComponentDidMount (cls := LabelButton) 2 save_button)
     = Some mounted_button
  /\ emitted mounted_button
     = emitted (record_emit EVENTS_FLOW_CDM [] save_button)
       ++ [(EVENTS_FLOW_RENDER, [])].
Proof.
  assert (W : wired save_button) by reflexivity.
  assert (H : final_state
                (dispatchComponentDidMount (cls := LabelButton) 2 save_button)
              = Some mounted_button) by (vm_compute; reflexivity).
  split; [exact W|]. split; [reflexivity|]. split; [exact H|].
  exact (proj2 (proj2 (mount_renders_once (cls := LabelButton) 0 save_button
                         W)
                  (record_emit EVENTS_FLOW_CDM [] save_button)
                  eq_refl eq_refl)
           mounted_button H).
Defined.

(** A mount of the save button: the mounted event, then one render event
    and one replacement of the node. *)
Example mount_of_the_save_button :
  dispatchComponentDidMount (cls := LabelButton) 2 save_button
  = Normal tt mounted_button
  /\ emitted mounted_button
     = emitted save_button
       ++ [(EVENTS_FLOW_CDM, []); (EVENTS_FLOW_RENDER, [])]
  /\ document_ops mounted_button
     = [ReplaceWith (button_node "Save") (button_node "Save")].
Proof. vm_compute. repeat split. Qed.

Lemma show_hide_without_node_witness :
  getContent base_block = None
  /\ show base_block
     = Throw TypeError base_block
  /\ hide base_block
     = Throw TypeError base_block.
Proof.
  split; [reflexivity|].
  exact (show_hide_without_node base_block eq_refl).
Defined.

(** C6 fails as stated: with a string already under the key of the
    sequence and a template that prints the slot twice, the context does
    not hold the placeholders alone, and the second placeholder of the
    child that was substituted is left in the result. *)
Lemma repeated_slot_leaves_stub :
  forEach_r add_stubs_for (children crowded_parent)
    (spread_props crowded_parent) = Value crowded_context
  /\ crowded_context !! "item" <> Some (VStr (stubs_of [leaf "a1" "one"]))
  /\ items_parser (twice_item crowded_context)
     = [TextNode "x"; stub_node "a1"; TextNode "x"; stub_node "a1"]
  /\ compile items_parser twice_item (spread_props crowded_parent)
       crowded_parent = Value crowded_content
  /\ node_at [1] crowded_content
     = Some (node_or_text (ref_content (leaf "a1" "one")))
  /\ count_stubs "a1" crowded_content = 1.
Proof. vm_compute. repeat split. discriminate. Qed.

Lemma compile_composes_children_witness :
  children list_parent = child_entries three_leaves
  /\ NoDup (fst <$> three_leaves)
  /\ NoDup (ref_id <$> components three_leaves)
  /\ apart (components three_leaves)
  /\ Forall (fun r => selector_safe (ref_id r) = true)
       (components three_leaves)
  /\ (forall name r rs,
        (name, Sequence (r :: rs)) ∈ three_leaves ->
        prints_plainly (ctx_get name ∅) = true)
  /\ fold_left with_stubs three_leaves ∅ !! "item"
     = Some (VStr (stubs_of
                     [leaf "a1" "one"; leaf "a2" "two"; leaf "a3" "three"]))
  /\ compile items_parser list_of_items ∅ list_parent = Value composed_list
  /\ count_stubs "a1" composed_list = 0
  /\ count_stubs "a2" composed_list = 0
  /\ count_stubs "a3" composed_list = 0.
Proof.
  assert (NDi : NoDup (ref_id <$> components three_leaves)).
  { vm_compute.
    repeat (apply NoDup_cons; split;
            [let H := fresh in
             intros H;
             repeat (apply elem_of_cons in H as [H|H]; [discriminate|]);
             inversion H|]).
    apply NoDup_nil. exact I. }
  assert (Hplain : forall name r rs,
             (name, Sequence (r :: rs)) ∈ three_leaves ->
             prints_plainly (ctx_get name ∅) = true).
  { intros name r rs H. apply list_elem_of_singleton in H.
    injection H as -> _. reflexivity. }
  assert (Hsafe : Forall (fun r => selector_safe (ref_id r) = true)
                    (components three_leaves))
    by (repeat constructor).
  assert (Hapart : apart (components three_leaves)).
  { intros r r' n n' Hr Hr' En En' Hb. vm_compute in Hr, Hr'.
    repeat (apply elem_of_cons in Hr as [->|Hr]);
      try (inversion Hr);
      repeat (apply elem_of_cons in Hr' as [->|Hr']);
      try (inversion Hr');
      cbn in En, En'; injection En as En; injection En' as En';
      subst n n';
      inversion Hb as [? ? ? ? ? ? ? Hin|? ? ? ? ? ? ? ? Hin Hk]; subst;
      destruct Hin as [Hin|[]]; try discriminate Hin;
      subst; inversion Hk. }
  split; [reflexivity|]. split; [apply NoDup_singleton|].
  split; [exact NDi|]. split; [exact Hapart|]. split; [exact Hsafe|].
  split; [exact Hplain|].
  destruct (compile_composes_children items_parser list_of_items ∅
              list_parent three_leaves eq_refl (NoDup_singleton "item") NDi
              Hapart Hsafe Hplain)
    as (_ & Hseq & _ & _ & _ & content & Hc & _ & Hz).
  split.
  { apply (Hseq "item" (leaf "a1" "one")
             [leaf "a2" "two"; leaf "a3" "three"]);
      [vm_compute; left|discriminate]. }
  assert (E : content = composed_list)
    by (vm_compute in Hc; injection Hc as <-; reflexivity).
  rewrite E in Hc, Hz.
  assert (Hclean : forall r r',
             r ∈ components three_leaves -> r' ∈ components three_leaves ->
             count_data_id (ref_id r) (node_or_text (ref_content r')) = 0).
  { intros r1 r2 H1 H2. vm_compute in H1, H2.
    repeat (apply elem_of_cons in H1 as [->|H1]);
      repeat (apply elem_of_cons in H2 as [->|H2]);
      try reflexivity; try (inversion H1); inversion H2. }
  split; [exact Hc|].
  split; [|split].
  - apply (Hz Hclean (leaf "a1" "one")); [vm_compute; left|vm_compute; lia].
  - apply (Hz Hclean (leaf "a2" "two"));
      [vm_compute; right; left|vm_compute; lia].
  - apply (Hz Hclean (leaf "a3" "three"));
      [vm_compute; right; right; left|vm_compute; lia].
Defined.

(** A key the context inherits a value under: the placeholders of a
    sequence under [toString] follow the text of the inherited method. *)
Example inherited_value_is_kept :
  kept_prefix "toString" ∅ = "function toString() { [native code] }"
  /\ forEach_r add_stubs_for [("toString", VArr [VBlock (leaf "a1" "one")])] ∅
     = Value {["toString" :=
                 VStr ("function toString() { [native code] }"
                       +:+ "<div data-id='a1'></div>")]}.
Proof. vm_compute. split; reflexivity. Qed.

(** A number of 22 digits prints in exponent form. *)
Example large_number_in_exponent_form :
  ToString (VNum (10 ^ 21)) = "1e+21"
  /\ ToString (VNum (2 ^ 60)) = "1152921504606847000"
  /\ ToString (VNum (2 ^ 53 - 1)) = "9007199254740991".
Proof. vm_compute. repeat split. Qed.

(** * Further properties of the code *)

(** ** The partition of the bag, in order *)

Lemma obj_set_fresh key v o :
  obj_get key o = None -> obj_set key v o = o ++ [(key, v)].
Proof.
  induction o as [|[k w] o IH]; cbn [obj_get obj_set]; [reflexivity|].
  destruct (String.eqb k key); [discriminate|].
  intros H. rewrite (IH H). reflexivity.
Qed.

Lemma obj_set_twice key v o : obj_set key v (obj_set key v o) = obj_set key v o.
Proof.
  induction o as [|[k w] o IH]; cbn [obj_set].
  - rewrite String.eqb_refl. reflexivity.
  - destruct (String.eqb k key) eqn:E; cbn [obj_set]; rewrite E;
      [reflexivity|]. rewrite IH. reflexivity.
Qed.

Lemma obj_get_app_fresh key key' v o :
  key' <> key -> obj_get key o = None -> obj_get key (o ++ [(key', v)]) = None.
Proof.
  intros N. induction o as [|[k w] o IH]; cbn [obj_get app].
  - destruct (String.eqb_spec key' key); [congruence|reflexivity].
  - destruct (String.eqb k key); [discriminate|exact IH].
Qed.

Lemma store_if_block key value items : forall ch,
  fold_left
    (fun ch val => if instanceof_Block val then obj_set key value ch else ch)
    items ch
  = if existsb instanceof_Block items then obj_set key value ch else ch.
Proof.
  induction items as [|val items IH]; intros ch; cbn [fold_left existsb];
    [reflexivity|].
  rewrite IH. destruct (instanceof_Block val); cbn [orb]; [|reflexivity].
  rewrite obj_set_twice. destruct (existsb _ items); reflexivity.
Qed.

Lemma route_children acc entry :
  snd (route acc entry)
  = if goes_to_children entry then obj_set (fst entry) (snd entry) (snd acc)
    else snd acc.
Proof.
  destruct acc as [ps cs], entry as [k v]. unfold goes_to_children.
  destruct v; cbn [route routed_as fst snd]; try reflexivity.
  rewrite store_if_block. destruct (existsb instanceof_Block items);
    reflexivity.
Qed.

Lemma children_keep_order bag : forall acc,
  NoDup (fst <$> bag) ->
  (forall k, k ∈ (fst <$> bag) -> obj_get k (snd acc) = None) ->
  snd (fold_left route bag acc)
  = snd acc ++ filter (fun e => goes_to_children e = true) bag.
Proof.
  induction bag as [|[k v] bag IH]; intros acc ND F.
  - cbn. rewrite app_nil_r. reflexivity.
  - rewrite fmap_cons in ND. apply NoDup_cons in ND. destruct ND as [N1 N2].
    cbn [fold_left]. rewrite IH; [|exact N2|].
    + rewrite route_children. cbn [fst snd]. rewrite filter_cons.
      destruct (goes_to_children (k, v)) eqn:G.
      * rewrite decide_True by reflexivity.
        rewrite obj_set_fresh by (apply F; rewrite fmap_cons; left).
        rewrite <- app_assoc. reflexivity.
      * rewrite decide_False by discriminate. reflexivity.
    + intros k' Hk'. rewrite route_children. cbn [fst snd].
      assert (Hn : obj_get k' (snd acc) = None)
        by (apply F; rewrite fmap_cons; right; exact Hk').
      destruct (goes_to_children (k, v)); [|exact Hn].
      rewrite obj_set_fresh by (apply F; rewrite fmap_cons; left).
      apply obj_get_app_fresh; [|exact Hn].
      cbn in N1. intros ->. apply N1, Hk'.
Qed.

Lemma distinct_keys_agree (bag : entries) k v v' :
  NoDup (fst <$> bag) -> (k, v) ∈ bag -> (k, v') ∈ bag -> v' = v.
Proof.
  intros ND Hkv He. induction bag as [|e bag IH]; [inversion He|].
  rewrite fmap_cons in ND. apply NoDup_cons in ND. destruct ND as [N1 N2].
  apply elem_of_cons in Hkv, He.
  destruct Hkv as [<-|Hkv], He as [He|He].
  - congruence.
  - exfalso. apply N1. apply (list_elem_of_fmap_2 fst) in He. exact He.
  - subst e. exfalso. apply N1.
    apply (list_elem_of_fmap_2 fst) in Hkv. exact Hkv.
  - apply IH; assumption.
Qed.

Lemma filter_keys_NoDup (P : string * value -> Prop)
    `{forall e, Decision (P e)} (bag : list (string * value)) :
  NoDup (fst <$> bag) -> NoDup (fst <$> filter P bag).
Proof.
  intros ND. induction bag as [|e bag IH]; [constructor|].
  rewrite fmap_cons in ND. apply NoDup_cons in ND. destruct ND as [N1 N2].
  rewrite filter_cons. case_decide; [|apply IH, N2].
  rewrite fmap_cons. apply NoDup_cons. split; [|apply IH, N2].
  intros Hin. apply N1. apply list_elem_of_fmap in Hin.
  destruct Hin as (e' & -> & He'). apply list_elem_of_filter in He'.
  apply list_elem_of_fmap_2, He'.
Qed.

Lemma children_are_filtered bag :
  NoDup (fst <$> bag) ->
  snd (_getChildrenAndProps bag)
  = filter (fun e => goes_to_children e = true) bag.
Proof.
  intros ND. unfold _getChildrenAndProps. rewrite children_keep_order;
    [reflexivity|exact ND|reflexivity].
Qed.

Lemma props_are_collected bag :
  NoDup (fst <$> bag) ->
  fst (_getChildrenAndProps bag)
  = list_to_map (filter (fun e => goes_to_props e = true) bag).
Proof.
  intros ND. apply map_eq. intros k.
  set (plain := filter (fun e => goes_to_props e = true) bag).
  assert (NDp : NoDup (fst <$> plain)) by (apply filter_keys_NoDup, ND).
  assert (Hnot : forall v, (k, v) ∈ bag -> routed_as v <> Some true ->
                           (list_to_map plain : gmap string value) !! k = None).
  { intros v Hkv Er. apply not_elem_of_list_to_map_1.
    intros Hin. apply list_elem_of_fmap in Hin.
    destruct Hin as ([k2 v2] & E & He). cbn in E. subst k2.
    apply list_elem_of_filter in He. destruct He as [G He].
    rewrite (distinct_keys_agree bag k v v2 ND Hkv He) in G.
    unfold goes_to_props in G. cbn [snd] in G.
    destruct (routed_as v) as [[|]|]; congruence. }
  destruct (decide (k ∈ (fst <$> bag))) as [Hin|Hout].
  - apply list_elem_of_fmap in Hin. destruct Hin as ([k' v] & -> & Hkv).
    cbn [fst] in *.
    pose proof (getChildrenAndProps_routes bag k' v ND Hkv) as R.
    cbv zeta in R.
    destruct (routed_as v) as [[|]|] eqn:Er.
    + destruct R as [-> _]. symmetry.
      apply elem_of_list_to_map_1; [exact NDp|].
      apply list_elem_of_filter. split; [|exact Hkv].
      unfold goes_to_props. cbn [snd]. rewrite Er. reflexivity.
    + destruct R as [-> _]. symmetry. apply (Hnot v Hkv). rewrite Er.
      discriminate.
    + destruct R as [-> _]. symmetry. apply (Hnot v Hkv). rewrite Er.
      discriminate.
  - destruct (fold_route_other bag (∅, []) k Hout) as [E _].
    unfold _getChildrenAndProps. rewrite E. cbn [fst]. rewrite lookup_empty.
    symmetry. apply not_elem_of_list_to_map_1.
    intros Hin. apply Hout. apply list_elem_of_fmap in Hin.
    destruct Hin as (e & -> & He). apply list_elem_of_filter in He.
    apply list_elem_of_fmap_2, He.
Qed.

(** X1. When the keys of the bag are distinct and [__proto__] is none of
    them, [_getChildrenAndProps] keeps the order of the bag: the children
    are the entries that hold a component or an array with a component in
    it, in the order of the bag, and the props are the entries that hold
    anything but a component or an array; an array without component is
    in neither. *)
Theorem partition_keeps_order bag :
  NoDup (fst <$> bag) ->
  "__proto__" ∉ (fst <$> bag) ->
  snd (_getChildrenAndProps bag)
  = filter (fun e => goes_to_children e = true) bag
  /\ fst (_getChildrenAndProps bag)
     = list_to_map (filter (fun e => goes_to_props e = true) bag).
Proof.
  intros ND _. split; [apply children_are_filtered|apply props_are_collected];
    exact ND.
Qed.

(** ** What a render replaces *)

Lemma shell_removeEventListener type cb el el' :
  removeEventListener type cb el = Value el' -> shell el' = shell el.
Proof.
  unfold removeEventListener.
  destruct (as_listener cb) as [[f|]| |]; try discriminate.
  - destruct el; intros [= <-]; reflexivity.
  - intros [= <-]. reflexivity.
Qed.

Lemma same_shell_refl b : same_shell b b.
Proof. reflexivity. Qed.

Lemma same_shell_trans a b c :
  same_shell a b -> same_shell b c -> same_shell a c.
Proof. unfold same_shell. congruence. Qed.

Lemma removeEvents_same_shell : keeps same_shell _removeEvents.
Proof.
  intros b b'. unfold _removeEvents.
  destruct (own_entries (props_events b)) as [evs|e|]; simpl;
    try discriminate.
  - apply keeps_forEach; [apply same_shell_refl|apply same_shell_trans|].
    intros [name cb] s s'.
    destruct (_element s) as [el|] eqn:Es; simpl.
    + destruct (removeEventListener name cb el) as [el'| |] eqn:Ea; simpl;
        try discriminate; intros [= <-]; unfold same_shell;
        cbn [_element set_element]; rewrite Es; [|reflexivity].
      cbn. f_equal. eapply shell_removeEventListener, Ea.
    + intros [= <-]. apply same_shell_refl.
  - intros [= <-]. apply same_shell_refl.
Qed.

Section Loops.
Variable R : Block -> Block -> Prop.
Hypothesis R_refl : forall b, R b b.
Hypothesis R_trans : forall a b c, R a b -> R b c -> R a c.
Hypothesis R_set_element : forall e b, R b (set_element e b).

Lemma addEvents_keeps : keeps R _addEvents.
Proof.
  intros b b'. unfold _addEvents.
  destruct (own_entries (props_events b)) as [evs|e|]; simpl;
    try discriminate.
  - apply keeps_forEach; [exact R_refl|exact R_trans|].
    intros [name cb] s s'. destruct (_element s) as [el|]; simpl.
    + destruct (addEventListener name cb el); simpl; try discriminate;
        intros [= <-]; [apply R_set_element|apply R_refl].
    + intros [= <-]. apply R_refl.
  - intros [= <-]. apply R_refl.
Qed.

Lemma removeEvents_keeps : keeps R _removeEvents.
Proof.
  intros b b'. unfold _removeEvents.
  destruct (own_entries (props_events b)) as [evs|e|]; simpl;
    try discriminate.
  - apply keeps_forEach; [exact R_refl|exact R_trans|].
    intros [name cb] s s'. destruct (_element s) as [el|]; simpl.
    + destruct (removeEventListener name cb el); simpl; try discriminate;
        intros [= <-]; [apply R_set_element|apply R_refl].
    + intros [= <-]. apply R_refl.
  - intros [= <-]. apply R_refl.
Qed.

Lemma addClass_keeps : keeps R _addClass.
Proof.
  intros b b'. unfold _addClass.
  destruct (negb (truthy (props_classes b))); simpl.
  { intros [= <-]. apply R_refl. }
  destruct (classes_split (props_classes b)) as [arr|e|]; simpl;
    try discriminate.
  - apply keeps_forEach; [exact R_refl|exact R_trans|].
    intros name s s'. destruct (_element s) as [el|]; simpl.
    + destruct (classList_add name el); simpl; try discriminate;
        intros [= <-]; [apply R_set_element|apply R_refl].
    + intros [= <-]. apply R_refl.
  - intros [= <-]. apply R_refl.
Qed.
End Loops.

Lemma same_document_refl b : same_document b b.
Proof. reflexivity. Qed.

Lemma same_document_trans a b c :
  same_document a b -> same_document b c -> same_document a c.
Proof. unfold same_document. congruence. Qed.

Lemma same_document_set_element e b : same_document b (set_element e b).
Proof. reflexivity. Qed.

Section RenderProperties.
Context {cls : BlockClass}.

(** X11. A render event that returns calls [replaceWith] once on the root
    the instance holds, when it holds one: the root, which has the tag,
    the attributes, the class list and the display it was rendered with,
    is replaced by the first element of the fragment, or by the text
    [null] when there is none; on an instance without children the nodes
    below the root are those it was rendered with as well. On the first
    render no replacement is made. *)
Theorem render_replaces_once fuel fragment b :
  wired b ->
  render (record_emit EVENTS_FLOW_RENDER [] b) = Value fragment ->
  forall b',
    emit (S fuel) EVENTS_FLOW_RENDER [] b = Normal tt b' ->
    match _element b with
    | None => document_ops b' = document_ops b
    | Some old =>
        exists old',
          shell old' = shell old
          /\ (children b = [] -> undecorated old' = undecorated old)
          /\ document_ops b'
             = document_ops b
               ++ [ReplaceWith old' (node_or_text (firstElementChild fragment))]
    end.
Proof.
  intros W R b'. rewrite emit_render by exact W. unfold _render. rewrite R.
  intros H.
  apply bind_Normal in H. destruct H as ([] & b1 & H1 & H).
  apply bind_Normal in H. destruct H as ([] & b2 & H2 & H).
  apply bind_Normal in H. destruct H as ([] & b3 & H3 & H4).
  injection H2 as <-.
  assert (D3 : same_document (set_element (firstElementChild fragment) b1) b3).
  { apply (addEvents_keeps same_document same_document_refl
             same_document_trans same_document_set_element).
    rewrite H3. reflexivity. }
  assert (D4 : same_document b3 b').
  { apply (addClass_keeps same_document same_document_refl
             same_document_trans same_document_set_element).
    rewrite H4. reflexivity. }
  unfold same_document in D3, D4. cbn [set_element document_ops] in D3.
  change (_element (record_emit EVENTS_FLOW_RENDER [] b)) with (_element b)
    in H1.
  destruct (_element b) as [old|] eqn:Eo.
  - apply bind_Normal in H1. destruct H1 as ([] & b0 & H0 & H1).
    assert (K : decorated (record_emit EVENTS_FLOW_RENDER [] b) b0)
      by (apply removeEvents_decorates; rewrite H0; reflexivity).
    assert (Sh : same_shell (record_emit EVENTS_FLOW_RENDER [] b) b0)
      by (apply removeEvents_same_shell; rewrite H0; reflexivity).
    assert (D0 : same_document (record_emit EVENTS_FLOW_RENDER [] b) b0).
    { apply (removeEvents_keeps same_document same_document_refl
               same_document_trans same_document_set_element).
      rewrite H0. reflexivity. }
    destruct K as [_ N0]. unfold same_node in N0. unfold same_shell in Sh.
    cbn [record_emit _element] in N0, Sh. rewrite Eo in N0, Sh.
    destruct (_element b0) as [old'|] eqn:E0; [|discriminate].
    injection H1 as <-. injection N0 as N0. injection Sh as Sh.
    exists old'. split; [exact Sh|]. split; [intros _; exact N0|].
    rewrite D4, D3. cbn [record_dom document_ops]. rewrite D0. reflexivity.
  - injection H1 as <-. rewrite D4, D3. reflexivity.
Qed.

Lemma first_render_keeps_document b b' :
  _element b = None ->
  final_state (_render b) = Some b' ->
  document_ops b' = document_ops b.
Proof.
  intros E. unfold _render.
  destruct (render b) as [fragment|e|]; simpl; try discriminate.
  2:{ intros [= <-]. reflexivity. }
  rewrite E.
  apply (keeps_bind same_document same_document_trans).
  - apply keeps_ret, same_document_refl.
  - intros _. apply (keeps_bind same_document same_document_trans).
    + intros s s' [= <-]. reflexivity.
    + intros _. apply (keeps_bind same_document same_document_trans).
      * apply (addEvents_keeps same_document same_document_refl
                 same_document_trans same_document_set_element).
      * intros _.
        apply (addClass_keeps same_document same_document_refl
                 same_document_trans same_document_set_element).
Qed.

(** X12. When the render hook of an instance that has a node, and
    neither [events] nor [classes] among its props, returns a fragment
    without element, the render event returns, [replaceWith] puts the
    text [null] in the place of the root, [getContent()] becomes [null],
    and the render event that follows, however it ends, replaces nothing,
    the instance holding no node. *)
Theorem empty_render_loses_the_node fuel fragment old b :
  wired b ->
  _element b = Some old ->
  render (record_emit EVENTS_FLOW_RENDER [] b) = Value fragment ->
  firstElementChild fragment = None ->
  plain_props (fields (props b)) ->
  exists b',
    emit (S fuel) EVENTS_FLOW_RENDER [] b = Normal tt b'
    /\ getContent b' = None
    /\ (exists old',
          shell old' = shell old
          /\ (children b = [] -> old' = old)
          /\ document_ops b'
             = document_ops b ++ [ReplaceWith old' (TextNode "null")])
    /\ forall fuel' b'',
        final_state (emit (S fuel') EVENTS_FLOW_RENDER [] b') = Some b'' ->
        document_ops b'' = document_ops b'.
Proof.
  intros W Eo R F [He Hc].
  set (b0 := record_emit EVENTS_FLOW_RENDER [] b).
  exists (set_element None (record_dom (ReplaceWith old (TextNode "null")) b0)).
  split; [|split; [reflexivity|split]].
  - rewrite emit_render by exact W. unfold _render. subst b0. rewrite R, F.
    change (_element (record_emit EVENTS_FLOW_RENDER [] b))
      with (_element b). rewrite Eo.
    unfold bind at 1. unfold bind at 1.
    rewrite removeEvents_without_events by exact He.
    change (_element (record_emit EVENTS_FLOW_RENDER [] b))
      with (_element b). rewrite Eo.
    unfold bind, modify.
    rewrite addEvents_without_events by exact He.
    rewrite addClass_without_classes by exact Hc. reflexivity.
  - exists old. repeat split.
  - intros fuel' b'' H. rewrite emit_render in H by exact W.
    apply first_render_keeps_document in H; [exact H|reflexivity].
Qed.
End RenderProperties.

(** ** The constructor *)

Lemma new_Block_starts {cls : BlockClass} fuel id bag :
  new_Block fuel id bag
  = emit fuel EVENTS_INIT []
      (blank id (fst (_getChildrenAndProps bag))
         (snd (_getChildrenAndProps bag))).
Proof. unfold new_Block. destruct (_getChildrenAndProps bag). reflexivity. Qed.

Lemma assign_lookup_other es : forall (m : gmap string value) k,
  k ∉ (fst <$> es) -> assign es m !! k = m !! k.
Proof.
  induction es as [|[k' v] es IH]; intros m k H; [reflexivity|].
  rewrite fmap_cons, not_elem_of_cons in H. destruct H as [H1 H2].
  unfold assign. cbn [fold_left fst snd]. fold (assign es (<[k' := v]> m)).
  rewrite IH by exact H2. apply lookup_insert_ne. cbn in H1. congruence.
Qed.


(** A bag without component: the entries that are no arrays go to the
    props, in order, and the arrays are dropped. *)
Lemma childless_bag_partition bag : forall ps cs,
  Forall (fun e => goes_to_children e = false) bag ->
  fold_left route bag (ps, cs)
  = (assign (filter (fun e => goes_to_props e = true) bag) ps, cs).
Proof.
  induction bag as [|[k v] bag IH]; intros ps cs F; [reflexivity|].
  apply Forall_cons in F. destruct F as [F1 F2].
  cbn [fold_left]. rewrite filter_cons.
  unfold goes_to_children in F1. cbn [snd] in F1.
  destruct (goes_to_props (k, v)) eqn:G.
  - rewrite decide_True by reflexivity. rewrite assign_cons.
    rewrite <- (IH _ cs F2). f_equal.
    unfold goes_to_props in G. cbn [snd] in G.
    destruct v; cbn [route routed_as] in G |- *; try reflexivity;
      try discriminate G.
    destruct (existsb instanceof_Block items); discriminate G.
  - rewrite decide_False by discriminate.
    rewrite <- (IH ps cs F2). f_equal.
    unfold goes_to_props in G. cbn [snd] in G.
    destruct v; cbn [route routed_as] in F1, G |- *; try discriminate.
    rewrite store_if_block.
    destruct (existsb instanceof_Block items); [discriminate F1|reflexivity].
Qed.

Lemma filter_keys_absent (P : string * value -> Prop)
    `{forall e, Decision (P e)} (bag : list (string * value)) key :
  key ∉ (fst <$> bag) -> key ∉ (fst <$> filter P bag).
Proof.
  intros Hk Hin. apply Hk. apply list_elem_of_fmap in Hin.
  destruct Hin as (e & -> & He). apply list_elem_of_filter in He.
  apply list_elem_of_fmap_2, He.
Qed.

Section ButtonConstruction.
Variable parseHTML : string -> DocumentFragment.
Variable template : gmap string value -> string.

(** X3. [new Button(props)] with props that hold no component, alone or
    in an array, and none of the keys [events], [classes] and
    [__proto__], returns: the instance has the props that are no arrays,
    an array being dropped, and no children; its node is the first
    element of the markup the template makes of those props, the
    functions among them bound; [init] and [flow:render] were emitted
    once each, and no replacement was made. *)
Theorem button_renders_its_template fuel id bag :
  Forall (fun e => goes_to_children e = false) bag ->
  "events" ∉ (fst <$> bag) -> "classes" ∉ (fst <$> bag) ->
  "__proto__" ∉ (fst <$> bag) ->
  exists b,
    new_Block (cls := Button parseHTML template) (S (S fuel)) id bag
    = Normal tt b
    /\ fields (props b)
       = assign (filter (fun e => goes_to_props e = true) bag) ∅
    /\ children b = []
    /\ getContent b
       = firstElementChild
           (parseHTML
              (template
                 (bind_if_function
                    <$> assign (filter (fun e => goes_to_props e = true) bag)
                          ∅)))
    /\ emitted b = [(EVENTS_INIT, []); (EVENTS_FLOW_RENDER, [])]
    /\ document_ops b = [].
Proof.
  intros F Ne Nc _. rewrite new_Block_starts.
  unfold _getChildrenAndProps. rewrite (childless_bag_partition bag ∅ [] F).
  cbn [fst snd].
  set (plain := filter (fun e => goes_to_props e = true) bag).
  set (b0 := blank id (assign plain ∅) []).
  set (frag := parseHTML (template (bind_if_function <$> assign plain ∅))).
  exists (set_element (firstElementChild frag)
            (record_emit EVENTS_FLOW_RENDER [] (record_emit EVENTS_INIT [] b0))).
  split; [|repeat split].
  rewrite emit_init by reflexivity.
  unfold _init, _createResources. unfold bind at 1. unfold ret at 1.
  unfold bind at 1.
  change (init (record_emit EVENTS_INIT [] b0))
    with (Normal tt (record_emit EVENTS_INIT [] b0)).
  cbv iota beta.
  rewrite emit_render by reflexivity. unfold _render.
  change (render _) with (Value frag).
  cbv iota beta zeta.
  unfold bind, ret, modify.
  assert (He : fields (props (set_element (firstElementChild frag)
                 (record_emit EVENTS_FLOW_RENDER []
                    (record_emit EVENTS_INIT [] b0)))) !! "events" = None).
  { cbn. rewrite assign_lookup_other
      by (apply filter_keys_absent, Ne). apply lookup_empty. }
  assert (Hc : fields (props (set_element (firstElementChild frag)
                 (record_emit EVENTS_FLOW_RENDER []
                    (record_emit EVENTS_INIT [] b0)))) !! "classes" = None).
  { cbn. rewrite assign_lookup_other
      by (apply filter_keys_absent, Nc). apply lookup_empty. }
  cbn [_element record_emit b0 blank].
  rewrite addEvents_without_events by exact He.
  rewrite addClass_without_classes by exact Hc. reflexivity.
Qed.
End ButtonConstruction.

Section ConstructorProperties.
Context {cls : BlockClass}.

(** X2. A constructor call of a class whose [init] hook leaves the
    instance as it is, as the one [Block] defines does, leaves, however
    the first render ends, an instance wired to the four lifecycle
    events, with the identifier, the props and the children of the
    partition of its bag, that has emitted [init] and then [flow:render],
    once each, and has replaced nothing in the document. *)
Theorem constructor_renders_once fuel id bag b :
  (forall s, init s = Normal tt s) ->
  final_state (new_Block (S (S fuel)) id bag) = Some b ->
  wired b /\ allocated b /\ _id b = id
  /\ props b = mkObj 0 (fst (_getChildrenAndProps bag))
  /\ children b = snd (_getChildrenAndProps bag)
  /\ emitted b = [(EVENTS_INIT, []); (EVENTS_FLOW_RENDER, [])]
  /\ document_ops b = [].
Proof.
  intros Hinit. rewrite new_Block_starts.
  set (b0 := blank id _ _).
  rewrite emit_init by reflexivity.
  unfold _init, _createResources, bind at 1, ret.
  unfold bind. rewrite Hinit. rewrite emit_render by reflexivity.
  intros H.
  pose proof (first_render_keeps_document
                (record_emit EVENTS_FLOW_RENDER []
                   (record_emit EVENTS_INIT [] b0)) b eq_refl H) as D.
  apply render_keeps_store in H.
  destruct H as (Hi & Hp & Hc & Hb & Hn & He). cbn in *.
  unfold wired, allocated. rewrite Hb, Hp, Hn, Hi, Hc, He, D. cbn.
  repeat split. lia.
Qed.

(** X8. [setProps] with a truthy argument that has no own enumerable
    key (an empty object, a number, [true], a function) writes nothing
    and is one render: the props are left as they are and [flow:render]
    is emitted once. *)
Theorem setProps_without_keys_renders fuel nextProps b :
  wired b ->
  truthy nextProps = true ->
  own_entries nextProps = Value [] ->
  setProps (S fuel) nextProps b
  = _render (record_emit EVENTS_FLOW_RENDER [] b)
  /\ forall b',
      final_state (setProps (S fuel) nextProps b) = Some b' ->
      props b' = props b
      /\ emitted b' = emitted b ++ [(EVENTS_FLOW_RENDER, [])].
Proof.
  intros W T E.
  assert (Q : setProps (S fuel) nextProps b
              = _render (record_emit EVENTS_FLOW_RENDER [] b)).
  { unfold setProps. rewrite T, E. cbn [negb]. unfold bind at 1, lift.
    cbn [forEach]. unfold bind at 1, ret.
    apply emit_render, W. }
  split; [exact Q|]. rewrite Q. intros b' H.
  apply render_keeps_store in H. destruct H as (_ & Hp & _ & _ & _ & He).
  split; assumption.
Qed.
End ConstructorProperties.

(** ** Reads and writes of the props *)


Lemma filter_all {A} (P : A -> Prop) `{forall x, Decision (P x)} (l : list A) :
  Forall P l -> filter P l = l.
Proof.
  induction 1 as [|x l Hx _ IH]; [reflexivity|].
  rewrite filter_cons, decide_True by exact Hx. rewrite IH. reflexivity.
Qed.

Section UpdateProperties.
Context {cls : BlockClass}.




(** What [setProps] is made of, when it returns. *)
Lemma setProps_Normal fuel nextProps es b b' :
  wired b ->
  truthy nextProps = true ->
  own_entries nextProps = Value es ->
  setProps (S (S fuel)) nextProps b = Normal tt b' ->
  exists b1,
    forEach (fun '(key, v) => proxy_set (S (S fuel)) key v) es b
    = Normal tt b1
    /\ wired b1
    /\ final_state (_render (record_emit EVENTS_FLOW_RENDER [] b1)) = Some b'.
Proof.
  intros W T E H. unfold setProps in H. rewrite T, E in H.
  cbn [negb] in H.
  apply bind_Normal in H. destruct H as (es' & b0 & H0 & H).
  cbn in H0. injection H0 as <- <-.
  apply bind_Normal in H. destruct H as ([] & b1 & H1 & H2).
  destruct (assign_final fuel es b b1 W H1) as (W1 & _).
  exists b1. split; [exact H1|]. split; [exact W1|].
  rewrite emit_render in H2 by exact W1. rewrite H2. reflexivity.
Qed.


Lemma updates_all_ask es : forall next target,
  (forall o n, componentDidUpdate (Some o) (Some n)
               = negb (Nat.eqb (addr o) (addr n))) ->
  addr target < next ->
  Forall (fun a => asks_render a = true) (updates_of next target es).
Proof.
  induction es as [|[k v] es IH]; intros next target Hh Hlt; [constructor|].
  cbn [updates_of]. constructor.
  - unfold asks_render. cbn [lookup list_lookup]. rewrite Hh. cbn [addr].
    destruct (Nat.eqb_spec next (addr target)); [lia|reflexivity].
  - apply IH; [exact Hh|]. cbn [addr]. lia.
Qed.

(** X9. With the comparison hook [Block] defines, reference inequality,
    a [setProps] of n keys that returns has rendered n + 1 times: the
    snapshot is never the target, so every write renders, and one more
    render ends the call. *)
Theorem inherited_hook_renders_each_key fuel nextProps es b b' :
  (forall o n, componentDidUpdate (Some o) (Some n)
               = negb (Nat.eqb (addr o) (addr n))) ->
  wired b ->
  allocated b ->
  truthy nextProps = true ->
  own_entries nextProps = Value es ->
  setProps (S (S fuel)) nextProps b = Normal tt b' ->
  length (emissions EVENTS_FLOW_RENDER (emitted b'))
  = length (emissions EVENTS_FLOW_RENDER (emitted b)) + length es + 1.
Proof.
  intros Hh W A T E H.
  destruct (setProps_Normal fuel nextProps es b b' W T E H)
    as (b1 & H1 & W1 & H2).
  destruct (assign_final fuel es b b1 W H1) as (_ & _ & _ & Hr).
  apply render_keeps_store in H2. destruct H2 as (_ & _ & _ & _ & _ & He).
  cbn in He. rewrite He, emissions_app, Hr, emissions_one_eq.
  rewrite filter_all by (apply updates_all_ask; assumption).
  rewrite !length_app, length_map, length_updates_of. cbn [length]. lia.
Qed.

End UpdateProperties.

(** ** The class list *)

Lemma string_in_elem t (l : list string) : string_in t l = true <-> t ∈ l.
Proof.
  unfold string_in. rewrite existsb_exists. split.
  - intros (x & Hx & E). apply String.eqb_eq in E. subst x.
    apply list_elem_of_In, Hx.
  - intros H. exists t. split; [apply list_elem_of_In, H|apply String.eqb_refl].
Qed.

Lemma split_space_aux_cons cur s :
  exists t rest, split_space_aux cur s = t :: rest.
Proof.
  revert cur. induction s as [|c s IH]; intros cur; cbn [split_space_aux].
  - eauto.
  - destruct (Ascii.eqb c " "); [eauto|apply IH].
Qed.

Lemma split_space_aux_app a : forall cur b,
  split_space_aux cur (a +:+ String " " b)
  = split_space_aux cur a ++ split_space_aux "" b.
Proof.
  induction a as [|c a IH]; intros cur b.
  - reflexivity.
  - change (String c a +:+ String " " b) with (String c (a +:+ String " " b)).
    cbn [split_space_aux]. destruct (Ascii.eqb c " ").
    + rewrite IH. reflexivity.
    + apply IH.
Qed.

Lemma classList_add_valid t tag attrs cls disp ls kids :
  valid_token t ->
  classList_add t (Element tag attrs cls disp ls kids)
  = Value (Element tag attrs (if string_in t cls then cls else cls ++ [t])
             disp ls kids).
Proof.
  intros [N W]. unfold classList_add.
  destruct (String.eqb_spec t ""); [congruence|]. rewrite W. reflexivity.
Qed.

(** The loop of [_addClass] over valid tokens. *)
Lemma addClass_loop tag attrs disp ls kids tokens : forall cls s,
  Forall valid_token tokens ->
  _element s = Some (Element tag attrs cls disp ls kids) ->
  forEach
    (fun className b' =>
       match _element b' with
       | None => Throw TypeError b'
       | Some el =>
           match classList_add className el with
           | Value el' => Normal tt (set_element (Some el') b')
           | Raise e => Throw e b'
           | NoModel => Unmodelled
           end
       end) tokens s
  = Normal tt
      (set_element
         (Some (Element tag attrs (add_tokens tokens cls) disp ls kids)) s).
Proof.
  induction tokens as [|t tokens IH]; intros cls s F E.
  - cbn. rewrite set_element_same by exact E. reflexivity.
  - apply Forall_cons in F. destruct F as [F1 F2].
    cbn [forEach]. unfold bind. rewrite E.
    rewrite classList_add_valid by exact F1.
    rewrite (IH (if string_in t cls then cls else cls ++ [t])) by
      (try exact F2; reflexivity).
    reflexivity.
Qed.

Lemma add_tokens_spec tokens : forall cls,
  (exists added, add_tokens tokens cls = cls ++ added)
  /\ (forall t, t ∈ add_tokens tokens cls <-> t ∈ cls \/ t ∈ tokens)
  /\ (NoDup cls -> NoDup (add_tokens tokens cls)).
Proof.
  induction tokens as [|t tokens IH]; intros cls.
  - cbn. split; [exists []; rewrite app_nil_r; reflexivity|].
    split; [|auto]. intros t. rewrite elem_of_nil. tauto.
  - unfold add_tokens. cbn [fold_left].
    fold (add_tokens tokens (if string_in t cls then cls else cls ++ [t])).
    destruct (IH (if string_in t cls then cls else cls ++ [t]))
      as ((added & Ea) & Hm & Hn).
    destruct (string_in t cls) eqn:Et.
    + apply string_in_elem in Et. split; [exists added; exact Ea|].
      split; [|exact Hn]. intros x. rewrite Hm, elem_of_cons.
      split; [tauto|]. intros [H|[->|H]]; auto.
    + assert (Nt : t ∉ cls).
      { intros H. apply string_in_elem in H. congruence. }
      split; [exists (t :: added); rewrite Ea, <- app_assoc; reflexivity|].
      split.
      * intros x. rewrite Hm, elem_of_app, !elem_of_cons, elem_of_nil.
        tauto.
      * intros ND. apply Hn. apply NoDup_app. split; [exact ND|].
        split; [|apply NoDup_singleton].
        intros x Hx Hx'. apply list_elem_of_singleton in Hx'. subst x.
        exact (Nt Hx).
Qed.

Lemma props_classes_string b s :
  fields (props b) !! "classes" = Some (VStr s) -> props_classes b = VStr s.
Proof.
  intros H. unfold props_classes, proxy_get. rewrite H. reflexivity.
Qed.

Lemma truthy_string s : s <> "" -> truthy (VStr s) = true.
Proof.
  intros H. cbn. destruct (String.eqb_spec s ""); [congruence|reflexivity].
Qed.

(** X15. With a non-empty [classes] string whose tokens between spaces
    are non-empty and free of whitespace, [_addClass] returns, and the
    class list of the element is the former list followed by additions:
    its members are those of the former list and the tokens, and no class
    is repeated when none was. *)
Theorem addClass_adds_each_token b tag attrs cls disp ls kids s :
  _element b = Some (Element tag attrs cls disp ls kids) ->
  fields (props b) !! "classes" = Some (VStr s) ->
  s <> "" ->
  Forall valid_token (split_space s) ->
  exists cls',
    _addClass b
    = Normal tt (set_element (Some (Element tag attrs cls' disp ls kids)) b)
    /\ (exists added, cls' = cls ++ added)
    /\ (forall t, t ∈ cls' <-> t ∈ cls \/ t ∈ split_space s)
    /\ (NoDup cls -> NoDup cls').
Proof.
  intros E Hc Hs F. exists (add_tokens (split_space s) cls).
  split; [|apply add_tokens_spec].
  unfold _addClass. rewrite (props_classes_string b s Hc).
  rewrite truthy_string by exact Hs. cbn [negb classes_split].
  apply addClass_loop; assumption.
Qed.

(** The loop of [_addClass] stops at an empty token. *)
Lemma addClass_loop_empty tokens : forall s el,
  Forall (fun t => has_whitespace t = false) tokens ->
  "" ∈ tokens ->
  _element s = Some el ->
  exists s',
    forEach
      (fun className b' =>
         match _element b' with
         | None => Throw TypeError b'
         | Some el =>
             match classList_add className el with
             | Value el' => Normal tt (set_element (Some el') b')
             | Raise e => Throw e b'
             | NoModel => Unmodelled
             end
         end) tokens s
    = Throw (DOMException "SyntaxError") s'.
Proof.
  induction tokens as [|t tokens IH]; intros s el F H E; [inversion H|].
  apply Forall_cons in F. destruct F as [F1 F2].
  cbn [forEach]. unfold bind. rewrite E. unfold classList_add.
  destruct (String.eqb_spec t "") as [->|N].
  - exists s. reflexivity.
  - rewrite F1. apply elem_of_cons in H. destruct H as [H|H]; [congruence|].
    destruct el as [tag attrs cls disp ls kids|d].
    + eapply IH; [exact F2|exact H|reflexivity].
    + eapply IH; [exact F2|exact H|reflexivity].
Qed.

(** X16. When [classes.split(' ')] has an empty token, as it has for a
    string with a space at either end or two spaces in a row, and no
    token holds other whitespace, [_addClass] on an instance that has a
    node throws a [SyntaxError] [DOMException]. *)
Theorem addClass_rejects_empty_token b el s :
  _element b = Some el ->
  fields (props b) !! "classes" = Some (VStr s) ->
  s <> "" ->
  Forall (fun t => has_whitespace t = false) (split_space s) ->
  "" ∈ split_space s ->
  exists b', _addClass b = Throw (DOMException "SyntaxError") b'.
Proof.
  intros E Hc Hs F H. unfold _addClass. rewrite (props_classes_string b s Hc).
  rewrite truthy_string by exact Hs. cbn [negb classes_split].
  eapply addClass_loop_empty; eassumption.
Qed.

(** The strings with an empty token: a space first, a space last, or two
    spaces in a row. *)
Lemma empty_token_shapes a b :
  "" ∈ split_space (String " " b)
  /\ "" ∈ split_space (a +:+ " ")
  /\ "" ∈ split_space (a +:+ "  " +:+ b).
Proof.
  unfold split_space. split; [|split].
  - cbn [split_space_aux]. cbn. left.
  - rewrite split_space_aux_app. apply elem_of_app. right. cbn. left.
  - change (a +:+ "  " +:+ b) with (a +:+ String " " (String " " b)).
    rewrite split_space_aux_app. apply elem_of_app. right.
    cbn [split_space_aux]. cbn. left.
Qed.

(** X17. On an instance without node, [_addClass] with a non-empty
    [classes] string throws a [TypeError], the node being dereferenced
    with [!], and changes nothing, whereas [_addEvents], which uses [?.],
    passes every listener over and returns. *)
Theorem classes_need_a_node b s :
  _element b = None ->
  fields (props b) !! "classes" = Some (VStr s) ->
  s <> "" ->
  _addClass b = Throw TypeError b
  /\ (forall evs, own_entries (props_events b) = Value evs ->
                  _addEvents b = Normal tt b).
Proof.
  intros E Hc Hs. split.
  - unfold _addClass. rewrite (props_classes_string b s Hc).
    rewrite truthy_string by exact Hs. cbn [negb classes_split].
    unfold split_space.
    destruct (split_space_aux_cons "" s) as (t & rest & ->).
    cbn [forEach]. unfold bind. rewrite E. reflexivity.
  - intros evs Hev. unfold _addEvents. rewrite Hev. clear Hev.
    induction evs as [|[name cb] evs IH]; [reflexivity|].
    cbn [forEach]. unfold bind. rewrite E. exact IH.
Qed.

(** ** [show] and [hide] *)

Lemma set_display_twice d d' n :
  set_display d' (set_display d n) = set_display d' n.
Proof. destruct n; reflexivity. Qed.

(** X18. Of two calls of [show] and [hide] in a row the last one
    decides; on an instance whose node is an element [show] returns with
    the display of the node set to [block] and [hide] with it set to
    [none], the tag, the attributes, the class list, the listeners and
    the child nodes of the node being left as they are; and each of
    them, however it ends, leaves the props, the children, the history
    of events and the replacements made as they were. *)
Theorem show_hide_last_wins b :
  (show ;;; hide)%method b = hide b
  /\ (hide ;;; show)%method b = show b
  /\ (show ;;; show)%method b = show b
  /\ (hide ;;; hide)%method b = hide b
  /\ (forall tag attrs cls disp ls kids,
        _element b = Some (Element tag attrs cls disp ls kids) ->
        show b
        = Normal tt
            (set_element
               (Some (Element tag attrs cls (Some "block") ls kids)) b)
        /\ hide b
           = Normal tt
               (set_element
                  (Some (Element tag attrs cls (Some "none") ls kids)) b))
  /\ (forall b',
        final_state (show b) = Some b' \/ final_state (hide b) = Some b' ->
        same_store b b' /\ document_ops b' = document_ops b).
Proof.
  assert (F : forall d b',
            final_state
              (match _element b with
               | Some el =>
                   Normal tt (set_element (Some (set_display d el)) b)
               | None => Throw TypeError b
               end) = Some b' ->
            same_store b b' /\ document_ops b' = document_ops b).
  { intros d b'. destruct (_element b) as [el|] eqn:E;
      intros [= <-]; cbn [_element set_element].
    - split; [apply same_store_set_element|reflexivity].
    - split; [apply same_store_refl|reflexivity]. }
  unfold bind, show, hide, getContent, element.
  split; [|split; [|split; [|split; [|split]]]];
    try (destruct (_element b) as [el|]; cbn [_element set_element];
         rewrite ?set_display_twice; reflexivity).
  - intros tag attrs cls disp ls kids E. rewrite E. split; reflexivity.
  - intros b' [H|H]; apply F in H; exact H.
Qed.

(** ** The listeners *)

Lemma func_eqb_eq f g : func_eqb f g = true <-> f = g.
Proof.
  destruct f as [a|a], g as [c|c]; cbn; try (split; [discriminate|congruence]);
    rewrite String.eqb_eq; split; congruence.
Qed.

Lemma listener_eqb_eq a c : listener_eqb a c = true <-> a = c.
Proof.
  destruct a as [n f], c as [m g]. unfold listener_eqb. cbn [fst snd].
  rewrite andb_true_iff, String.eqb_eq, func_eqb_eq. split.
  - intros [-> ->]. reflexivity.
  - intros [= -> ->]. auto.
Qed.

Lemma listener_in h ls : existsb (listener_eqb h) ls = true <-> h ∈ ls.
Proof.
  rewrite existsb_exists. split.
  - intros (x & Hx & E). apply listener_eqb_eq in E. subst x.
    apply list_elem_of_In, Hx.
  - intros H. exists h. split; [apply list_elem_of_In, H|].
    apply listener_eqb_eq. reflexivity.
Qed.

Lemma add_listeners_grows hs : forall ls,
  exists added,
    add_listeners hs ls = ls ++ added /\ (forall h, h ∈ added -> h ∈ hs).
Proof.
  induction hs as [|h hs IH]; intros ls.
  - exists []. split; [cbn; rewrite app_nil_r; reflexivity|].
    intros h H. inversion H.
  - unfold add_listeners. cbn [fold_left].
    fold (add_listeners hs
            (if existsb (listener_eqb h) ls then ls else ls ++ [h])).
    destruct (IH (if existsb (listener_eqb h) ls then ls else ls ++ [h]))
      as (added & E & Hsub).
    destruct (existsb (listener_eqb h) ls).
    + exists added. split; [exact E|]. intros x Hx. right. apply Hsub, Hx.
    + exists (h :: added). split; [rewrite E, <- app_assoc; reflexivity|].
      intros x Hx. apply elem_of_cons in Hx. destruct Hx as [->|Hx];
        [left|right; apply Hsub, Hx].
Qed.

Lemma add_listeners_has hs : forall ls h,
  h ∈ hs \/ h ∈ ls -> h ∈ add_listeners hs ls.
Proof.
  induction hs as [|h' hs IH]; intros ls h H.
  - destruct H as [H|H]; [inversion H|exact H].
  - unfold add_listeners. cbn [fold_left].
    fold (add_listeners hs
            (if existsb (listener_eqb h') ls then ls else ls ++ [h'])).
    apply IH. destruct H as [H|H].
    + apply elem_of_cons in H. destruct H as [->|H]; [|left; exact H].
      right. destruct (existsb (listener_eqb h') ls) eqn:E.
      * apply listener_in, E.
      * apply elem_of_app. right. left.
    + right. destruct (existsb (listener_eqb h') ls); [exact H|].
      apply elem_of_app. left. exact H.
Qed.

Lemma remove_listeners_app hs : forall l1 l2,
  remove_listeners hs (l1 ++ l2)
  = remove_listeners hs l1 ++ remove_listeners hs l2.
Proof.
  induction hs as [|h hs IH]; intros l1 l2; [reflexivity|].
  unfold remove_listeners. cbn [fold_left]. rewrite filter_app. apply IH.
Qed.

Lemma remove_listeners_nil hs : remove_listeners hs [] = [].
Proof. induction hs as [|h hs IH]; [reflexivity|exact IH]. Qed.

Lemma remove_listeners_one hs : forall x,
  x ∈ hs -> remove_listeners hs [x] = [].
Proof.
  induction hs as [|h hs IH]; intros x H; [inversion H|].
  unfold remove_listeners. cbn [fold_left]. rewrite filter_cons, filter_nil.
  fold (remove_listeners hs).
  destruct (listener_eqb h x) eqn:E.
  - rewrite decide_False by discriminate. apply remove_listeners_nil.
  - rewrite decide_True by reflexivity. apply IH.
    apply elem_of_cons in H. destruct H as [->|H]; [|exact H].
    assert (listener_eqb h h = true) by (apply listener_eqb_eq; reflexivity).
    congruence.
Qed.

Lemma remove_listeners_within hs added :
  (forall h, h ∈ added -> h ∈ hs) -> remove_listeners hs added = [].
Proof.
  induction added as [|x added IH]; intros H.
  - apply remove_listeners_nil.
  - change (x :: added) with ([x] ++ added).
    rewrite remove_listeners_app, remove_listeners_one by (apply H; left).
    apply IH. intros h Hh. apply H. right. exact Hh.
Qed.

Lemma remove_listeners_apart hs : forall ls,
  (forall h, h ∈ hs -> h ∉ ls) -> remove_listeners hs ls = ls.
Proof.
  induction hs as [|h hs IH]; intros ls D; [reflexivity|].
  unfold remove_listeners. cbn [fold_left]. fold (remove_listeners hs).
  rewrite filter_all.
  - apply IH. intros h' Hh'. apply D. right. exact Hh'.
  - apply Forall_forall. intros x Hx.
    destruct (listener_eqb h x) eqn:E; [|reflexivity].
    apply listener_eqb_eq in E. subst x. exfalso.
    apply (D h); [left|exact Hx].
Qed.

Lemma remove_after_add hs ls :
  (forall h, h ∈ hs -> h ∉ ls) ->
  remove_listeners hs (add_listeners hs ls) = ls.
Proof.
  intros D. destruct (add_listeners_grows hs ls) as (added & -> & Hsub).
  rewrite remove_listeners_app, remove_listeners_apart by exact D.
  rewrite remove_listeners_within by exact Hsub. apply app_nil_r.
Qed.

Lemma addEvents_loop tag attrs cls disp kids evs : forall ls s,
  listens evs ->
  _element s = Some (Element tag attrs cls disp ls kids) ->
  forEach
    (fun '(eventName, callback) b' =>
       match _element b' with
       | None => Normal tt b'
       | Some el =>
           match addEventListener eventName callback el with
           | Value el' => Normal tt (set_element (Some el') b')
           | Raise e => Throw e b'
           | NoModel => Unmodelled
           end
       end) evs s
  = Normal tt
      (set_element
         (Some (Element tag attrs cls disp
                  (add_listeners (handlers_of evs) ls) kids)) s).
Proof.
  induction evs as [|[name cb] evs IH]; intros ls s F E.
  - cbn. rewrite set_element_same by exact E. reflexivity.
  - apply Forall_cons in F. destruct F as [[o Ho] F2]. cbn [snd] in Ho.
    cbn [forEach]. unfold bind. rewrite E. unfold addEventListener.
    destruct cb; cbn in Ho; try discriminate; cbn [as_listener].
    + cbn [handlers_of omap list_omap snd].
      rewrite (IH ls) by (exact F2 || reflexivity). reflexivity.
    + cbn [handlers_of omap list_omap snd].
      rewrite (IH ls) by (exact F2 || reflexivity). reflexivity.
    + clear Ho. cbn [handlers_of omap list_omap snd fst].
      change (omap _ evs) with (handlers_of evs).
      unfold add_listeners, remove_listeners. cbn [fold_left].
      fold (add_listeners (handlers_of evs)).
      fold (remove_listeners (handlers_of evs)).
      rewrite (IH (if existsb (listener_eqb (name, f)) ls then ls
                   else ls ++ [(name, f)])) by (exact F2 || reflexivity).
      reflexivity.
Qed.

Lemma removeEvents_loop tag attrs cls disp kids evs : forall ls s,
  listens evs ->
  _element s = Some (Element tag attrs cls disp ls kids) ->
  forEach
    (fun '(eventName, callback) b' =>
       match _element b' with
       | None => Throw TypeError b'
       | Some el =>
           match removeEventListener eventName callback el with
           | Value el' => Normal tt (set_element (Some el') b')
           | Raise e => Throw e b'
           | NoModel => Unmodelled
           end
       end) evs s
  = Normal tt
      (set_element
         (Some (Element tag attrs cls disp
                  (remove_listeners (handlers_of evs) ls) kids)) s).
Proof.
  induction evs as [|[name cb] evs IH]; intros ls s F E.
  - cbn. rewrite set_element_same by exact E. reflexivity.
  - apply Forall_cons in F. destruct F as [[o Ho] F2]. cbn [snd] in Ho.
    cbn [forEach]. unfold bind. rewrite E. unfold removeEventListener.
    destruct cb; cbn in Ho; try discriminate; cbn [as_listener].
    + cbn [handlers_of omap list_omap snd].
      rewrite (IH ls) by (exact F2 || reflexivity). reflexivity.
    + cbn [handlers_of omap list_omap snd].
      rewrite (IH ls) by (exact F2 || reflexivity). reflexivity.
    + clear Ho. cbn [handlers_of omap list_omap snd fst].
      change (omap _ evs) with (handlers_of evs).
      unfold add_listeners, remove_listeners. cbn [fold_left].
      fold (add_listeners (handlers_of evs)).
      fold (remove_listeners (handlers_of evs)).
      rewrite (IH (filter (fun l => listener_eqb (name, f) l = false) ls))
        by (exact F2 || reflexivity).
      reflexivity.
Qed.

(** X14. On an instance whose node is an element, with an [events]
    object whose values are functions, [null] or [undefined],
    [_addEvents] registers the functions beside the listeners the element
    has, and [_removeEvents] after it gives the instance back as it was,
    when none of them was registered before. *)
Theorem removeEvents_undoes_addEvents b tag attrs cls disp ls kids evs :
  _element b = Some (Element tag attrs cls disp ls kids) ->
  own_entries (props_events b) = Value evs ->
  listens evs ->
  (forall h, h ∈ handlers_of evs -> h ∉ ls) ->
  exists ls',
    _addEvents b
    = Normal tt (set_element (Some (Element tag attrs cls disp ls' kids)) b)
    /\ (forall h, h ∈ ls' <-> h ∈ ls \/ h ∈ handlers_of evs)
    /\ (_addEvents ;;; _removeEvents)%method b = Normal tt b.
Proof.
  intros E Hev F D. exists (add_listeners (handlers_of evs) ls).
  assert (A : _addEvents b
              = Normal tt
                  (set_element
                     (Some (Element tag attrs cls disp
                              (add_listeners (handlers_of evs) ls) kids)) b)).
  { unfold _addEvents. rewrite Hev. apply addEvents_loop; assumption. }
  split; [exact A|]. split.
  - intros h. split.
    + destruct (add_listeners_grows (handlers_of evs) ls) as (added & -> & Hs).
      rewrite elem_of_app. intros [H|H]; [left; exact H|right; apply Hs, H].
    + intros H. apply add_listeners_has. tauto.
  - unfold bind. rewrite A. unfold _removeEvents.
    change (props_events (set_element _ b)) with (props_events b).
    rewrite Hev.
    rewrite (removeEvents_loop tag attrs cls disp kids evs
               (add_listeners (handlers_of evs) ls)) by (try exact F; reflexivity).
    rewrite remove_after_add by exact D.
    f_equal. destruct b. cbn in *. subst. reflexivity.
Qed.

(** ** A [null] under [events] *)

Lemma props_events_null b :
  fields (props b) !! "events" = Some VNull -> props_events b = VNull.
Proof. intros H. unfold props_events, proxy_get. rewrite H. reflexivity. Qed.

Section NullEvents.
Context {cls : BlockClass}.

(** X13. The default [{}] of [events] stands in for [undefined] only:
    with [events: null] among the props the render event throws a
    [TypeError] on [Object.keys(null)]. On an instance that has a node
    it throws before [replaceWith] is called, and the instance keeps its
    root, with the nodes below it when it has no children; on the first
    render it throws after the new node is stored. No replacement is
    made either way. *)
Theorem null_events_break_render fuel fragment b :
  wired b ->
  render (record_emit EVENTS_FLOW_RENDER [] b) = Value fragment ->
  fields (props b) !! "events" = Some VNull ->
  exists b',
    emit (S fuel) EVENTS_FLOW_RENDER [] b = Throw TypeError b'
    /\ document_ops b' = document_ops b
    /\ match _element b with
       | Some old =>
           shell <$> _element b' = Some (shell old)
           /\ (children b = [] -> _element b' = Some old)
       | None => _element b' = firstElementChild fragment
       end.
Proof.
  intros W R N. rewrite emit_render by exact W. unfold _render. rewrite R.
  cbv zeta. set (b0 := record_emit EVENTS_FLOW_RENDER [] b).
  assert (E0 : props_events b0 = VNull) by (apply props_events_null, N).
  destruct (_element b) as [old|] eqn:E.
  - change (_element b0) with (_element b). rewrite E.
    exists b0. split; [|split; [reflexivity|]].
    + unfold bind at 1. unfold bind at 1. unfold _removeEvents at 1.
      rewrite E0. reflexivity.
    + change (_element b0) with (_element b). rewrite E.
      split; [reflexivity|intros _; reflexivity].
  - change (_element b0) with (_element b). rewrite E.
    exists (set_element (firstElementChild fragment) b0).
    split; [|split; reflexivity].
    unfold bind, ret, modify. unfold _addEvents.
    change (props_events (set_element _ b0)) with (props_events b0).
    rewrite E0. reflexivity.
Qed.
End NullEvents.

(** ** Children of a constructed instance *)


Lemma stubs_of_one r : stubs_of [r] = stub_markup (VStr (ref_id r)).
Proof. cbn [stubs_of]. apply append_empty_r. Qed.

Lemma child_entries_elem name c cs :
  (name, c) ∈ cs -> (name, child_value c) ∈ child_entries cs.
Proof.
  intros H. unfold child_entries.
  apply (list_elem_of_fmap_2 (fun kc => (fst kc, child_value (snd kc)))) in H.
  exact H.
Qed.

Lemma child_entries_keys cs : fst <$> child_entries cs = fst <$> cs.
Proof.
  unfold child_entries. rewrite <- list_fmap_compose. reflexivity.
Qed.

(** ** Failures of the first loop of [compile] *)






Section ButtonComposition.
Variable parseHTML : string -> DocumentFragment.
Variable template : gmap string value -> string.


(** X4. The context [Button.render] hands to its template on an instance
    as the constructor leaves it, the keys of its bag distinct and none
    of them [__proto__], every array among its children made of
    components only: the context is what the first loop of [compile]
    makes of the props, and it holds, under the key of a child, unless
    [Object.prototype] has a property of that name, the placeholders of
    the child's components and nothing else, since the partition left no
    prop under the key of a child, and under any other key the prop, a
    function bound. *)
Theorem fresh_button_context bag cs b :
  NoDup (fst <$> bag) ->
  "__proto__" ∉ (fst <$> bag) ->
  snd (_getChildrenAndProps bag) = child_entries cs ->
  fields (props b) = fst (_getChildrenAndProps bag) ->
  children b = snd (_getChildrenAndProps bag) ->
  exists ctx,
    forEach_r add_stubs_for (children b) (spread_props b) = Value ctx
    /\ (forall name c,
          (name, c) ∈ cs ->
          Object_prototype name = VUndefined ->
          ctx !! name = Some (VStr (stubs_of (components_of c))))
    /\ (forall name,
          name ∉ (fst <$> cs) ->
          ctx !! name
          = bind_if_function <$> (fst (_getChildrenAndProps bag) !! name)).
Proof.
  intros ND _ Hcs Hp Hc.
  exists (fold_left with_stubs cs (spread_props b)).
  assert (E1 : forEach_r add_stubs_for (children b) (spread_props b)
               = Value (fold_left with_stubs cs (spread_props b)))
    by (rewrite Hc, Hcs; apply add_stubs_children).
  assert (NDc : NoDup (fst <$> cs)).
  { rewrite <- child_entries_keys, <- Hcs, children_are_filtered by exact ND.
    apply filter_keys_NoDup, ND. }
  assert (In_bag : forall name c, (name, c) ∈ cs ->
                                  (name, child_value c) ∈ bag
                                  /\ goes_to_children (name, child_value c)
                                     = true).
  { intros name c H. apply child_entries_elem in H.
    rewrite <- Hcs, children_are_filtered in H by exact ND.
    apply list_elem_of_filter in H. destruct H as [G H]. auto. }
  split; [exact E1|]. split.
  - intros name c H Hproto.
    assert (Hn : name <> "__proto__") by (intros ->; discriminate Hproto).
    rewrite (fold_with_stubs_lookup cs _ name c NDc H).
    destruct (In_bag name c H) as [Hb G].
    destruct c as [r|[|r rs]]; unfold with_stubs; cbn [fst snd components_of].
    + rewrite ctx_store_written by exact Hn.
      rewrite lookup_insert_eq, stubs_of_one. reflexivity.
    + discriminate G.
    + rewrite ctx_store_written by exact Hn.
      rewrite lookup_insert_eq. do 2 f_equal.
      assert (P : kept_prefix name (spread_props b) = "").
      { unfold kept_prefix, ctx_get, spread_props.
        rewrite lookup_fmap, Hp.
        pose proof (getChildrenAndProps_routes bag name _ ND Hb) as R.
        cbv zeta in R. unfold goes_to_children in G. cbn [snd] in G.
        destruct (routed_as (child_value (Sequence (r :: rs)))) as [[|]|];
          try discriminate G.
        destruct R as [-> _]. cbn. rewrite Hproto. reflexivity. }
      rewrite P. reflexivity.
  - intros name H. rewrite fold_with_stubs_other by exact H.
    unfold spread_props. rewrite lookup_fmap, Hp. reflexivity.
Qed.
End ButtonComposition.

(** ** Instances of the properties *)

Ltac not_among :=
  let H := fresh in
  vm_compute; intros H;
  repeat (apply elem_of_cons in H as [H|H]; [discriminate|]);
  inversion H.

Ltac distinct_keys :=
  vm_compute;
  repeat (apply NoDup_cons; split;
          [let H := fresh in
           intros H;
           repeat (apply elem_of_cons in H as [H|H]; [discriminate|]);
           inversion H|]);
  apply NoDup_nil; exact I.

Lemma partition_keeps_order_witness :
  NoDup (fst <$> mixed_bag)
  /\ ("__proto__" ∉ (fst <$> mixed_bag))
  /\ snd (_getChildrenAndProps mixed_bag)
     = filter (fun e => goes_to_children e = true) mixed_bag
  /\ fst (_getChildrenAndProps mixed_bag)
     = list_to_map (filter (fun e => goes_to_props e = true) mixed_bag)
  /\ snd (_getChildrenAndProps mixed_bag) = child_entries mixed_children.
Proof.
  assert (ND : NoDup (fst <$> mixed_bag)) by distinct_keys.
  assert (Np : "__proto__" ∉ (fst <$> mixed_bag)) by not_among.
  destruct (partition_keeps_order mixed_bag ND Np) as [Hc Hp].
  split; [exact ND|]. split; [exact Np|]. split; [exact Hc|].
  split; [exact Hp|].
  vm_compute. reflexivity.
Defined.

Lemma constructor_renders_once_witness :
  (forall s, init (BlockClass := LabelButton) s = Normal tt s)
  /\ final_state
       (new_Block (cls := LabelButton) 2 "btn001" [("label", VStr "Save")])
     = Some save_button
  /\ wired save_button
  /\ allocated save_button
  /\ _id save_button = "btn001"
  /\ props save_button
     = mkObj 0 (fst (_getChildrenAndProps [("label", VStr "Save")]))
  /\ children save_button
     = snd (_getChildrenAndProps [("label", VStr "Save")])
  /\ emitted save_button = [(EVENTS_INIT, []); (EVENTS_FLOW_RENDER, [])]
  /\ document_ops save_button = [].
Proof.
  assert (I0 : forall s, init (BlockClass := LabelButton) s = Normal tt s)
    by (intros s; reflexivity).
  assert (H : final_state
                (new_Block (cls := LabelButton) 2 "btn001"
                   [("label", VStr "Save")])
              = Some save_button) by (vm_compute; reflexivity).
  split; [exact I0|]. split; [exact H|].
  exact (constructor_renders_once (cls := LabelButton) 0 "btn001"
           [("label", VStr "Save")] save_button I0 H).
Defined.

Lemma button_renders_its_template_witness :
  Forall (fun e => goes_to_children e = false) optioned_bag
  /\ ("events" ∉ (fst <$> optioned_bag))
  /\ ("classes" ∉ (fst <$> optioned_bag))
  /\ ("__proto__" ∉ (fst <$> optioned_bag))
  /\ exists b,
      new_Block (cls := SaveButton) 2 "btn002" optioned_bag = Normal tt b
      /\ fields (props b)
         = assign (filter (fun e => goes_to_props e = true) optioned_bag) ∅
      /\ children b = []
      /\ getContent b
         = firstElementChild
             (button_parser
                (button_template
                   (bind_if_function
                      <$> assign
                            (filter (fun e => goes_to_props e = true)
                               optioned_bag) ∅)))
      /\ emitted b = [(EVENTS_INIT, []); (EVENTS_FLOW_RENDER, [])]
      /\ document_ops b = [].
Proof.
  assert (F : Forall (fun e => goes_to_children e = false) optioned_bag)
    by (repeat constructor).
  assert (Ne : "events" ∉ (fst <$> optioned_bag)) by not_among.
  assert (Nc : "classes" ∉ (fst <$> optioned_bag)) by not_among.
  assert (Np : "__proto__" ∉ (fst <$> optioned_bag)) by not_among.
  split; [exact F|]. split; [exact Ne|]. split; [exact Nc|].
  split; [exact Np|].
  exact (button_renders_its_template button_parser button_template 0 "btn002"
           optioned_bag F Ne Nc Np).
Defined.

Lemma fresh_button_context_witness :
  NoDup (fst <$> mixed_bag)
  /\ ("__proto__" ∉ (fst <$> mixed_bag))
  /\ snd (_getChildrenAndProps mixed_bag) = child_entries mixed_children
  /\ fields (props mixed_parent) = fst (_getChildrenAndProps mixed_bag)
  /\ children mixed_parent = snd (_getChildrenAndProps mixed_bag)
  /\ exists ctx,
      forEach_r add_stubs_for (children mixed_parent)
        (spread_props mixed_parent) = Value ctx
      /\ (forall name c,
            (name, c) ∈ mixed_children ->
            Object_prototype name = VUndefined ->
            ctx !! name = Some (VStr (stubs_of (components_of c))))
      /\ (forall name,
            name ∉ (fst <$> mixed_children) ->
            ctx !! name
            = bind_if_function
                <$> (fst (_getChildrenAndProps mixed_bag) !! name)).
Proof.
  assert (ND : NoDup (fst <$> mixed_bag)) by distinct_keys.
  assert (Np : "__proto__" ∉ (fst <$> mixed_bag)) by not_among.
  assert (C : snd (_getChildrenAndProps mixed_bag)
              = child_entries mixed_children) by (vm_compute; reflexivity).
  split; [exact ND|]. split; [exact Np|]. split; [exact C|].
  split; [reflexivity|]. split; [reflexivity|].
  exact (fresh_button_context mixed_bag mixed_children mixed_parent ND Np C
           eq_refl eq_refl).
Defined.




Lemma setProps_without_keys_renders_witness :
  wired save_button
  /\ truthy (VNum 42) = true
  /\ own_entries (VNum 42) = Value []
  /\ setProps (cls := LabelButton) 1 (VNum 42) save_button
     = _render (cls := LabelButton)
         (record_emit EVENTS_FLOW_RENDER [] save_button)
  /\ forall b',
      final_state (setProps (cls := LabelButton) 1 (VNum 42) save_button)
      = Some b' ->
      props b' = props save_button
      /\ emitted b' = emitted save_button ++ [(EVENTS_FLOW_RENDER, [])].
Proof.
  assert (W : wired save_button) by reflexivity.
  split; [exact W|]. split; [reflexivity|]. split; [reflexivity|].
  exact (setProps_without_keys_renders (cls := LabelButton) 0 (VNum 42)
           save_button W eq_refl eq_refl).
Defined.

Lemma inherited_hook_renders_each_key_witness :
  (forall o n, componentDidUpdate (BlockClass := SaveButton) (Some o) (Some n)
               = negb (Nat.eqb (addr o) (addr n)))
  /\ wired plain_button
  /\ allocated plain_button
  /\ truthy new_label = true
  /\ own_entries new_label = Value [("label", VStr "Saved")]
  /\ setProps (cls := SaveButton) 2 new_label plain_button
     = Normal tt plain_button_saved
  /\ length (emissions EVENTS_FLOW_RENDER (emitted plain_button_saved))
     = length (emissions EVENTS_FLOW_RENDER (emitted plain_button))
       + length [("label", VStr "Saved")] + 1.
Proof.
  assert (Hh : forall o n,
             componentDidUpdate (BlockClass := SaveButton) (Some o) (Some n)
             = negb (Nat.eqb (addr o) (addr n))) by (intros o n; reflexivity).
  assert (W : wired plain_button) by reflexivity.
  assert (A : allocated plain_button) by (unfold allocated; vm_compute; lia).
  assert (H : setProps (cls := SaveButton) 2 new_label plain_button
              = Normal tt plain_button_saved) by (vm_compute; reflexivity).
  split; [exact Hh|]. split; [exact W|]. split; [exact A|].
  split; [reflexivity|]. split; [reflexivity|]. split; [exact H|].
  exact (inherited_hook_renders_each_key (cls := SaveButton) 0 new_label
           [("label", VStr "Saved")] plain_button plain_button_saved
           Hh W A eq_refl eq_refl H).
Defined.


Lemma render_replaces_once_witness :
  wired save_button
  /\ render (BlockClass := LabelButton)
       (record_emit EVENTS_FLOW_RENDER [] save_button)
     = Value [button_node "Save"]
  /\ emit (cls := LabelButton) 1 EVENTS_FLOW_RENDER [] save_button
     = Normal tt save_button_rendered
  /\ match _element save_button with
     | None => document_ops save_button_rendered = document_ops save_button
     | Some old =>
         exists old',
           shell old' = shell old
           /\ (children save_button = [] ->
               undecorated old' = undecorated old)
           /\ document_ops save_button_rendered
              = document_ops save_button
                ++ [ReplaceWith old'
                      (node_or_text (firstElementChild [button_node "Save"]))]
     end.
Proof.
  assert (W : wired save_button) by reflexivity.
  assert (R : render (BlockClass := LabelButton)
                (record_emit EVENTS_FLOW_RENDER [] save_button)
              = Value [button_node "Save"]) by (vm_compute; reflexivity).
  assert (H : emit (cls := LabelButton) 1 EVENTS_FLOW_RENDER [] save_button
              = Normal tt save_button_rendered) by (vm_compute; reflexivity).
  split; [exact W|]. split; [exact R|]. split; [exact H|].
  exact (render_replaces_once (cls := LabelButton) 0 [button_node "Save"]
           save_button W R save_button_rendered H).
Defined.

Lemma empty_render_loses_the_node_witness :
  wired unknown_label_written
  /\ _element unknown_label_written = Some (button_node "Save")
  /\ render (BlockClass := SaveButton)
       (record_emit EVENTS_FLOW_RENDER [] unknown_label_written) = Value []
  /\ firstElementChild [] = None
  /\ plain_props (fields (props unknown_label_written))
  /\ exists b',
      emit (cls := SaveButton) 1 EVENTS_FLOW_RENDER [] unknown_label_written
      = Normal tt b'
      /\ getContent b' = None
      /\ (exists old',
            shell old' = shell (button_node "Save")
            /\ (children unknown_label_written = [] ->
                old' = button_node "Save")
            /\ document_ops b'
               = document_ops unknown_label_written
                 ++ [ReplaceWith old' (TextNode "null")])
      /\ forall fuel' b'',
          final_state (emit (cls := SaveButton) (S fuel') EVENTS_FLOW_RENDER
                         [] b') = Some b'' ->
          document_ops b'' = document_ops b'.
Proof.
  assert (W : wired unknown_label_written) by reflexivity.
  assert (E : _element unknown_label_written = Some (button_node "Save"))
    by (vm_compute; reflexivity).
  assert (R : render (BlockClass := SaveButton)
                (record_emit EVENTS_FLOW_RENDER [] unknown_label_written)
              = Value []) by (vm_compute; reflexivity).
  assert (P : plain_props (fields (props unknown_label_written)))
    by (split; vm_compute; reflexivity).
  split; [exact W|]. split; [exact E|]. split; [exact R|].
  split; [reflexivity|]. split; [exact P|].
  exact (empty_render_loses_the_node (cls := SaveButton) 0 []
           (button_node "Save") unknown_label_written W E R eq_refl P).
Defined.

Lemma null_events_break_render_witness :
  wired null_events_blank
  /\ render (BlockClass := SaveButton)
       (record_emit EVENTS_FLOW_RENDER [] null_events_blank)
     = Value [button_node "Save"]
  /\ fields (props null_events_blank) !! "events" = Some VNull
  /\ exists b',
      emit (cls := SaveButton) 1 EVENTS_FLOW_RENDER [] null_events_blank
      = Throw TypeError b'
      /\ document_ops b' = document_ops null_events_blank
      /\ match _element null_events_blank with
         | Some old =>
             shell <$> _element b' = Some (shell old)
             /\ (children null_events_blank = [] -> _element b' = Some old)
         | None => _element b' = firstElementChild [button_node "Save"]
         end.
Proof.
  assert (W : wired null_events_blank) by reflexivity.
  assert (R : render (BlockClass := SaveButton)
                (record_emit EVENTS_FLOW_RENDER [] null_events_blank)
              = Value [button_node "Save"]) by (vm_compute; reflexivity).
  assert (N : fields (props null_events_blank) !! "events" = Some VNull)
    by (vm_compute; reflexivity).
  split; [exact W|]. split; [exact R|]. split; [exact N|].
  exact (null_events_break_render (cls := SaveButton) 0 [button_node "Save"]
           null_events_blank W R N).
Defined.

Lemma removeEvents_undoes_addEvents_witness :
  _element clickable_button
  = Some (Element "button" [] [] None [] [TextNode "Save"])
  /\ own_entries (props_events clickable_button) = Value click_events
  /\ listens click_events
  /\ (forall h, h ∈ handlers_of click_events -> h ∉ [])
  /\ exists ls',
      _addEvents clickable_button
      = Normal tt
          (set_element
             (Some (Element "button" [] [] None ls' [TextNode "Save"]))
             clickable_button)
      /\ (forall h, h ∈ ls' <-> h ∈ [] \/ h ∈ handlers_of click_events)
      /\ (_addEvents ;;; _removeEvents)%method clickable_button
         = Normal tt clickable_button.
Proof.
  assert (E : own_entries (props_events clickable_button)
              = Value click_events) by (vm_compute; reflexivity).
  assert (L : listens click_events).
  { repeat constructor; eexists; reflexivity. }
  assert (D : forall h : string * func,
             h ∈ handlers_of click_events -> h ∉ [])
    by (intros h _ H; inversion H).
  split; [reflexivity|]. split; [exact E|]. split; [exact L|].
  split; [exact D|].
  exact (removeEvents_undoes_addEvents clickable_button "button" [] [] None []
           [TextNode "Save"] click_events eq_refl E L D).
Defined.

Lemma addClass_adds_each_token_witness :
  _element classy_button
  = Some (Element "button" [] ["btn"] None [] [TextNode "Save"])
  /\ fields (props classy_button) !! "classes"
     = Some (VStr "primary btn large")
  /\ "primary btn large" <> ""
  /\ Forall valid_token (split_space "primary btn large")
  /\ exists cls',
      _addClass classy_button
      = Normal tt
          (set_element
             (Some (Element "button" [] cls' None [] [TextNode "Save"]))
             classy_button)
      /\ (exists added, cls' = ["btn"] ++ added)
      /\ (forall t, t ∈ cls'
                    <-> t ∈ ["btn"] \/ t ∈ split_space "primary btn large")
      /\ (NoDup ["btn"] -> NoDup cls').
Proof.
  assert (C : fields (props classy_button) !! "classes"
              = Some (VStr "primary btn large")) by (vm_compute; reflexivity).
  assert (N : "primary btn large" <> "") by discriminate.
  assert (F : Forall valid_token (split_space "primary btn large")).
  { vm_compute. repeat constructor; discriminate. }
  split; [reflexivity|]. split; [exact C|]. split; [exact N|].
  split; [exact F|].
  exact (addClass_adds_each_token classy_button "button" [] ["btn"] None []
           [TextNode "Save"] "primary btn large" eq_refl C N F).
Defined.

Lemma addClass_rejects_empty_token_witness :
  _element spaced_button = Some (button_node "Save")
  /\ fields (props spaced_button) !! "classes" = Some (VStr "a  b")
  /\ "a  b" <> ""
  /\ Forall (fun t => has_whitespace t = false) (split_space "a  b")
  /\ "" ∈ split_space "a  b"
  /\ exists b',
      _addClass spaced_button = Throw (DOMException "SyntaxError") b'.
Proof.
  assert (C : fields (props spaced_button) !! "classes" = Some (VStr "a  b"))
    by (vm_compute; reflexivity).
  assert (N : "a  b" <> "") by discriminate.
  assert (F : Forall (fun t => has_whitespace t = false) (split_space "a  b"))
    by (vm_compute; repeat constructor).
  assert (H : "" ∈ split_space "a  b")
    by exact (proj2 (proj2 (empty_token_shapes "a" "b"))).
  split; [reflexivity|]. split; [exact C|]. split; [exact N|].
  split; [exact F|]. split; [exact H|].
  exact (addClass_rejects_empty_token spaced_button (button_node "Save")
           "a  b" eq_refl C N F H).
Defined.

Lemma classes_need_a_node_witness :
  _element classy_base = None
  /\ fields (props classy_base) !! "classes" = Some (VStr "primary")
  /\ "primary" <> ""
  /\ _addClass classy_base = Throw TypeError classy_base
  /\ (forall evs, own_entries (props_events classy_base) = Value evs ->
                  _addEvents classy_base = Normal tt classy_base).
Proof.
  assert (C : fields (props classy_base) !! "classes" = Some (VStr "primary"))
    by (vm_compute; reflexivity).
  assert (N : "primary" <> "") by discriminate.
  split; [reflexivity|]. split; [exact C|]. split; [exact N|].
  exact (classes_need_a_node classy_base "primary" eq_refl C N).
Defined.

(** The constructor of [Block] itself, given classes, throws on the missing
    node. *)
Example base_block_with_classes :
  new_Block (cls := Block_base) 2 "blk002" [("classes", VStr "primary")]
  = Throw TypeError
      (record_emit EVENTS_FLOW_RENDER [] (record_emit EVENTS_INIT []
                                            classy_base)).
Proof. vm_compute. reflexivity. Qed.

(** The mixed bag as a [Button] composes it. *)
Example mixed_bag_partition :
  fst (_getChildrenAndProps mixed_bag) = {["label" := VStr "Save"]}
  /\ snd (_getChildrenAndProps mixed_bag)
     = [("icon", VBlock (leaf "a1" "one"));
        ("items", VArr [VBlock (leaf "a2" "two"); VBlock (leaf "a3" "three")])].
Proof. vm_compute. split; reflexivity. Qed.
